(** * jholidaydict: Japanese national holidays as a dictionary

    A shallow embedding of [jholidaydict.py] (class [JHoliday]) together with
    the part of Python's [datetime] module the program relies on, and the
    properties of the holiday-rule engine proved over that embedding. *)

From Stdlib Require Import ZArith Lia Bool List.
From stdpp Require Import base decidable option list sorting gmap strings.

Local Open Scope Z_scope.

(** Linear arithmetic with division and remainder by constants. *)
Ltac zdiv := Z.to_euclidean_division_equations; lia.

(* ===================================================================== *)
(** * Exceptions and outcomes *)
(* ===================================================================== *)

(** The exceptions of this program: the two that [datetime] raises, and the
    one of a dictionary without the key. *)
Inductive exn := ValueError | OverflowError | KeyError.

(** How a computation ends: with a value, with an exception, or by
    exhausting the fuel of a loop of the model ([Timeout]).  Every loop of
    the program is shown below to end before its fuel does. *)
Inductive outcome (A : Type) :=
| Ok (a : A)
| Raises (e : exn)
| Timeout.
Arguments Ok {A} a.
Arguments Raises {A} e.
Arguments Timeout {A}.

Definition obind {A B} (x : outcome A) (f : A -> outcome B) : outcome B :=
  match x with
  | Ok a => f a
  | Raises e => Raises e
  | Timeout => Timeout
  end.

Notation "'do' x <- c1 ; c2" := (obind c1 (fun x => c2))
  (at level 10, x name, c1 at level 100, c2 at level 200).

(* ===================================================================== *)
(** * datetime.date                                                      *)
(* ===================================================================== *)

Module Date.

Definition MINYEAR : Z := 1.
Definition MAXYEAR : Z := 9999.
(** [date.max.toordinal()] *)
Definition MAXORDINAL : Z := 3652059.

(** A [datetime.date]: year, month, day. *)
Record date := mkdate { year : Z; month : Z; day : Z }.

Definition _is_leap (y : Z) : bool :=
  (y mod 4 =? 0) && (negb (y mod 100 =? 0) || (y mod 400 =? 0)).

(** [_DAYS_IN_MONTH] *)
Definition _DAYS_IN_MONTH (m : Z) : Z :=
  match m with
  | 1 => 31 | 2 => 28 | 3 => 31 | 4 => 30 | 5 => 31 | 6 => 30
  | 7 => 31 | 8 => 31 | 9 => 30 | 10 => 31 | 11 => 30 | 12 => 31
  | _ => -1
  end.

(** [_DAYS_BEFORE_MONTH] *)
Definition _DAYS_BEFORE_MONTH (m : Z) : Z :=
  match m with
  | 1 => 0 | 2 => 31 | 3 => 59 | 4 => 90 | 5 => 120 | 6 => 151
  | 7 => 181 | 8 => 212 | 9 => 243 | 10 => 273 | 11 => 304 | 12 => 334
  | _ => -1
  end.

Definition _days_before_year (y : Z) : Z :=
  let y := y - 1 in y * 365 + y / 4 - y / 100 + y / 400.

Definition _days_in_month (y m : Z) : Z :=
  if (m =? 2) && _is_leap y then 29 else _DAYS_IN_MONTH m.

Definition _days_before_month (y m : Z) : Z :=
  _DAYS_BEFORE_MONTH m + (if (2 <? m) && _is_leap y then 1 else 0).

Definition _ymd2ord (y m d : Z) : Z :=
  _days_before_year y + _days_before_month y m + d.

Definition _DI400Y : Z := 146097.
Definition _DI100Y : Z := 36524.
Definition _DI4Y : Z := 1461.

(** The month and day of the [n]-th day (from 0) of a year. *)
Definition _month_day (leapyear : bool) (n : Z) : Z * Z :=
  let month := Z.shiftr (n + 50) 5 in
  let preceding :=
    _DAYS_BEFORE_MONTH month + (if (2 <? month) && leapyear then 1 else 0) in
  if n <? preceding then
    let month := month - 1 in
    let preceding :=
      preceding
      - (_DAYS_IN_MONTH month + (if (month =? 2) && leapyear then 1 else 0)) in
    (month, n - preceding + 1)
  else (month, n - preceding + 1).

Definition _ord2ymd (n : Z) : date :=
  let n := n - 1 in
  let n400 := n / _DI400Y in
  let n := n mod _DI400Y in
  let y := n400 * 400 + 1 in
  let n100 := n / _DI100Y in
  let n := n mod _DI100Y in
  let n4 := n / _DI4Y in
  let n := n mod _DI4Y in
  let n1 := n / 365 in
  let n := n mod 365 in
  let y := y + n100 * 100 + n4 * 4 + n1 in
  if (n1 =? 4) || (n100 =? 4) then mkdate (y - 1) 12 31
  else
    let leapyear := (n1 =? 3) && (negb (n4 =? 24) || (n100 =? 3)) in
    let '(m, d) := _month_day leapyear n in
    mkdate y m d.

(** [_check_date_fields] *)
Definition valid_fields (y m d : Z) : bool :=
  (MINYEAR <=? y) && (y <=? MAXYEAR) && (1 <=? m) && (m <=? 12)
  && (1 <=? d) && (d <=? _days_in_month y m).

(** [datetime.date(y, m, d)] *)
Definition new (y m d : Z) : outcome date :=
  if valid_fields y m d then Ok (mkdate y m d) else Raises ValueError.

(** [d.replace(year=y)] *)
Definition replace_year (d : date) (y : Z) : outcome date :=
  new y (month d) (day d).

Definition toordinal (d : date) : Z := _ymd2ord (year d) (month d) (day d).

(** [date.fromordinal] *)
Definition fromordinal (n : Z) : date := _ord2ymd n.

(** [d.weekday()]: Monday is 0, Sunday is 6. *)
Definition weekday (d : date) : Z := (toordinal d + 6) mod 7.

(** [d + datetime.timedelta(days=k)]: [OverflowError] outside
    [date.min .. date.max]. *)
Definition add_days (d : date) (k : Z) : outcome date :=
  let o := toordinal d + k in
  if (0 <? o) && (o <=? MAXORDINAL) then Ok (fromordinal o)
  else Raises OverflowError.

(** Comparison of dates is the comparison of (year, month, day). *)
Definition ltb (a b : date) : bool :=
  (year a <? year b)
  || ((year a =? year b)
      && ((month a <? month b)
          || ((month a =? month b) && (day a <? day b)))).

Definition leb (a b : date) : bool := negb (ltb b a).

Definition valid (d : date) : Prop :=
  valid_fields (year d) (month d) (day d) = true.

Definition lt (a b : date) : Prop := ltb a b = true.
Definition le (a b : date) : Prop := leb a b = true.

#[export] Instance date_eq_dec : EqDecision date.
Proof. solve_decision. Defined.

#[export] Instance date_countable : Countable date.
Proof.
  refine (inj_countable' (fun d => (year d, month d, day d))
            (fun t => mkdate t.1.1 t.1.2 t.2) _).
  by intros [].
Defined.

End Date.

Import Date.

Infix "<?d" := Date.ltb (at level 70).
Infix "<=?d" := Date.leb (at level 70).
Infix "<d" := Date.lt (at level 70).
Infix "<=d" := Date.le (at level 70).

Section DateFacts.

Lemma ltb_spec (a b : date) :
  a <d b <->
  year a < year b \/
  (year a = year b /\
   (month a < month b \/ (month a = month b /\ day a < day b))).
Proof.
  unfold Date.lt, Date.ltb.
  rewrite orb_true_iff, andb_true_iff, orb_true_iff, andb_true_iff.
  rewrite !Z.ltb_lt, !Z.eqb_eq. tauto.
Qed.

Lemma leb_spec (a b : date) :
  a <=d b <->
  year a < year b \/
  (year a = year b /\
   (month a < month b \/ (month a = month b /\ day a <= day b))).
Proof.
  unfold Date.le, Date.leb. rewrite negb_true_iff.
  destruct (b <?d a) eqn:E.
  - apply (proj1 (ltb_spec b a)) in E. split; [discriminate | lia].
  - split; [intros _ | done].
    assert (~ b <d a) as N by (unfold Date.lt; congruence).
    rewrite ltb_spec in N. lia.
Qed.

Lemma ltb_false (a b : date) : (a <?d b) = false -> b <=d a.
Proof. unfold Date.le, Date.leb. by intros ->. Qed.

Lemma leb_false (a b : date) : (a <=?d b) = false -> b <d a.
Proof. unfold Date.lt, Date.leb. by intros ->%negb_false_iff. Qed.

Lemma date_eq_iff (a b : date) :
  a = b <-> year a = year b /\ month a = month b /\ day a = day b.
Proof.
  split; [by intros -> |]. destruct a, b; simpl. intros (-> & -> & ->). done.
Qed.

End DateFacts.

(** Turns order facts about dates into arithmetic on their fields. *)
Ltac date_arith :=
  repeat match goal with
    | H : _ <d _ |- _ => apply ltb_spec in H
    | H : _ <=d _ |- _ => apply leb_spec in H
    | H : (_ <?d _) = true |- _ => apply ltb_spec in H
    | H : (_ <=?d _) = true |- _ => apply leb_spec in H
    | H : (_ <?d _) = false |- _ => apply ltb_false in H
    | H : (_ <=?d _) = false |- _ => apply leb_false in H
    | |- _ <d _ => apply ltb_spec
    | |- _ <=d _ => apply leb_spec
    | |- (_ <?d _) = true => apply ltb_spec
    | |- (_ <=?d _) = true => apply leb_spec
    end.

(* ===================================================================== *)
(** * The proleptic Gregorian calendar                                   *)
(* ===================================================================== *)

Section Calendar.

Lemma is_leap_spec y :
  _is_leap y = true <->
  y mod 4 = 0 /\ (y mod 100 <> 0 \/ y mod 400 = 0).
Proof.
  unfold _is_leap.
  rewrite andb_true_iff, orb_true_iff, negb_true_iff, !Z.eqb_eq, Z.eqb_neq.
  tauto.
Qed.

Lemma is_leap_false y :
  _is_leap y = false <->
  y mod 4 <> 0 \/ (y mod 100 = 0 /\ y mod 400 <> 0).
Proof.
  rewrite <- not_true_iff_false, is_leap_spec.
  destruct (Z.eq_dec (y mod 4) 0), (Z.eq_dec (y mod 100) 0),
    (Z.eq_dec (y mod 400) 0); lia.
Qed.

Definition leap_day (y : Z) : Z := if _is_leap y then 1 else 0.

Lemma days_before_year_succ y :
  _days_before_year (y + 1) = _days_before_year y + 365 + leap_day y.
Proof.
  unfold _days_before_year, leap_day. replace (y + 1 - 1) with y by lia.
  destruct (_is_leap y) eqn:E.
  - apply is_leap_spec in E. zdiv.
  - apply is_leap_false in E. zdiv.
Qed.

Lemma leap_day_bounds y : 0 <= leap_day y <= 1.
Proof. unfold leap_day. destruct (_is_leap y); lia. Qed.

Lemma days_before_year_mono_nat (k : nat) y :
  _days_before_year y + 365 * Z.of_nat k
  <= _days_before_year (y + Z.of_nat k)
  <= _days_before_year y + 366 * Z.of_nat k.
Proof.
  induction k as [|k IH].
  - replace (y + Z.of_nat 0) with y by lia. lia.
  - replace (y + Z.of_nat (S k)) with (y + Z.of_nat k + 1) by lia.
    rewrite days_before_year_succ.
    pose proof (leap_day_bounds (y + Z.of_nat k)). lia.
Qed.

Lemma days_before_year_mono y1 y2 :
  y1 <= y2 ->
  _days_before_year y1 + 365 * (y2 - y1)
  <= _days_before_year y2
  <= _days_before_year y1 + 366 * (y2 - y1).
Proof.
  intros H. pose proof (days_before_year_mono_nat (Z.to_nat (y2 - y1)) y1) as M.
  rewrite Z2Nat.id in M by lia. replace (y1 + (y2 - y1)) with y2 in M by lia.
  exact M.
Qed.

Lemma valid_spec d :
  valid d <->
  1 <= year d <= 9999 /\ 1 <= month d <= 12
  /\ 1 <= day d <= _days_in_month (year d) (month d).
Proof.
  unfold valid, valid_fields, MINYEAR, MAXYEAR.
  rewrite !andb_true_iff, !Z.leb_le. tauto.
Qed.

End Calendar.

(** Splits on the twelve values of a month in [1 .. 12]. *)
Ltac month_cases m :=
  let H := fresh in
  assert (m = 1 \/ m = 2 \/ m = 3 \/ m = 4 \/ m = 5 \/ m = 6 \/ m = 7
          \/ m = 8 \/ m = 9 \/ m = 10 \/ m = 11 \/ m = 12) as H by lia;
  destruct H as [->|[->|[->|[->|[->|[->|[->|[->|[->|[->|[->| ->]]]]]]]]]]].

Section CalendarOrder.

(** The day of the year of a valid date lies within the year. *)
Lemma day_of_year_bounds y m d :
  1 <= m <= 12 -> 1 <= d <= _days_in_month y m ->
  1 <= _days_before_month y m + d <= 365 + leap_day y.
Proof.
  intros Hm Hd. unfold _days_before_month, _days_in_month, leap_day in *.
  destruct (_is_leap y); month_cases m; simpl in *; lia.
Qed.

Lemma days_before_month_lt y m1 d1 m2 d2 :
  1 <= m1 -> m1 < m2 -> m2 <= 12 ->
  d1 <= _days_in_month y m1 -> 1 <= d2 ->
  _days_before_month y m1 + d1 < _days_before_month y m2 + d2.
Proof.
  intros H1 H12 H2 Hd1 Hd2.
  unfold _days_before_month, _days_in_month in *.
  destruct (_is_leap y); month_cases m1; month_cases m2; simpl in *; lia.
Qed.

Lemma toordinal_lt a b :
  valid a -> valid b -> a <d b -> toordinal a < toordinal b.
Proof.
  intros Ha%valid_spec Hb%valid_spec Hab%ltb_spec.
  destruct a as [ya ma da], b as [yb mb db]; unfold toordinal, _ymd2ord;
    simpl in *.
  destruct Hab as [Hy | [-> [Hm | [-> Hd]]]].
  - pose proof (day_of_year_bounds ya ma da ltac:(lia) ltac:(lia)).
    pose proof (day_of_year_bounds yb mb db ltac:(lia) ltac:(lia)).
    pose proof (days_before_year_succ ya).
    pose proof (days_before_year_mono (ya + 1) yb ltac:(lia)). lia.
  - pose proof (days_before_month_lt yb ma da mb db). lia.
  - lia.
Qed.

Lemma date_trichotomy a b : a <d b \/ a = b \/ b <d a.
Proof.
  rewrite !ltb_spec, date_eq_iff. lia.
Qed.

Lemma toordinal_lt_iff a b :
  valid a -> valid b -> (a <d b <-> toordinal a < toordinal b).
Proof.
  intros Ha Hb. split; [by apply toordinal_lt |].
  intros H. destruct (date_trichotomy a b) as [|[->|Hba]]; [done|lia|].
  apply toordinal_lt in Hba; [lia|done..].
Qed.

Lemma toordinal_le_iff a b :
  valid a -> valid b -> (a <=d b <-> toordinal a <= toordinal b).
Proof.
  intros Ha Hb. unfold Date.le, Date.leb. rewrite negb_true_iff.
  pose proof (toordinal_lt_iff b a Hb Ha) as H. unfold Date.lt in H.
  destruct (b <?d a); split; intros; try done.
  - assert (toordinal b < toordinal a) by (by apply H). lia.
  - destruct (Z.lt_ge_cases (toordinal b) (toordinal a)) as [L|L]; [|lia].
    apply H in L. discriminate.
Qed.

Lemma toordinal_inj a b :
  valid a -> valid b -> toordinal a = toordinal b -> a = b.
Proof.
  intros Ha Hb E. destruct (date_trichotomy a b) as [L|[->|L]]; [|done|];
    apply toordinal_lt in L; try done; lia.
Qed.

Lemma toordinal_bounds d : valid d -> 1 <= toordinal d <= MAXORDINAL.
Proof.
  intros H%valid_spec. destruct d as [y m d]; unfold toordinal, _ymd2ord;
    simpl in *.
  pose proof (day_of_year_bounds y m d ltac:(lia) ltac:(lia)).
  pose proof (days_before_year_mono 1 y ltac:(lia)).
  pose proof (days_before_year_succ y).
  pose proof (days_before_year_mono (y + 1) 10000 ltac:(lia)).
  change (_days_before_year 1) with 0 in *.
  change (_days_before_year 10000) with 3652059 in *.
  unfold MAXORDINAL. lia.
Qed.

End CalendarOrder.

Section Ordinals.

(** What [_month_day] must return for day [n] of a year. *)
Definition month_day_ok (leapyear : bool) (n : Z) : bool :=
  let '(m, d) := _month_day leapyear n in
  (1 <=? m) && (m <=? 12) && (1 <=? d)
  && (d <=? _DAYS_IN_MONTH m + (if (m =? 2) && leapyear then 1 else 0))
  && (_DAYS_BEFORE_MONTH m + (if (2 <? m) && leapyear then 1 else 0) + d
      =? n + 1).

Lemma month_day_table :
  List.forallb (fun n : nat => month_day_ok true (Z.of_nat n)) (seq 0%nat 366%nat)
  && List.forallb (fun n : nat => month_day_ok false (Z.of_nat n)) (seq 0%nat 365%nat) = true.
Proof. vm_compute. reflexivity. Qed.

Lemma month_day_spec (leapyear : bool) (n : Z) :
  0 <= n < 365 + (if leapyear then 1 else 0) ->
  month_day_ok leapyear n = true.
Proof.
  intros Hn. pose proof month_day_table as T.
  apply andb_true_iff in T as [T1 T0].
  rewrite <- (Z2Nat.id n) by lia.
  destruct leapyear.
  - eapply (proj1 (forallb_forall _ _) T1), in_seq. lia.
  - eapply (proj1 (forallb_forall _ _) T0), in_seq. lia.
Qed.

Lemma days_in_month_unfold y m :
  _days_in_month y m
  = _DAYS_IN_MONTH m + (if (m =? 2) && _is_leap y then 1 else 0).
Proof.
  unfold _days_in_month.
  destruct (m =? 2) eqn:E; [apply Z.eqb_eq in E as ->|];
    destruct (_is_leap y); simpl; lia.
Qed.

Lemma ord2ymd_spec n :
  1 <= n <= MAXORDINAL ->
  valid (_ord2ymd n) /\ toordinal (_ord2ymd n) = n.
Proof.
  unfold MAXORDINAL. intros Hn. unfold _ord2ymd, _DI400Y, _DI100Y, _DI4Y.
  set (n0 := n - 1).
  set (n400 := n0 / 146097). set (r1 := n0 mod 146097).
  set (n100 := r1 / 36524). set (r2 := r1 mod 36524).
  set (n4 := r2 / 1461). set (r3 := r2 mod 1461).
  set (n1 := r3 / 365). set (r4 := r3 mod 365).
  assert (n0 = 146097 * n400 + r1 /\ 0 <= r1 < 146097) as [E1 B1]
    by (subst n400 r1; zdiv).
  assert (r1 = 36524 * n100 + r2 /\ 0 <= r2 < 36524) as [E2 B2]
    by (subst n100 r2; zdiv).
  assert (r2 = 1461 * n4 + r3 /\ 0 <= r3 < 1461) as [E3 B3]
    by (subst n4 r3; zdiv).
  assert (r3 = 365 * n1 + r4 /\ 0 <= r4 < 365) as [E4 B4]
    by (subst n1 r4; zdiv).
  assert (0 <= n400 <= 24) by lia.
  clearbody n400 r1 n100 r2 n4 r3 n1 r4.
  set (y := n400 * 400 + 1 + n100 * 100 + n4 * 4 + n1).
  destruct ((n1 =? 4) || (n100 =? 4)) eqn:Last.
  - (* the last day of a 4-year or 400-year cycle *)
    apply orb_true_iff in Last. rewrite !Z.eqb_eq in Last.
    assert (r4 = 0) by lia.
    assert (_is_leap (y - 1) = true) as L.
    { apply is_leap_spec. subst y. destruct Last; zdiv. }
    split.
    + apply valid_spec; simpl. rewrite days_in_month_unfold. simpl.
      subst y. lia.
    + unfold toordinal, _ymd2ord, _days_before_month, _days_before_year.
      simpl. rewrite L. simpl. subst y. destruct Last; zdiv.
  - apply orb_false_iff in Last. rewrite !Z.eqb_neq in Last.
    set (leapyear := (n1 =? 3) && (negb (n4 =? 24) || (n100 =? 3))).
    assert (_is_leap y = leapyear) as L.
    { subst leapyear. destruct (_is_leap y) eqn:E.
      - apply is_leap_spec in E. symmetry.
        rewrite andb_true_iff, orb_true_iff, negb_true_iff, !Z.eqb_eq,
          Z.eqb_neq.
        subst y. zdiv.
      - apply is_leap_false in E. symmetry.
        rewrite andb_false_iff, orb_false_iff, negb_false_iff, !Z.eqb_eq,
          !Z.eqb_neq.
        subst y. zdiv. }
    assert (0 <= r4 < 365 + (if leapyear then 1 else 0)) as Hr.
    { destruct leapyear; lia. }
    pose proof (month_day_spec leapyear r4 Hr) as MD.
    unfold month_day_ok in MD. destruct (_month_day leapyear r4) as [m d].
    rewrite !andb_true_iff, !Z.leb_le, Z.eqb_eq in MD.
    destruct MD as ((((Hm1 & Hm2) & Hd1) & Hd2) & Hsum).
    assert (_days_before_year y = n0 - r4) as DY.
    { unfold _days_before_year. subst y. zdiv. }
    split.
    + apply valid_spec; simpl. rewrite days_in_month_unfold, L.
      subst y. lia.
    + unfold toordinal, _ymd2ord, _days_before_month. simpl.
      rewrite DY, L. subst n0. lia.
Qed.

Lemma fromordinal_valid n : 1 <= n <= MAXORDINAL -> valid (fromordinal n).
Proof. intros H. apply (ord2ymd_spec n H). Qed.

Lemma toordinal_fromordinal n :
  1 <= n <= MAXORDINAL -> toordinal (fromordinal n) = n.
Proof. intros H. apply (ord2ymd_spec n H). Qed.

Lemma fromordinal_toordinal d : valid d -> fromordinal (toordinal d) = d.
Proof.
  intros H. pose proof (toordinal_bounds d H) as B.
  apply toordinal_inj; [by apply fromordinal_valid | done |].
  by apply toordinal_fromordinal.
Qed.

Lemma new_Ok y m d x :
  Date.new y m d = Ok x -> x = mkdate y m d /\ valid x.
Proof.
  unfold Date.new. destruct (valid_fields y m d) eqn:E; [|discriminate].
  intros [= <-]. done.
Qed.

Lemma new_valid y m d :
  valid (mkdate y m d) -> Date.new y m d = Ok (mkdate y m d).
Proof. unfold valid, Date.new. simpl. by intros ->. Qed.

Lemma add_days_Ok d k x :
  valid d -> add_days d k = Ok x ->
  valid x /\ toordinal x = toordinal d + k.
Proof.
  unfold add_days. intros Hd.
  destruct ((0 <? toordinal d + k) && (toordinal d + k <=? MAXORDINAL))
    eqn:E; [|discriminate].
  apply andb_true_iff in E. rewrite Z.ltb_lt, Z.leb_le in E.
  intros [= <-]. split.
  - apply fromordinal_valid. lia.
  - apply toordinal_fromordinal. lia.
Qed.

Lemma add_days_in_range d k :
  1 <= toordinal d + k <= MAXORDINAL ->
  add_days d k = Ok (fromordinal (toordinal d + k)).
Proof.
  intros H. unfold add_days.
  replace (0 <? toordinal d + k) with true by (symmetry; apply Z.ltb_lt; lia).
  replace (toordinal d + k <=? MAXORDINAL) with true
    by (symmetry; apply Z.leb_le; lia).
  done.
Qed.

Lemma add_days_overflow d k :
  MAXORDINAL < toordinal d + k -> add_days d k = Raises OverflowError.
Proof.
  intros H. unfold add_days.
  replace (toordinal d + k <=? MAXORDINAL) with false
    by (symmetry; apply Z.leb_gt; lia).
  by rewrite andb_false_r.
Qed.

Lemma weekday_bounds d : 0 <= weekday d < 7.
Proof. unfold weekday. apply Z.mod_pos_bound. lia. Qed.

End Ordinals.

(** Orders on valid dates, through their ordinals. *)
Lemma le_trans a b c : a <=d b -> b <=d c -> a <=d c.
Proof. rewrite !leb_spec. lia. Qed.

Lemma lt_le_trans a b c : a <d b -> b <=d c -> a <d c.
Proof. rewrite !leb_spec, !ltb_spec. lia. Qed.

Lemma le_lt_trans a b c : a <=d b -> b <d c -> a <d c.
Proof. rewrite !leb_spec, !ltb_spec. lia. Qed.

Lemma lt_trans a b c : a <d b -> b <d c -> a <d c.
Proof. rewrite !ltb_spec. lia. Qed.

Lemma lt_le a b : a <d b -> a <=d b.
Proof. rewrite leb_spec, ltb_spec. lia. Qed.

Lemma le_refl a : a <=d a.
Proof. rewrite leb_spec. lia. Qed.

Lemma lt_irrefl a : ~ a <d a.
Proof. rewrite ltb_spec. lia. Qed.

Lemma le_antisym a b : a <=d b -> b <=d a -> a = b.
Proof. rewrite !leb_spec, date_eq_iff. lia. Qed.

Lemma le_total a b : a <=d b \/ b <d a.
Proof. rewrite leb_spec, ltb_spec. lia. Qed.

Lemma lt_not_le a b : a <d b <-> ~ b <=d a.
Proof. rewrite leb_spec, ltb_spec. lia. Qed.

Lemma leb_true_iff a b : (a <=?d b) = true <-> a <=d b.
Proof. done. Qed.

Lemma ltb_true_iff a b : (a <?d b) = true <-> a <d b.
Proof. done. Qed.

Lemma leb_false_iff a b : (a <=?d b) = false <-> b <d a.
Proof.
  split; [apply leb_false|]. intros H%lt_not_le.
  by apply not_true_iff_false.
Qed.

Lemma ltb_false_iff a b : (a <?d b) = false <-> b <=d a.
Proof.
  split; [apply ltb_false|]. unfold Date.le, Date.leb.
  by intros ->%negb_true_iff.
Qed.

(* ===================================================================== *)
(** * datetime.datetime and datetime.timedelta                           *)
(* ===================================================================== *)

Module DateTime.

(** Microseconds in a day. *)
Definition DAY_US : Z := 86400000000.

(** A [datetime.datetime]: its date and the microseconds since midnight.
    A [timedelta] is its total number of microseconds. *)
Record datetime := mkdt { dt_date : date; dt_us : Z }.

(** [datetime.timedelta(minutes=n)] *)
Definition minutes (n : Z) : Z := n * 60000000.

(** [datetime.datetime(y, mo, d, h, mi)] *)
Definition new (y mo d h mi : Z) : outcome datetime :=
  do dd <- Date.new y mo d;
  if (0 <=? h) && (h <? 24) && (0 <=? mi) && (mi <? 60)
  then Ok (mkdt dd (minutes (h * 60 + mi)))
  else Raises ValueError.

(** [dt + delta]: the sum is normalised to days and microseconds;
    [OverflowError] when the day leaves [1 .. MAXORDINAL]. *)
Definition add (dt : datetime) (delta : Z) : outcome datetime :=
  let t := toordinal (dt_date dt) * DAY_US + dt_us dt + delta in
  let days := t / DAY_US in
  if (0 <? days) && (days <=? MAXORDINAL)
  then Ok (mkdt (fromordinal days) (t mod DAY_US))
  else Raises OverflowError.

(** [dt.date()] *)
Definition date (dt : datetime) : Date.date := dt_date dt.

(** The microseconds from ordinal 0 to [dt]. *)
Definition instant (dt : datetime) : Z :=
  toordinal (dt_date dt) * DAY_US + dt_us dt.

End DateTime.

(* ===================================================================== *)
(** * Generators and itertools                                           *)
(* ===================================================================== *)

(** A generator that is run to its end: the values it yields, then how it
    ends ([Ok tt] is StopIteration). *)
Inductive gen (A : Type) :=
| Return (o : outcome unit)
| Yield (a : A) (g : gen A).
Arguments Return {A} o.
Arguments Yield {A} a g.

Abbreviation Stop := (Return (Ok tt)).

(** [yield from g1; yield from g2], [itertools.chain] *)
Fixpoint chain {A} (g1 g2 : gen A) : gen A :=
  match g1 with
  | Return (Ok _) => g2
  | Return o => Return o
  | Yield a g => Yield a (chain g g2)
  end.

Section Generators.
Context {A B : Type}.

(** The values a generator yields before it ends. *)
Fixpoint yielded (g : gen A) : list A :=
  match g with
  | Return _ => []
  | Yield a g => a :: yielded g
  end.

Fixpoint ending (g : gen A) : outcome unit :=
  match g with
  | Return o => o
  | Yield _ g => ending g
  end.

(** [itertools.dropwhile] *)
Fixpoint dropwhile (p : A -> bool) (g : gen A) : gen A :=
  match g with
  | Return o => Return o
  | Yield a g' => if p a then dropwhile p g' else g
  end.

(** [itertools.takewhile] *)
Fixpoint takewhile (p : A -> bool) (g : gen A) : gen A :=
  match g with
  | Return o => Return o
  | Yield a g' => if p a then Yield a (takewhile p g') else Stop
  end.

(** [(x for x in g if p(x))], [filter] *)
Fixpoint gen_filter (p : A -> bool) (g : gen A) : gen A :=
  match g with
  | Return o => Return o
  | Yield a g' => if p a then Yield a (gen_filter p g') else gen_filter p g'
  end.

(** [(f(x) for x in g)] *)
Fixpoint gen_map (f : A -> B) (g : gen A) : gen B :=
  match g with
  | Return o => Return o
  | Yield a g' => Yield (f a) (gen_map f g')
  end.

(** [for x in g: y = f(x); yield y], where [f] may raise *)
Fixpoint gen_map_raise (f : A -> outcome B) (g : gen A) : gen B :=
  match g with
  | Return o => Return o
  | Yield a g' =>
      match f a with
      | Ok b => Yield b (gen_map_raise f g')
      | Raises e => Return (Raises e)
      | Timeout => Return Timeout
      end
  end.

(** [for x in g: yield from body(x)] *)
Fixpoint gen_for (g : gen A) (body : A -> gen B) : gen B :=
  match g with
  | Return o => Return o
  | Yield a g' => chain (body a) (gen_for g' body)
  end.

End Generators.

(** A generator that starts from the outcome of a computation. *)
Definition gstart {A B} (x : outcome A) (k : A -> gen B) : gen B :=
  match x with
  | Ok a => k a
  | Raises e => Return (Raises e)
  | Timeout => Return Timeout
  end.

(* ===================================================================== *)
(** * The amendments of the Act on National Holidays                     *)
(* ===================================================================== *)

Definition DATE_00 : date := mkdate 1948 7 23.
Definition DATE_01 : date := mkdate 1966 6 25.
Definition DATE_KE : date := mkdate 1966 12 9.
Definition DATE_02 : date := mkdate 1973 4 12.
Definition DATE_03 : date := mkdate 1985 12 27.
Definition DATE_04 : date := mkdate 1989 2 17.
Definition DATE_05 : date := mkdate 1996 1 1.
Definition DATE_HM : date := mkdate 2000 1 1.
Definition DATE_06 : date := mkdate 2003 1 1.
Definition DATE_07 : date := mkdate 2007 1 1.
Definition DATE_08 : date := mkdate 2016 1 1.
Definition DATE_TO : date := mkdate 2018 6 20.
Definition DATE_TT : date := mkdate 2019 5 1.
Definition DATE_09 : date := mkdate 2020 1 1.

(** A holiday dictionary: dates to names. *)
Abbreviation hdict := (gmap date string).

(** [key in holidays] *)
Definition mem (key : date) (holidays : hdict) : bool :=
  match holidays !! key with Some _ => true | None => false end.

(** [dict.update(pairs)] and [dict(pairs)]: later pairs win; an exception
    of the generator leaves no dictionary. *)
Fixpoint dict_update (d : hdict) (pairs : gen (date * string))
  : outcome hdict :=
  match pairs with
  | Return (Ok _) => Ok d
  | Return (Raises e) => Raises e
  | Return Timeout => Timeout
  | Yield (k, v) g => dict_update (<[k := v]> d) g
  end.

Definition dict (pairs : gen (date * string)) : outcome hdict :=
  dict_update ∅ pairs.

(* ===================================================================== *)
(** * class JHoliday                                                     *)
(* ===================================================================== *)

Module JHoliday.

(** An instance: the range and the cached dictionary. *)
Record t := mk {
  min_date : date;
  max_date : date;
  _holidays_dict : option hdict
}.

(** [JHoliday(min_date, max_date)] *)
Definition __init__ (min_date max_date : date) : t :=
  mk min_date max_date None.

(** [JHoliday.from_year(min_year, max_year)] *)
Definition from_year (min_year max_year : Z) : outcome t :=
  do min_date <- Date.new min_year 1 1;
  do max_date <- Date.new max_year 12 31;
  Ok (__init__ min_date max_date).

(** [operator.gt(a, b)], [operator.ge(a, b)] *)
Definition gt (a b : date) : bool := b <?d a.
Definition ge (a b : date) : bool := b <=?d a.

(** A bound that is [None] is skipped; a date is always true. *)
Definition _sorted_dates_filter (it : gen date) (min_date max_date : option date)
  : gen date :=
  let it :=
    match min_date with
    | Some min_date => dropwhile (gt min_date) it
    | None => it
    end in
  let it :=
    match max_date with
    | Some max_date => takewhile (ge max_date) it
    | None => it
    end in
  it.

Definition _holidays_filter (it : gen (date * string)) (min_date max_date : date)
  : gen (date * string) :=
  gen_filter (fun p => (min_date <=?d p.1) && (p.1 <=?d max_date)) it.

(** Fuel for a loop that runs once per year of the calendar. *)
Definition YEARS : nat := Z.to_nat 10000.

Fixpoint _iter_dates_loop (fuel : nat) (d : date) : gen date :=
  match fuel with
  | O => Return Timeout
  | S fuel =>
      Yield d (gstart (replace_year d (year d + 1)) (_iter_dates_loop fuel))
  end.

Definition _iter_dates (month day : Z) : gen date :=
  gstart (Date.new (year DATE_00) month day) (_iter_dates_loop YEARS).

Definition iter_dates (self : t) (month day : Z) : gen date :=
  let it := _iter_dates month day in
  _sorted_dates_filter it (Some (min_date self)) (Some (max_date self)).

Definition _iter_nth_monday (month n : Z) : gen date :=
  let dates := _iter_dates month 1 in
  gen_map_raise
    (fun d =>
       let weekday := weekday d in
       add_days d (7 * (n - 1) + 1 * ((7 - weekday) mod 7)))
    dates.

Definition iter_nth_monday (self : t) (month n : Z) : gen date :=
  let it := _iter_nth_monday month n in
  _sorted_dates_filter it (Some (min_date self)) (Some (max_date self)).

Fixpoint iter_all_dates_loop (fuel : nat) (max_date d : date) : gen date :=
  match fuel with
  | O => Return Timeout
  | S fuel =>
      if d <=?d max_date
      then Yield d (gstart (add_days d 1) (iter_all_dates_loop fuel max_date))
      else Stop
  end.

(** One iteration per day of the range, and the last test. *)
Definition iter_all_dates (self : t) : gen date :=
  iter_all_dates_loop
    (S (Z.to_nat (toordinal (max_date self) - toordinal (min_date self) + 1)))
    (max_date self) (min_date self).

(** [((date, h) for date in it)] *)
Definition named (h : string) (it : gen date) : gen (date * string) :=
  gen_map (fun d => (d, h)) it.

(** [if self.min_date <= d <= self.max_date: yield d, h] *)
Definition yield_if_in_range (self : t) (d : date) (h : string)
  : gen (date * string) :=
  if (min_date self <=?d d) && (d <=?d max_date self)
  then Yield (d, h) Stop else Stop.

Definition ganjitsu (self : t) : gen (date * string) :=
  let h := "元日"%string in
  let it := iter_dates self 1 1 in
  let it := _sorted_dates_filter it (Some DATE_00) None in
  named h it.

Definition seijinnohi (self : t) : gen (date * string) :=
  let h := "成人の日"%string in
  let it := iter_dates self 1 15 in
  let it := _sorted_dates_filter it (Some DATE_00) (Some DATE_HM) in
  let it2 := iter_nth_monday self 1 2 in
  let it2 := _sorted_dates_filter it2 (Some DATE_HM) None in
  chain (named h it) (named h it2).

Definition kenkokukinennohi (self : t) : gen (date * string) :=
  let h := "建国記念の日"%string in
  let it := iter_dates self 2 11 in
  let it := _sorted_dates_filter it (Some DATE_KE) None in
  named h it.

(** [timedelta(days=365.242189)]: the constructor splits the float into
    365 days, 20925 seconds and 129600 microseconds (0.242189 days are
    20925.1296 seconds; the error of the double, below 3e-9 seconds, is
    lost when the microseconds are rounded). *)
Definition delta : Z := 365 * DateTime.DAY_US + 20925 * 1000000 + 129600.

(** [while go(dt.date()): if emit(dt.date()): yield dt.date(), h;
    dt += step] *)
Fixpoint equinox_loop (fuel : nat) (go emit : date -> bool) (step : Z)
  (h : string) (dt : DateTime.datetime) : gen (date * string) :=
  match fuel with
  | O => Return Timeout
  | S fuel =>
      if go (DateTime.date dt) then
        let rest :=
          gstart (DateTime.add dt step) (equinox_loop fuel go emit step h) in
        if emit (DateTime.date dt)
        then Yield (DateTime.date dt, h) rest
        else rest
      else Stop
  end.

(** [max(a, b)] on dates *)
Definition max_ (a b : date) : date := if a <?d b then b else a.

Definition shunbunnohi (self : t) : gen (date * string) :=
  let h := "春分の日"%string in
  gstart (DateTime.new 2018 3 21 1 15) (fun dt2018 =>
  gstart (DateTime.add dt2018 (- DateTime.minutes 8)) (fun dt2018 =>
  let dt := dt2018 in
  let min_date := max_ DATE_00 (min_date self) in
  chain
    (equinox_loop YEARS (fun d => min_date <=?d d)
       (fun d => d <?d max_date self) (- delta) h dt)
    (gstart (DateTime.add dt2018 (DateTime.minutes (8 + 4))) (fun dt2018 =>
     gstart (DateTime.add dt2018 delta) (fun dt =>
     equinox_loop YEARS (fun d => d <?d max_date self)
       (fun d => min_date <=?d d) delta h dt))))).

Definition showanohi (self : t) : gen (date * string) :=
  let h := "昭和の日"%string in
  let it := iter_dates self 4 29 in
  let it := _sorted_dates_filter it (Some DATE_07) None in
  named h it.

Definition kenpokinenbi (self : t) : gen (date * string) :=
  let h := "憲法記念日"%string in
  let it := iter_dates self 5 3 in
  let it := _sorted_dates_filter it (Some DATE_00) None in
  named h it.

Definition midorinohi (self : t) : gen (date * string) :=
  let h := "みどりの日"%string in
  let it := iter_dates self 4 29 in
  let it := _sorted_dates_filter it (Some DATE_04) (Some DATE_07) in
  let it2 := iter_dates self 5 4 in
  let it2 := _sorted_dates_filter it2 (Some DATE_07) None in
  chain (named h it) (named h it2).

Definition kodomonohi (self : t) : gen (date * string) :=
  let h := "こどもの日"%string in
  let it := iter_dates self 5 5 in
  let it := _sorted_dates_filter it (Some DATE_00) None in
  named h it.

(** [((date, h) for date in it if date.year != 2020)] *)
Definition named_except_2020 (h : string) (it : gen date)
  : gen (date * string) :=
  named h (gen_filter (fun d => negb (year d =? 2020)) it).

Definition uminohi (self : t) : gen (date * string) :=
  let h := "海の日"%string in
  let it := iter_dates self 7 20 in
  let it := _sorted_dates_filter it (Some DATE_05) (Some DATE_06) in
  let it2 := iter_nth_monday self 7 3 in
  let it2 := _sorted_dates_filter it2 (Some DATE_06) None in
  let d2020 := mkdate 2020 7 23 in
  chain (named h it)
    (chain (named_except_2020 h it2) (yield_if_in_range self d2020 h)).

Definition yamanohi (self : t) : gen (date * string) :=
  let h := "山の日"%string in
  let it := iter_dates self 8 11 in
  let it := _sorted_dates_filter it (Some DATE_08) None in
  let d2020 := mkdate 2020 8 10 in
  chain (named_except_2020 h it) (yield_if_in_range self d2020 h).

Definition keironohi (self : t) : gen (date * string) :=
  let h := "敬老の日"%string in
  let it := iter_dates self 9 15 in
  let it := _sorted_dates_filter it (Some DATE_01) (Some DATE_06) in
  let it2 := iter_nth_monday self 9 3 in
  let it2 := _sorted_dates_filter it2 (Some DATE_06) None in
  chain (named h it) (named h it2).

Definition shubunnohi (self : t) : gen (date * string) :=
  let h := "秋分の日"%string in
  gstart (DateTime.new 2018 9 23 10 54) (fun dt2018 =>
  gstart (DateTime.add dt2018 (- DateTime.minutes 2)) (fun dt2018 =>
  let dt := dt2018 in
  let min_date := max_ DATE_00 (min_date self) in
  chain
    (if DateTime.date dt <?d max_date self
     then equinox_loop YEARS (fun d => min_date <=?d d) (fun _ => true)
            (- delta) h dt
     else Stop)
    (gstart (DateTime.add dt2018 delta) (fun dt =>
     if min_date <=?d DateTime.date dt
     then equinox_loop YEARS (fun d => d <?d max_date self) (fun _ => true)
            delta h dt
     else Stop)))).

Definition supotsunohi (self : t) : gen (date * string) :=
  let h := "スポーツの日"%string in
  let it := iter_nth_monday self 10 2 in
  let it := _sorted_dates_filter it (Some DATE_09) None in
  let d2020 := mkdate 2020 7 24 in
  chain (named_except_2020 h it) (yield_if_in_range self d2020 h).

Definition taikunohi (self : t) : gen (date * string) :=
  let h := "体育の日"%string in
  let it := iter_dates self 10 10 in
  let it := _sorted_dates_filter it (Some DATE_01) (Some DATE_HM) in
  let it2 := iter_nth_monday self 10 2 in
  let it2 := _sorted_dates_filter it2 (Some DATE_HM) (Some DATE_09) in
  chain (named h it) (named h it2).

Definition bunkanohi (self : t) : gen (date * string) :=
  let h := "文化の日"%string in
  let it := iter_dates self 11 3 in
  let it := _sorted_dates_filter it (Some DATE_00) None in
  named h it.

Definition kinrokanshanohi (self : t) : gen (date * string) :=
  let h := "勤労感謝の日"%string in
  let it := iter_dates self 11 23 in
  let it := _sorted_dates_filter it (Some DATE_00) None in
  named h it.

Definition tennotanjobi (self : t) : gen (date * string) :=
  let h := "天皇誕生日"%string in
  let it := iter_dates self 4 29 in
  let it := _sorted_dates_filter it (Some DATE_00) (Some DATE_04) in
  let it2 := iter_dates self 12 23 in
  let it2 := _sorted_dates_filter it2 (Some DATE_04) (Some DATE_TT) in
  let it3 := iter_dates self 2 23 in
  let it3 := _sorted_dates_filter it3 (Some DATE_TT) None in
  chain (named h it) (chain (named h it2) (named h it3)).

Definition _special : gen (date * string) :=
  Yield (mkdate 1959 4 10, "皇太子明仁親王の結婚の儀"%string)
  (Yield (mkdate 1989 2 24, "昭和天皇の大喪の礼"%string)
  (Yield (mkdate 1990 11 12, "即位礼正殿の儀"%string)
  (Yield (mkdate 1993 6 9, "皇太子徳仁親王の結婚の儀"%string)
  (Yield (mkdate 2019 5 1, "即位の日"%string)
  (Yield (mkdate 2019 10 22, "即位礼正殿の儀"%string) Stop))))).

Definition special (self : t) : gen (date * string) :=
  _holidays_filter _special (min_date self) (max_date self).

Definition furikae : string := "振替休日".
Definition kokuminno : string := "国民の休日".

(** [while one in holidays: one += datetime.timedelta(days=1)] *)
Fixpoint skip_holidays (fuel : nat) (holidays : hdict) (one : date)
  : outcome date :=
  match fuel with
  | O => Timeout
  | S fuel =>
      if mem one holidays
      then do one <- add_days one 1; skip_holidays fuel holidays one
      else Ok one
  end.

(** The rule of a day between two holidays, shared by the last two eras. *)
Definition sandwich (max_date : date) (holidays : hdict) (date_ : date)
  : gen (date * string) :=
  gstart (add_days date_ 2) (fun two =>
  if mem two holidays then
    gstart (add_days date_ 1) (fun one =>
    if negb (mem one holidays) && negb (weekday one =? 6)
       && (one <=?d max_date)
    then Yield (one, kokuminno) Stop
    else Stop)
  else Stop).

(** The body of the loop of [kokuminnokyujitsu] for one [date_]; [Stop] is
    the end of the iteration. *)
Definition kokuminnokyujitsu_body (max_date : date) (holidays : hdict)
  (date_ : date) : gen (date * string) :=
  if date_ <?d DATE_02 then Stop
  else if date_ <?d DATE_03 then
    if mem date_ holidays then
      if weekday date_ =? 6 then
        gstart (add_days date_ 1) (fun one =>
        if negb (mem one holidays) && (one <=?d max_date)
        then Yield (one, furikae) Stop
        else Stop)
      else Stop
    else Stop
  else if date_ <?d DATE_07 then
    if mem date_ holidays then
      if weekday date_ =? 6 then
        gstart (add_days date_ 1) (fun one =>
        if negb (mem one holidays) && (one <=?d max_date)
        then Yield (one, furikae) Stop
        else sandwich max_date holidays date_)
      else sandwich max_date holidays date_
    else Stop
  else
    if mem date_ holidays then
      if weekday date_ =? 6 then
        gstart (do one <- add_days date_ 1;
                skip_holidays (S (size holidays)) holidays one) (fun one =>
        if one <=?d max_date
        then Yield (one, furikae) Stop
        else sandwich max_date holidays date_)
      else sandwich max_date holidays date_
    else Stop.

(** The generator run on a dictionary that does not change meanwhile. *)
Definition kokuminnokyujitsu (self : t) (holidays : hdict)
  : gen (date * string) :=
  gen_for (iter_all_dates self)
    (kokuminnokyujitsu_body (max_date self) holidays).

(** The eighteen generators of the holidays of the Act, in the order in
    which [_holidays] chains them. *)
Definition catalogue (self : t) : list (gen (date * string)) :=
  [ ganjitsu self; seijinnohi self; kenkokukinennohi self; shunbunnohi self;
    showanohi self; kenpokinenbi self; midorinohi self; kodomonohi self;
    uminohi self; yamanohi self; keironohi self; shubunnohi self;
    supotsunohi self; taikunohi self; bunkanohi self; kinrokanshanohi self;
    tennotanjobi self; special self ].

(** [itertools.chain] of a list of generators *)
Definition chain_all {A} (gens : list (gen A)) : gen A :=
  foldr chain Stop gens.

(** ** Dictionaries as objects

    [holidays.update(self.kokuminnokyujitsu(dict(holidays)))] runs the
    generator while [update] writes: the two dictionaries are objects of a
    store, and the generator reads the one it was given when it resumes
    for the next date. *)

Definition loc := nat.
Abbreviation store := (gmap loc hdict).

(** [target[k] = v] for each pair *)
Definition store_pairs (target : loc) (pairs : list (date * string))
  (σ : store) : store :=
  foldl (fun σ p =>
           match σ !! target with
           | Some d => <[target := <[p.1 := p.2]> d]> σ
           | None => σ
           end) σ pairs.

(** [target.update(gen)], where [gen] is the loop of [kokuminnokyujitsu]
    over [dates] reading the dictionary at [source]: each date resumes the
    generator on the current content of [source], and what it yields is
    written to [target] before the next date. *)
Fixpoint update_kokuminnokyujitsu (max_date : date) (target source : loc)
  (dates : gen date) (σ : store) : outcome store :=
  match dates with
  | Return (Ok _) => Ok σ
  | Return (Raises e) => Raises e
  | Return Timeout => Timeout
  | Yield date_ dates =>
      match σ !! source with
      | None => Raises KeyError
      | Some holidays =>
          let body := kokuminnokyujitsu_body max_date holidays date_ in
          let σ := store_pairs target (yielded body) σ in
          match ending body with
          | Ok _ => update_kokuminnokyujitsu max_date target source dates σ
          | Raises e => Raises e
          | Timeout => Timeout
          end
      end
  end.

(** The computation of the property [_holidays], without the cache. *)
Definition resolve (self : t) : outcome hdict :=
  do base <- dict (chain_all (catalogue self));
  (* holidays is object 0, dict(holidays) is object 1 *)
  let holidays : loc := 0%nat in
  let copy : loc := 1%nat in
  let σ : store := <[copy := base]> (<[holidays := base]> ∅) in
  do σ <- update_kokuminnokyujitsu (max_date self) holidays copy
            (iter_all_dates self) σ;
  match σ !! holidays with
  | Some d => Ok d
  | None => Raises KeyError
  end.

(** The property [_holidays]: computed at the first use, then cached. *)
Definition _holidays (self : t) : outcome (hdict * t) :=
  match _holidays_dict self with
  | Some holidays => Ok (holidays, self)
  | None =>
      do holidays <- resolve self;
      Ok (holidays, mk (min_date self) (max_date self) (Some holidays))
  end.

Definition __contains__ (self : t) (key : date) : outcome (bool * t) :=
  do r <- _holidays self; Ok (mem key r.1, r.2).

Definition __getitem__ (self : t) (key : date) : outcome (string * t) :=
  do r <- _holidays self;
  match r.1 !! key with
  | Some h => Ok (h, r.2)
  | None => Raises KeyError
  end.

(** [Mapping.get]: [None] where [__getitem__] raises [KeyError]. *)
Definition get (self : t) (key : date) : outcome (option string * t) :=
  do r <- _holidays self; Ok (r.1 !! key, r.2).

(** The keys; their order is not modelled. *)
Definition __iter__ (self : t) : outcome (list date * t) :=
  do r <- _holidays self; Ok ((map_to_list r.1).*1, r.2).

Definition __len__ (self : t) : outcome (nat * t) :=
  do r <- _holidays self; Ok (size r.1, r.2).

End JHoliday.

Import JHoliday.


(* ===================================================================== *)
(** * Facts about generators                                             *)
(* ===================================================================== *)

Section GenFacts.
Context {A B : Type}.
Implicit Types (g : gen A) (p : A -> bool).

Lemma yielded_chain g1 g2 :
  yielded (chain g1 g2)
  = yielded g1 ++ match ending g1 with Ok _ => yielded g2 | _ => [] end.
Proof.
  induction g1 as [[[]| |]|a g1 IH]; simpl; try done. by rewrite IH.
Qed.

Lemma ending_chain g1 g2 :
  ending (chain g1 g2)
  = match ending g1 with Ok _ => ending g2 | o => o end.
Proof. induction g1 as [[[]| |]|a g1 IH]; simpl; done. Qed.

Lemma ending_chain_Ok g1 g2 :
  ending (chain g1 g2) = Ok tt <-> ending g1 = Ok tt /\ ending g2 = Ok tt.
Proof.
  rewrite ending_chain. destruct (ending g1) as [[]| |]; intuition congruence.
Qed.

Lemma yielded_chain_Ok g1 g2 :
  ending g1 = Ok tt -> yielded (chain g1 g2) = yielded g1 ++ yielded g2.
Proof. intros E. by rewrite yielded_chain, E. Qed.

Lemma yielded_chain_prefix g1 g2 :
  yielded (chain g1 g2) `prefix_of` yielded g1 ++ yielded g2.
Proof.
  rewrite yielded_chain. destruct (ending g1).
  - done.
  - apply prefix_app, prefix_nil.
  - apply prefix_app, prefix_nil.
Qed.

Lemma yielded_gen_map (f : A -> B) g :
  yielded (gen_map f g) = f <$> yielded g.
Proof. induction g as [|a g IH]; simpl; [done|]. by rewrite IH. Qed.

Lemma ending_gen_map (f : A -> B) g : ending (gen_map f g) = ending g.
Proof. induction g; simpl; done. Qed.

Lemma yielded_gen_filter p g :
  yielded (gen_filter p g) = filter (fun x => p x) (yielded g).
Proof.
  induction g as [|a g IH]; [done|]. cbn [yielded gen_filter].
  destruct (p a) eqn:E.
  - rewrite filter_cons_True by (by apply Is_true_true; rewrite ?E). cbn [yielded]. by rewrite IH.
  - rewrite filter_cons_False by (by apply Is_true_false; rewrite ?E). done.
Qed.

Lemma ending_gen_filter p g : ending (gen_filter p g) = ending g.
Proof. induction g as [|a g IH]; simpl; [done|]. by destruct (p a). Qed.

Lemma ending_dropwhile p g : ending (dropwhile p g) = ending g.
Proof. induction g as [|a g IH]; simpl; [done|]. by destruct (p a). Qed.

Lemma yielded_dropwhile_suffix p g :
  yielded (dropwhile p g) `suffix_of` yielded g.
Proof.
  induction g as [|a g IH]; simpl; [done|]. destruct (p a); simpl; [|done].
  by apply suffix_cons_r.
Qed.

Lemma yielded_takewhile_prefix p g :
  yielded (takewhile p g) `prefix_of` yielded g.
Proof.
  induction g as [|a g IH]; simpl; [done|]. destruct (p a); simpl.
  - by apply prefix_cons.
  - apply prefix_nil.
Qed.

Lemma yielded_takewhile_all p g x :
  x ∈ yielded (takewhile p g) -> p x = true.
Proof.
  induction g as [|a g IH]; simpl; [by intros ?%elem_of_nil|].
  destruct (p a) eqn:E; simpl; [|by intros ?%elem_of_nil].
  intros [->|?]%elem_of_cons; auto.
Qed.

(** A value on which [p] fails is not dropped. *)
Lemma elem_of_dropwhile p g x :
  x ∈ yielded g -> p x = false -> x ∈ yielded (dropwhile p g).
Proof.
  induction g as [|a g IH]; simpl; [done|].
  intros [->|H]%elem_of_cons Hp.
  - rewrite Hp. simpl. apply elem_of_cons. by left.
  - destruct (p a); [by apply IH|]. simpl. apply elem_of_cons. by right.
Qed.

(** [takewhile] stops as soon as the generator yields a value on which
    [p] fails: what the generator does afterwards is not seen. *)
Lemma ending_takewhile_stops p g x :
  x ∈ yielded g -> p x = false -> ending (takewhile p g) = Ok tt.
Proof.
  induction g as [|a g IH]; simpl; [by intros ?%elem_of_nil|].
  intros [->|H]%elem_of_cons Hp.
  - by rewrite Hp.
  - destruct (p a); simpl; [by apply IH|done].
Qed.

Lemma ending_takewhile_Ok p g :
  ending g = Ok tt -> ending (takewhile p g) = Ok tt.
Proof.
  induction g as [|a g IH]; simpl; [done|]. destruct (p a); simpl; auto.
Qed.

Section Sorted.
Context (R : relation A).

Lemma StronglySorted_filter (P : A -> Prop) `{!forall x, Decision (P x)}
    (l : list A) :
  StronglySorted R l -> StronglySorted R (filter P l).
Proof.
  induction 1 as [|x l Hs IH Hx]; [constructor|].
  rewrite filter_cons. destruct (decide (P x)); [|done].
  constructor; [done|].
  apply Forall_forall. intros y [_ Hy]%list_elem_of_filter.
  by eapply Forall_forall in Hx.
Qed.

Lemma filter_all (P : A -> Prop) `{!forall x, Decision (P x)} (l : list A) :
  Forall P l -> filter P l = l.
Proof.
  induction 1 as [|x l Hx Hl IH]; [done|].
  rewrite filter_cons_True by done. by rewrite IH.
Qed.

Lemma filter_none (P : A -> Prop) `{!forall x, Decision (P x)} (l : list A) :
  Forall (fun x => ~ P x) l -> filter P l = [].
Proof.
  induction 1 as [|x l Hx Hl IH]; [done|].
  by rewrite filter_cons_False.
Qed.

(** On a sorted generator [dropwhile] is a filter, when what is dropped
    is closed downwards. *)
Lemma yielded_dropwhile_sorted p g :
  (forall x y, R x y -> p y = true -> p x = true) ->
  StronglySorted R (yielded g) ->
  yielded (dropwhile p g) = filter (fun x => negb (p x)) (yielded g).
Proof.
  intros Hp. induction g as [|a g IH]; [done|]. cbn [yielded dropwhile].
  intros [Ha Hs]%StronglySorted_cons.
  destruct (p a) eqn:E.
  - rewrite filter_cons_False by (by apply Is_true_false; rewrite ?E). by apply IH.
  - rewrite filter_cons_True by (by apply Is_true_true; rewrite ?E). cbn [yielded]. f_equal.
    symmetry. apply filter_all. eapply Forall_impl; [exact Ha|].
    intros y Hy. apply Is_true_true. destruct (p y) eqn:E'; [|done].
    apply (Hp _ _ Hy) in E'. congruence.
Qed.

(** Likewise [takewhile], when what is taken is closed downwards. *)
Lemma yielded_takewhile_sorted p g :
  (forall x y, R x y -> p y = true -> p x = true) ->
  StronglySorted R (yielded g) ->
  yielded (takewhile p g) = filter (fun x => p x) (yielded g).
Proof.
  intros Hp. induction g as [|a g IH]; [done|]. cbn [yielded takewhile].
  intros [Ha Hs]%StronglySorted_cons.
  destruct (p a) eqn:E.
  - rewrite filter_cons_True by (by apply Is_true_true; rewrite ?E). cbn [yielded]. f_equal.
    by apply IH.
  - rewrite filter_cons_False by (by apply Is_true_false; rewrite ?E). cbn [yielded].
    symmetry. apply filter_none. eapply Forall_impl; [exact Ha|].
    intros y Hy. apply Is_true_false. destruct (p y) eqn:E'; [|done].
    apply (Hp _ _ Hy) in E'. congruence.
Qed.

End Sorted.
End GenFacts.

(* ===================================================================== *)
(** * The yearly streams                                                 *)
(* ===================================================================== *)

#[global] Instance date_lt_dec a b : Decision (a <d b).
Proof. unfold Date.lt. apply _. Defined.
#[global] Instance date_le_dec a b : Decision (a <=d b).
Proof. unfold Date.le. apply _. Defined.
#[global] Instance date_valid_dec a : Decision (valid a).
Proof. unfold valid. apply _. Defined.

(** [f y], [f (y + 1)], ... for [n] years, and then the [ValueError] of
    the year after the last. *)
Fixpoint year_gen (f : Z -> date) (y : Z) (n : nat) : gen date :=
  match n with
  | O => Return (Raises ValueError)
  | S n => Yield (f y) (year_gen f (y + 1) n)
  end.

(** The date of month [m] and day [d] in year [y]. *)
Definition fixed_day (m d y : Z) : date := mkdate y m d.

(** The [n]-th Monday of month [m] in year [y], for [n] up to 4. *)
Definition nth_monday (m n y : Z) : date :=
  mkdate y m (1 + (7 * (n - 1) + (7 - weekday (mkdate y m 1)) mod 7)).

(** The dates [x] with [lo <= x <= hi]; a bound [None] is no bound. *)
Definition within (lo hi : option date) (x : date) : bool :=
  match lo with Some lo => lo <=?d x | None => true end
  && match hi with Some hi => x <=?d hi | None => true end.

(** The years for which [_iter_dates] has a date. *)
Definition all_years : list Z := seqZ 1948 8052.

Section YearStreams.

Lemma yielded_year_gen f y n :
  yielded (year_gen f y n) = f <$> seqZ y (Z.of_nat n).
Proof.
  revert y. induction n as [|n IH]; intros y; [done|].
  cbn [year_gen yielded]. rewrite IH.
  rewrite Nat2Z.inj_succ, (seqZ_cons y) by lia. simpl.
  by replace (Z.pred (Z.succ (Z.of_nat n))) with (Z.of_nat n) by lia.
Qed.

Lemma ending_year_gen f y n : ending (year_gen f y n) = Raises ValueError.
Proof. revert y. induction n as [|n IH]; intros y; simpl; auto. Qed.

Lemma valid_fields_common y m d :
  1 <= y <= 9999 -> 1 <= m <= 12 -> 1 <= d <= _DAYS_IN_MONTH m ->
  valid_fields y m d = true.
Proof.
  intros Hy Hm Hd. unfold valid_fields, MINYEAR, MAXYEAR.
  rewrite !andb_true_iff, !Z.leb_le, days_in_month_unfold.
  destruct ((m =? 2) && _is_leap y); lia.
Qed.

Lemma iter_dates_loop_spec m d n : forall fuel y,
  1 <= m <= 12 -> 1 <= d <= _DAYS_IN_MONTH m -> 1 <= y ->
  Z.of_nat n = 10000 - y -> (n <= fuel)%nat -> (0 < n)%nat ->
  _iter_dates_loop fuel (mkdate y m d) = year_gen (fixed_day m d) y n.
Proof.
  induction n as [|n IH]; intros fuel y Hm Hd Hy Hn Hf Hpos; [lia|].
  destruct fuel as [|fuel]; [lia|].
  cbn [_iter_dates_loop year_gen]. f_equal.
  unfold replace_year, Date.new. cbn [year month day].
  destruct (decide (y = 9999)) as [->|Hne].
  - assert (n = 0%nat) as -> by lia. done.
  - rewrite valid_fields_common by lia. cbn [gstart].
    apply IH; lia.
Qed.

Lemma iter_dates_spec m d :
  1 <= m <= 12 -> 1 <= d <= _DAYS_IN_MONTH m ->
  _iter_dates m d = year_gen (fixed_day m d) 1948 (Z.to_nat 8052).
Proof.
  intros Hm Hd. unfold _iter_dates, Date.new. cbn [year DATE_00].
  rewrite valid_fields_common by lia. cbn [gstart].
  apply iter_dates_loop_spec; unfold YEARS; lia.
Qed.

Lemma yielded_iter_dates m d :
  1 <= m <= 12 -> 1 <= d <= _DAYS_IN_MONTH m ->
  yielded (_iter_dates m d) = fixed_day m d <$> all_years.
Proof.
  intros Hm Hd. rewrite iter_dates_spec, yielded_year_gen by done.
  by rewrite Z2Nat.id.
Qed.

Lemma toordinal_same_month y m d k :
  toordinal (mkdate y m (d + k)) = toordinal (mkdate y m d) + k.
Proof. unfold toordinal, _ymd2ord. simpl. lia. Qed.

Lemma add_days_same_month y m d k :
  valid (mkdate y m d) -> valid (mkdate y m (d + k)) ->
  add_days (mkdate y m d) k = Ok (mkdate y m (d + k)).
Proof.
  intros H1 H2. pose proof (toordinal_bounds _ H2) as B.
  rewrite toordinal_same_month in B.
  rewrite add_days_in_range by done.
  by rewrite <- toordinal_same_month, fromordinal_toordinal.
Qed.

Lemma DAYS_IN_MONTH_ge_28 m : 1 <= m <= 12 -> 28 <= _DAYS_IN_MONTH m.
Proof. intros H. month_cases m; simpl; lia. Qed.

Lemma valid_common y m d :
  1 <= y <= 9999 -> 1 <= m <= 12 -> 1 <= d <= 28 -> valid (mkdate y m d).
Proof.
  intros Hy Hm Hd. pose proof (DAYS_IN_MONTH_ge_28 m Hm).
  apply valid_fields_common; cbn; lia.
Qed.

Lemma nth_monday_add_days m n y :
  1 <= m <= 12 -> 1 <= n <= 4 -> 1 <= y <= 9999 ->
  add_days (mkdate y m 1)
    (7 * (n - 1) + 1 * ((7 - weekday (mkdate y m 1)) mod 7))
  = Ok (nth_monday m n y).
Proof.
  intros Hm Hn Hy. unfold nth_monday.
  pose proof (DAYS_IN_MONTH_ge_28 m Hm).
  pose proof (Z.mod_pos_bound (7 - weekday (mkdate y m 1)) 7 ltac:(lia)).
  rewrite Z.mul_1_l.
  apply add_days_same_month; apply valid_fields_common; cbn; lia.
Qed.

Lemma gen_map_raise_year_gen (f : date -> outcome date) (g h : Z -> date) n :
  forall y,
  (forall y', y <= y' < y + Z.of_nat n -> f (g y') = Ok (h y')) ->
  gen_map_raise f (year_gen g y n) = year_gen h y n.
Proof.
  induction n as [|n IH]; intros y Hf; [done|].
  cbn [year_gen gen_map_raise]. rewrite Hf by lia. f_equal.
  apply IH. intros y' Hy'. apply Hf. lia.
Qed.

Lemma iter_nth_monday_spec m n :
  1 <= m <= 12 -> 1 <= n <= 4 ->
  _iter_nth_monday m n = year_gen (nth_monday m n) 1948 (Z.to_nat 8052).
Proof.
  intros Hm Hn. unfold _iter_nth_monday.
  rewrite iter_dates_spec by (pose proof (DAYS_IN_MONTH_ge_28 m Hm); lia).
  apply gen_map_raise_year_gen. intros y Hy. unfold fixed_day.
  apply nth_monday_add_days; lia.
Qed.

Lemma yielded_iter_nth_monday m n :
  1 <= m <= 12 -> 1 <= n <= 4 ->
  yielded (_iter_nth_monday m n) = nth_monday m n <$> all_years.
Proof.
  intros Hm Hn. rewrite iter_nth_monday_spec, yielded_year_gen by done.
  by rewrite Z2Nat.id.
Qed.

Lemma seq_sorted a n : StronglySorted Nat.lt (seq a n).
Proof.
  revert a. induction n as [|n IH]; intros a; simpl; constructor; [done|].
  apply Forall_forall. intros x Hx%list_elem_of_In%in_seq.
  unfold Nat.lt. lia.
Qed.

Lemma seqZ_sorted y n : StronglySorted Z.lt (seqZ y n).
Proof.
  unfold seqZ. apply (StronglySorted_fmap _ Nat.lt); [|apply seq_sorted].
  unfold Nat.lt. intros a b Hab. lia.
Qed.

(** A stream with one date in each year is sorted. *)
Lemma yearly_sorted (f : Z -> date) y n :
  (forall y, year (f y) = y) ->
  StronglySorted Date.lt (f <$> seqZ y n).
Proof.
  intros Hf. apply (StronglySorted_fmap _ Z.lt); [|apply seqZ_sorted].
  intros a b Hab. apply ltb_spec. rewrite !Hf. by left.
Qed.

Lemma gt_closed lo x y : x <d y -> gt lo y = true -> gt lo x = true.
Proof. unfold gt. intros H1 H2. by apply (lt_trans x y lo). Qed.

Lemma ge_closed hi x y : x <d y -> ge hi y = true -> ge hi x = true.
Proof.
  unfold ge. intros H1 H2. apply lt_le. by apply (lt_le_trans x y hi).
Qed.

(** On a sorted stream the clipping is the filter of the window. *)
Lemma yielded_sorted_dates_filter it lo hi :
  StronglySorted Date.lt (yielded it) ->
  yielded (_sorted_dates_filter it lo hi)
  = filter (fun x => within lo hi x) (yielded it).
Proof.
  intros Hs. unfold _sorted_dates_filter, within.
  assert (forall l : list date,
    filter (fun x => true && true) l = l) as Fid.
  { intros l. apply filter_all, Forall_forall. done. }
  destruct lo as [lo|], hi as [hi|].
  - rewrite (yielded_takewhile_sorted Date.lt), (yielded_dropwhile_sorted Date.lt);
      [|apply gt_closed|done|apply ge_closed|].
    + rewrite list_filter_filter. apply list_filter_iff. intros x.
      unfold ge, gt, Date.leb. rewrite andb_True. tauto.
    + rewrite (yielded_dropwhile_sorted Date.lt); [|apply gt_closed|done].
      by apply StronglySorted_filter.
  - rewrite (yielded_dropwhile_sorted Date.lt); [|apply gt_closed|done].
    apply list_filter_iff. intros x. unfold gt, Date.leb.
    by rewrite andb_true_r.
  - rewrite (yielded_takewhile_sorted Date.lt); [|apply ge_closed|done].
    apply list_filter_iff. intros x. by unfold ge.
  - by rewrite Fid.
Qed.

Lemma sorted_dates_filter_sorted it lo hi :
  StronglySorted Date.lt (yielded it) ->
  StronglySorted Date.lt (yielded (_sorted_dates_filter it lo hi)).
Proof.
  intros Hs. rewrite yielded_sorted_dates_filter by done.
  by apply StronglySorted_filter.
Qed.

Lemma ending_sorted_dates_filter_None it lo :
  ending (_sorted_dates_filter it lo None) = ending it.
Proof.
  unfold _sorted_dates_filter. destruct lo; [|done]. apply ending_dropwhile.
Qed.

Lemma ending_sorted_dates_filter_Ok it lo hi :
  ending it = Ok tt -> ending (_sorted_dates_filter it lo hi) = Ok tt.
Proof.
  intros E. unfold _sorted_dates_filter.
  assert (ending (match lo with
                  | Some m => dropwhile (gt m) it
                  | None => it
                  end) = Ok tt) as E'.
  { destruct lo; [by rewrite ending_dropwhile|done]. }
  destruct hi; [by apply ending_takewhile_Ok|done].
Qed.

(** The clipping stops when the stream has a date in or after the window
    that is past its upper bound. *)
Lemma ending_sorted_dates_filter_stops it lo hi x :
  x ∈ yielded it -> within lo None x = true -> hi <d x ->
  ending (_sorted_dates_filter it lo (Some hi)) = Ok tt.
Proof.
  intros Hx Hlo Hhi. unfold _sorted_dates_filter.
  apply (ending_takewhile_stops _ _ x).
  - destruct lo as [lo|]; [|done]. apply elem_of_dropwhile; [done|].
    unfold within in Hlo. rewrite andb_true_r in Hlo.
    unfold gt. by apply ltb_false_iff.
  - unfold ge. by apply leb_false_iff.
Qed.

End YearStreams.

(* ===================================================================== *)
(** * The n-th Monday of a month                                         *)
(* ===================================================================== *)

(** [F] is the earliest date on or after [a] that is a Monday. *)
Definition first_monday_from (a F : date) : Prop :=
  valid F /\ a <=d F /\ weekday F = 0
  /\ forall G, valid G -> a <=d G -> weekday G = 0 -> F <=d G.

Section NthMonday.

Lemma gen_map_raise_lookup {A B} (f : A -> outcome B) (g : gen A) :
  forall (i : nat) a b,
  (forall (j : nat) a', (j < i)%nat -> yielded g !! j = Some a' ->
                        exists b', f a' = Ok b') ->
  yielded g !! i = Some a -> f a = Ok b ->
  yielded (gen_map_raise f g) !! i = Some b.
Proof.
  induction g as [o|x g IH]; intros i a b Hpre Ha Hb; [done|].
  cbn [yielded gen_map_raise] in *. destruct i as [|i].
  - injection Ha as ->. by rewrite Hb.
  - destruct (Hpre 0%nat x ltac:(lia) eq_refl) as [b' ->].
    cbn [yielded]. simpl. apply (IH i a b); [|done..].
    intros j a' Hj Hl. apply (Hpre (S j) a'); [lia|done].
Qed.

Lemma first_monday_ordinal a F :
  valid a -> first_monday_from a F ->
  toordinal F = toordinal a + (7 - weekday a) mod 7.
Proof.
  intros Ha (HF & Hle & Hw & Hmin).
  apply toordinal_le_iff in Hle; [|done..].
  pose proof (toordinal_bounds a Ha) as Ba.
  pose proof (toordinal_bounds F HF) as BF.
  set (o := toordinal a) in *. set (k := (7 - weekday a) mod 7).
  assert (0 <= k < 7) as Hk by (apply Z.mod_pos_bound; lia).
  assert ((o + k + 6) mod 7 = 0) as Hmon.
  { subst k. unfold weekday. fold o. zdiv. }
  assert (o + k <= toordinal F) as Hlow.
  { unfold weekday in Hw. zdiv. }
  set (G := fromordinal (o + k)).
  assert (valid G) as HG by (apply fromordinal_valid; lia).
  assert (toordinal G = o + k) as EG by (apply toordinal_fromordinal; lia).
  assert (F <=d G) as HFG.
  { apply Hmin; [done| |].
    - apply toordinal_le_iff; [done..|]. fold o. lia.
    - unfold weekday. by rewrite EG. }
  apply toordinal_le_iff in HFG; [|done..]. lia.
Qed.

Lemma first_monday_intro a F :
  valid a -> valid F ->
  toordinal F = toordinal a + (7 - weekday a) mod 7 ->
  first_monday_from a F.
Proof.
  intros Ha HF E.
  pose proof (Z.mod_pos_bound (7 - weekday a) 7 ltac:(lia)) as Bk.
  repeat split; [done| | |].
  - apply toordinal_le_iff; [done..|]. lia.
  - unfold weekday in *. rewrite E. zdiv.
  - intros G HG Hle Hw. apply toordinal_le_iff in Hle; [|done..].
    apply toordinal_le_iff; [done..|]. rewrite E.
    unfold weekday in *. zdiv.
Qed.

Lemma all_years_lookup y :
  1948 <= y <= 9999 -> all_years !! Z.to_nat (y - 1948) = Some y.
Proof.
  intros Hy. unfold all_years. rewrite lookup_seqZ_lt by lia.
  f_equal. lia.
Qed.

Lemma all_years_lookup_inv (j : nat) y :
  all_years !! j = Some y -> y = 1948 + Z.of_nat j /\ 1948 <= y <= 9999.
Proof. unfold all_years. intros [-> ?]%lookup_seqZ. lia. Qed.

Lemma toordinal_next_year y y' m :
  1 <= m <= 12 -> y < y' ->
  toordinal (mkdate y m 1) + 365 <= toordinal (mkdate y' m 1).
Proof.
  intros Hm Hy. unfold toordinal, _ymd2ord. cbn [year month day].
  pose proof (days_before_year_succ y) as S1.
  pose proof (days_before_year_mono (y + 1) y' ltac:(lia)) as M.
  assert (_days_before_month y m <= _days_before_month y' m + leap_day y).
  { unfold _days_before_month, leap_day.
    destruct (2 <? m), (_is_leap y), (_is_leap y'); simpl; lia. }
  pose proof (leap_day_bounds y). lia.
Qed.

End NthMonday.

(** C5. [_iter_nth_monday month n] yields, for every year [y] from 1948,
    the date [7 * (n - 1)] days after the earliest Monday on or after the
    first day of the month; the 2nd Mondays of January and of October 2018
    are 2018-01-08 and 2018-10-08. *)
Theorem iter_nth_monday_exact :
  (forall m n y F,
    1 <= m <= 12 -> 1 <= n -> 1948 <= y <= 9999 ->
    first_monday_from (mkdate y m 1) F ->
    toordinal F + 7 * (n - 1) <= MAXORDINAL ->
    exists X,
      add_days F (7 * (n - 1)) = Ok X
      /\ yielded (_iter_nth_monday m n) !! Z.to_nat (y - 1948) = Some X)
  /\ yielded (_iter_nth_monday 1 2) !! Z.to_nat (2018 - 1948)
     = Some (mkdate 2018 1 8)
  /\ yielded (_iter_nth_monday 10 2) !! Z.to_nat (2018 - 1948)
     = Some (mkdate 2018 10 8).
Proof.
  split; [|split; vm_compute; reflexivity].
  intros m n y F Hm Hn Hy HF Hmax.
  assert (valid (mkdate y m 1)) as Ha by (apply valid_common; lia).
  pose proof (first_monday_ordinal _ _ Ha HF) as EF.
  pose proof (toordinal_bounds _ Ha) as Ba.
  pose proof (Z.mod_pos_bound (7 - weekday (mkdate y m 1)) 7 ltac:(lia)) as Bk.
  destruct HF as (HvF & _).
  exists (fromordinal (toordinal F + 7 * (n - 1))). split.
  { apply add_days_in_range. pose proof (toordinal_bounds _ HvF). lia. }
  unfold _iter_nth_monday.
  eapply gen_map_raise_lookup.
  - (* the earlier years do not overflow *)
    intros j a' Hj.
    rewrite yielded_iter_dates
      by (pose proof (DAYS_IN_MONTH_ge_28 m Hm); lia).
    rewrite list_lookup_fmap.
    destruct (all_years !! j) as [y'|] eqn:Ey; [|done].
    intros [= <-]. apply all_years_lookup_inv in Ey as [-> Hy'].
    eexists. apply add_days_in_range. unfold fixed_day.
    pose proof (toordinal_next_year (1948 + Z.of_nat j) y m Hm ltac:(lia)).
    assert (valid (mkdate (1948 + Z.of_nat j) m 1)) as Hv
      by (apply valid_common; lia).
    pose proof (toordinal_bounds _ Hv).
    pose proof (Z.mod_pos_bound
      (7 - weekday (mkdate (1948 + Z.of_nat j) m 1)) 7 ltac:(lia)).
    lia.
  - rewrite yielded_iter_dates
      by (pose proof (DAYS_IN_MONTH_ge_28 m Hm); lia).
    rewrite list_lookup_fmap, all_years_lookup by done. reflexivity.
  - unfold fixed_day. rewrite add_days_in_range by lia.
    do 2 f_equal. lia.
Qed.

Lemma iter_nth_monday_exact_witness :
  first_monday_from (mkdate 2018 10 1) (mkdate 2018 10 1)
  /\ exists X,
       add_days (mkdate 2018 10 1) (7 * (2 - 1)) = Ok X
       /\ yielded (_iter_nth_monday 10 2) !! Z.to_nat (2018 - 1948) = Some X.
Proof.
  assert (first_monday_from (mkdate 2018 10 1) (mkdate 2018 10 1)) as H.
  { apply first_monday_intro; reflexivity. }
  split; [exact H|].
  apply (proj1 iter_nth_monday_exact 10 2 2018 (mkdate 2018 10 1));
    [lia | lia | lia | exact H | vm_compute; discriminate].
Defined.

(* ===================================================================== *)
(** * The days of the range                                              *)
(* ===================================================================== *)

Section AllDates.

Lemma fromordinal_seqZ_cons d n :
  valid d -> 0 < n ->
  fromordinal <$> seqZ (toordinal d) n
  = d :: (fromordinal <$> seqZ (toordinal d + 1) (n - 1)).
Proof.
  intros Hd Hn. rewrite seqZ_cons by done. cbn [fmap list_fmap].
  by rewrite fromordinal_toordinal.
Qed.

Lemma iter_all_dates_loop_spec max_date :
  valid max_date ->
  forall (n fuel : nat) d,
  valid d -> n = Z.to_nat (toordinal max_date - toordinal d + 1) ->
  (n < fuel)%nat ->
  yielded (iter_all_dates_loop fuel max_date d)
  = fromordinal <$> seqZ (toordinal d) (Z.of_nat n)
  /\ ending (iter_all_dates_loop fuel max_date d)
     = if (0 <? Z.of_nat n) && (toordinal max_date =? MAXORDINAL)
       then Raises OverflowError else Ok tt.
Proof.
  intros Hmax. induction n as [|n IH]; intros fuel d Hd Hn Hfuel;
    (destruct fuel as [|fuel]; [lia|]); cbn [iter_all_dates_loop].
  - assert (max_date <d d) as H%leb_false_iff.
    { apply toordinal_lt_iff; [done..|]. lia. }
    rewrite H. done.
  - assert (d <=d max_date) as H.
    { apply toordinal_le_iff; [done..|]. lia. }
    rewrite H. cbn [yielded ending].
    pose proof (toordinal_bounds _ Hd) as Bd.
    pose proof (toordinal_bounds _ Hmax) as Bm.
    rewrite fromordinal_seqZ_cons by (done || lia).
    replace (Z.of_nat (S n) - 1) with (Z.of_nat n) by lia.
    destruct (decide (toordinal d + 1 <= MAXORDINAL)) as [Hin|Hout].
    + rewrite add_days_in_range by lia. cbn [gstart].
      set (d' := fromordinal (toordinal d + 1)).
      assert (valid d') as Hd' by (apply fromordinal_valid; lia).
      assert (toordinal d' = toordinal d + 1) as Ed'
        by (apply toordinal_fromordinal; lia).
      destruct (IH fuel d' Hd' ltac:(lia) ltac:(lia)) as [Y E].
      rewrite Y, E, Ed'. split; [done|].
      destruct (toordinal max_date =? MAXORDINAL) eqn:Em.
      * apply Z.eqb_eq in Em.
        assert (0 < Z.of_nat n) as ->%Z.ltb_lt by lia. done.
      * by rewrite !andb_false_r.
    + rewrite add_days_overflow by lia. cbn [gstart yielded ending].
      assert (n = 0%nat) as -> by lia. cbn [seqZ].
      assert (toordinal max_date = MAXORDINAL) as ->%Z.eqb_eq by lia.
      done.
Qed.

(** The days from [min_date] to [max_date], in order. *)
Definition days_of (self : t) : list date :=
  fromordinal
  <$> seqZ (toordinal (min_date self))
        (toordinal (max_date self) - toordinal (min_date self) + 1).

Lemma yielded_iter_all_dates self :
  valid (min_date self) -> valid (max_date self) ->
  yielded (iter_all_dates self) = days_of self.
Proof.
  intros Hmin Hmax. unfold iter_all_dates, days_of.
  edestruct (iter_all_dates_loop_spec (max_date self) Hmax) as [-> _];
    [exact Hmin|reflexivity|lia|].
  destruct (decide
    (0 <= toordinal (max_date self) - toordinal (min_date self) + 1)).
  - by rewrite Z2Nat.id.
  - rewrite Z2Nat.nonpos by lia. by rewrite !seqZ_nil by lia.
Qed.

Lemma ending_iter_all_dates self :
  valid (min_date self) -> valid (max_date self) ->
  ending (iter_all_dates self)
  = if (min_date self <=?d max_date self)
       && (toordinal (max_date self) =? MAXORDINAL)
    then Raises OverflowError else Ok tt.
Proof.
  intros Hmin Hmax. unfold iter_all_dates.
  edestruct (iter_all_dates_loop_spec (max_date self) Hmax) as [_ ->];
    [exact Hmin|reflexivity|lia|].
  replace (0 <? Z.of_nat (Z.to_nat
      (toordinal (max_date self) - toordinal (min_date self) + 1)))
    with (min_date self <=?d max_date self); [done|].
  destruct (min_date self <=?d max_date self) eqn:E; symmetry.
  - apply toordinal_le_iff in E; [|done..]. apply Z.ltb_lt. lia.
  - apply leb_false_iff, toordinal_lt_iff in E; [|done..].
    apply Z.ltb_ge. lia.
Qed.

Lemma elem_of_days_of self x :
  valid (min_date self) -> valid (max_date self) ->
  x ∈ days_of self <->
  valid x /\ min_date self <=d x /\ x <=d max_date self.
Proof.
  intros Hmin Hmax. unfold days_of.
  pose proof (toordinal_bounds _ Hmin). pose proof (toordinal_bounds _ Hmax).
  rewrite list_elem_of_fmap. split.
  - intros (o & -> & Ho%elem_of_seqZ).
    assert (valid (fromordinal o)) as Hv by (apply fromordinal_valid; lia).
    split; [done|].
    rewrite !toordinal_le_iff, toordinal_fromordinal by (done || lia). lia.
  - intros (Hx & H1 & H2). exists (toordinal x).
    split; [by rewrite fromordinal_toordinal|].
    apply toordinal_le_iff in H1, H2; [|done..].
    apply elem_of_seqZ. lia.
Qed.

(** The days before [x] in the range. *)
Lemma days_of_split self x :
  valid (min_date self) -> valid (max_date self) ->
  valid x -> min_date self <=d x -> x <=d max_date self ->
  exists l1 l2,
    days_of self = l1 ++ x :: l2
    /\ forall a, a ∈ l1 -> valid a /\ min_date self <=d a /\ a <d x.
Proof.
  intros Hmin Hmax Hx H1 H2.
  assert (x ∈ days_of self) as Hin by (by apply elem_of_days_of).
  apply list_elem_of_split in Hin as (l1 & l2 & E).
  exists l1, l2. split; [done|].
  intros a Ha.
  assert (a ∈ days_of self) as Ha'.
  { rewrite E. apply elem_of_app. by left. }
  apply elem_of_days_of in Ha' as (Hva & Hmina & _); [|done..].
  split; [done|]. split; [done|].
  (* the list of days is sorted by ordinal *)
  assert (StronglySorted (fun a b => toordinal a < toordinal b)
            (days_of self)) as Hs.
  { unfold days_of.
    pose proof (toordinal_bounds _ Hmin). pose proof (toordinal_bounds _ Hmax).
    set (lo := toordinal (min_date self)) in *.
    set (len := toordinal (max_date self) - lo + 1).
    assert (Forall (fun o => 1 <= o <= MAXORDINAL) (seqZ lo len)) as Hr.
    { apply Forall_forall. intros o Ho%elem_of_seqZ. lia. }
    pose proof (seqZ_sorted lo len) as Hz. revert Hr Hz.
    generalize (seqZ lo len). intros l Hr Hz.
    induction Hz as [|o l Hz IH Ho]; [constructor|].
    apply Forall_cons in Hr as [Hro Hr]. cbn [fmap list_fmap].
    constructor; [by apply IH|].
    apply Forall_fmap, Forall_forall. intros o' Ho'. simpl.
    rewrite (toordinal_fromordinal o) by done.
    rewrite (toordinal_fromordinal o')
      by exact (proj1 (Forall_forall _ _) Hr o' Ho').
    exact (proj1 (Forall_forall _ _) Ho o' Ho'). }
  rewrite E in Hs. apply StronglySorted_app in Hs as (Hs & _ & _).
  apply toordinal_lt_iff; [done..|]. apply Hs; [done|]. apply elem_of_cons.
  by left.
Qed.

End AllDates.

(* ===================================================================== *)
(** * The loop over the days                                             *)
(* ===================================================================== *)

Section GenFor.
Context {A B : Type}.
Implicit Types (g : gen A) (body : A -> gen B).

(** What an iteration yields is yielded by the loop, when the iterations
    before it ran to their end. *)
Lemma elem_of_gen_for g body l1 a l2 x :
  yielded g = l1 ++ a :: l2 ->
  (forall a', a' ∈ l1 -> ending (body a') = Ok tt) ->
  x ∈ yielded (body a) ->
  x ∈ yielded (gen_for g body).
Proof.
  revert l1. induction g as [o|a0 g IH]; intros l1 E Hl1 Hx.
  - by destruct l1.
  - cbn [gen_for yielded] in *. rewrite yielded_chain.
    destruct l1 as [|a1 l1]; simplify_eq/=.
    + apply elem_of_app. by left.
    + rewrite (Hl1 a1) by (apply elem_of_cons; by left).
      apply elem_of_app. right. apply (IH l1); [done| |done].
      intros a' Ha'. apply Hl1, elem_of_cons. by right.
Qed.

Lemma elem_of_gen_for_inv g body x :
  x ∈ yielded (gen_for g body) ->
  exists a, a ∈ yielded g /\ x ∈ yielded (body a).
Proof.
  induction g as [o|a0 g IH]; cbn [gen_for yielded].
  - by intros ?%elem_of_nil.
  - rewrite yielded_chain. intros [H|H]%elem_of_app.
    + exists a0. split; [apply elem_of_cons; by left|done].
    + destruct (ending (body a0)) as [[]| |]; try by apply elem_of_nil in H.
      destruct (IH H) as (a' & Ha & Hx). exists a'.
      split; [apply elem_of_cons; by right|done].
Qed.

Lemma ending_gen_for_Ok g body :
  ending g = Ok tt ->
  (forall a, a ∈ yielded g -> ending (body a) = Ok tt) ->
  ending (gen_for g body) = Ok tt.
Proof.
  induction g as [o|a0 g IH]; cbn [gen_for yielded ending]; [done|].
  intros Eg Hb. apply ending_chain_Ok. split.
  - apply Hb, elem_of_cons. by left.
  - apply IH; [done|]. intros a Ha. apply Hb, elem_of_cons. by right.
Qed.

End GenFor.

(* ===================================================================== *)
(** * Dictionaries built from pairs                                      *)
(* ===================================================================== *)

(** [d[k] = v] *)
Definition setitem (d : hdict) (p : date * string) : hdict :=
  <[p.1 := p.2]> d.

Section Dict.

Lemma dict_update_spec d pairs :
  dict_update d pairs
  = match ending pairs with
    | Ok _ => Ok (foldl setitem d (yielded pairs))
    | Raises e => Raises e
    | Timeout => Timeout
    end.
Proof.
  revert d. induction pairs as [[[]| |]|[k v] g IH]; intros d; try done.
  cbn [dict_update yielded ending foldl]. by rewrite IH.
Qed.

Lemma dict_update_Ok d pairs m :
  dict_update d pairs = Ok m ->
  ending pairs = Ok tt /\ m = foldl setitem d (yielded pairs).
Proof.
  rewrite dict_update_spec. destruct (ending pairs) as [[]| |]; [|done..].
  by intros [= <-].
Qed.

Lemma foldl_setitem_lookup_ne d l k :
  k ∉ l.*1 -> foldl setitem d l !! k = d !! k.
Proof.
  revert d. induction l as [|[k' v] l IH]; intros d Hk; [done|].
  cbn [foldl]. rewrite IH.
  - unfold setitem. simpl. apply lookup_insert_ne. intros ->. apply Hk.
    simpl. apply elem_of_cons. by left.
  - intros H. apply Hk. simpl. apply elem_of_cons. by right.
Qed.

(** The last pair of a key decides its value. *)
Lemma foldl_setitem_lookup_last d l1 k v l2 :
  k ∉ l2.*1 -> foldl setitem d (l1 ++ (k, v) :: l2) !! k = Some v.
Proof.
  intros Hk. rewrite foldl_app. cbn [foldl].
  rewrite foldl_setitem_lookup_ne by done.
  unfold setitem. simpl. apply lookup_insert_eq.
Qed.

Lemma foldl_setitem_dom d l k :
  is_Some (foldl setitem d l !! k) -> is_Some (d !! k) \/ k ∈ l.*1.
Proof.
  revert d. induction l as [|[k' v] l IH]; intros d; [by left|].
  cbn [foldl]. intros [H|H]%IH.
  - unfold setitem in H. simpl in H.
    destruct (decide (k' = k)) as [->|Hne].
    + right. simpl. apply elem_of_cons. by left.
    + rewrite lookup_insert_ne in H by done. by left.
  - right. simpl. apply elem_of_cons. by right.
Qed.

Lemma foldl_setitem_lookup_Some d l k v :
  foldl setitem d l !! k = Some v -> d !! k = Some v \/ (k, v) ∈ l.
Proof.
  revert d. induction l as [|[k' v'] l IH]; intros d; [by left|].
  cbn [foldl]. intros [H|H]%IH.
  - unfold setitem in H. simpl in H.
    destruct (decide (k' = k)) as [->|Hne].
    + rewrite lookup_insert_eq in H. injection H as ->.
      right. apply elem_of_cons. by left.
    + rewrite lookup_insert_ne in H by done. by left.
  - right. apply elem_of_cons. by right.
Qed.

Lemma mem_true k (d : hdict) : mem k d = true <-> is_Some (d !! k).
Proof.
  unfold mem. destruct (d !! k); split; done || by intros [? ?].
Qed.

Lemma mem_false k (d : hdict) : mem k d = false <-> d !! k = None.
Proof. unfold mem. by destruct (d !! k). Qed.

End Dict.

(* ===================================================================== *)
(** * The derived holidays                                               *)
(* ===================================================================== *)

Section Derived.
Implicit Types (holidays : hdict).

Lemma skip_holidays_result fuel holidays one r :
  skip_holidays fuel holidays one = Ok r -> mem r holidays = false.
Proof.
  revert one. induction fuel as [|fuel IH]; intros one; [done|].
  cbn [skip_holidays]. destruct (mem one holidays) eqn:E.
  - destruct (add_days one 1) as [one'| |]; cbn [obind]; [apply IH|done..].
  - by intros [= <-].
Qed.

(** The loop stops on the first date that is not a holiday. *)
Lemma skip_holidays_reaches holidays r :
  valid r -> mem r holidays = false ->
  forall (k fuel : nat) start,
  valid start -> Z.of_nat k = toordinal r - toordinal start ->
  (k < fuel)%nat ->
  (forall x, valid x -> start <=d x -> x <d r -> mem x holidays = true) ->
  skip_holidays fuel holidays start = Ok r.
Proof.
  intros Hr Hmem. induction k as [|k IH]; intros fuel start Hs Hk Hf Hall;
    (destruct fuel as [|fuel]; [lia|]); cbn [skip_holidays].
  - assert (start = r) as -> by (apply toordinal_inj; [done..|lia]).
    by rewrite Hmem.
  - rewrite Hall; [|done|apply le_refl|apply toordinal_lt_iff; [done..|lia]].
    pose proof (toordinal_bounds _ Hr). pose proof (toordinal_bounds _ Hs).
    rewrite add_days_in_range by lia. cbn [obind].
    set (s' := fromordinal (toordinal start + 1)).
    assert (valid s') as Hs' by (apply fromordinal_valid; lia).
    assert (toordinal s' = toordinal start + 1) as Es'
      by (apply toordinal_fromordinal; lia).
    apply IH; [done|lia|lia|].
    intros x Hx Hle Hlt. apply Hall; [done| |done].
    apply toordinal_le_iff in Hle; [|done..].
    apply toordinal_le_iff; [done..|]. lia.
Qed.

(** A run of consecutive holidays is no longer than the dictionary. *)
Lemma consecutive_holidays_bound holidays start r :
  valid start -> valid r -> start <=d r ->
  (forall x, valid x -> start <=d x -> x <d r -> mem x holidays = true) ->
  toordinal r - toordinal start <= Z.of_nat (size holidays).
Proof.
  intros Hs Hr Hle Hall. apply toordinal_le_iff in Hle; [|done..].
  pose proof (toordinal_bounds _ Hr). pose proof (toordinal_bounds _ Hs).
  set (l := fromordinal
              <$> seqZ (toordinal start) (toordinal r - toordinal start)).
  assert (NoDup l) as Hnd.
  { apply NoDup_fmap_2_strong; [|apply NoDup_seqZ].
    intros a b Ha%elem_of_seqZ Hb%elem_of_seqZ E.
    apply (f_equal toordinal) in E.
    by rewrite !toordinal_fromordinal in E by lia. }
  assert (l ⊆+ (map_to_list holidays).*1) as Hsub.
  { apply NoDup_submseteq; [done|]. intros x (o & -> & Ho%elem_of_seqZ)%list_elem_of_fmap.
    assert (valid (fromordinal o)) as Hv by (apply fromordinal_valid; lia).
    assert (mem (fromordinal o) holidays = true) as [v Hv']%mem_true.
    { apply Hall; [done|..].
      - apply toordinal_le_iff; [done..|].
        rewrite toordinal_fromordinal by lia. lia.
      - apply toordinal_lt_iff; [done..|].
        rewrite toordinal_fromordinal by lia. lia. }
    apply list_elem_of_fmap. exists (fromordinal o, v).
    split; [done|]. by apply elem_of_map_to_list. }
  apply submseteq_length in Hsub.
  rewrite length_fmap, length_map_to_list in Hsub.
  unfold l in Hsub. rewrite length_fmap, length_seqZ in Hsub. lia.
Qed.

(** The first date from [start] that is not a holiday, when there is a
    date from [start] that is not one. *)
Lemma first_non_holiday holidays t :
  valid t -> mem t holidays = false ->
  forall (k : nat) start,
  valid start -> Z.of_nat k = toordinal t - toordinal start ->
  exists r,
    valid r /\ start <=d r /\ r <=d t /\ mem r holidays = false
    /\ forall x, valid x -> start <=d x -> x <d r -> mem x holidays = true.
Proof.
  intros Ht Hmem. induction k as [|k IH]; intros start Hs Hk.
  - assert (start = t) as -> by (apply toordinal_inj; [done..|lia]).
    exists t. repeat split; [done|apply le_refl|apply le_refl|done|].
    intros x _ H1 H2. exfalso. apply lt_not_le in H2. done.
  - destruct (mem start holidays) eqn:E.
    + pose proof (toordinal_bounds _ Ht). pose proof (toordinal_bounds _ Hs).
      set (s' := fromordinal (toordinal start + 1)).
      assert (valid s') as Hs' by (apply fromordinal_valid; lia).
      assert (toordinal s' = toordinal start + 1) as Es'
        by (apply toordinal_fromordinal; lia).
      destruct (IH s' Hs' ltac:(lia)) as (r & Hr & H1 & H2 & H3 & H4).
      apply toordinal_le_iff in H1; [|done..].
      exists r. repeat split; [done| |done|done|].
      * apply toordinal_le_iff; [done..|]. lia.
      * intros x Hx Hle Hlt. apply toordinal_le_iff in Hle; [|done..].
        destruct (decide (toordinal x = toordinal start)) as [Ex|Ne].
        -- apply toordinal_inj in Ex; [|done..]. by subst.
        -- apply H4; [done| |done]. apply toordinal_le_iff; [done..|]. lia.
    + exists start. repeat split; [done|apply le_refl| |done|].
      * apply toordinal_le_iff; [done..|]. lia.
      * intros x _ H1 H2. exfalso. apply lt_not_le in H2. done.
Qed.

(** The loop of the third era returns a date, without exhausting its
    fuel, when a later date is not a holiday. *)
Lemma skip_holidays_total holidays start t :
  valid start -> valid t -> start <=d t -> mem t holidays = false ->
  exists r,
    skip_holidays (S (size holidays)) holidays start = Ok r
    /\ valid r /\ start <=d r /\ r <=d t /\ mem r holidays = false
    /\ forall x, valid x -> start <=d x -> x <d r -> mem x holidays = true.
Proof.
  intros Hs Ht Hle Hmem.
  assert (0 <= toordinal t - toordinal start) as Hk.
  { apply toordinal_le_iff in Hle; [lia|done..]. }
  destruct (first_non_holiday holidays t Ht Hmem
              (Z.to_nat (toordinal t - toordinal start)) start Hs
              ltac:(lia)) as (r & Hr & H1 & H2 & H3 & H4).
  exists r. split; [|done].
  pose proof (consecutive_holidays_bound holidays start r Hs Hr H1 H4).
  apply toordinal_le_iff in H1; [|done..].
  apply (skip_holidays_reaches holidays r Hr H3
           (Z.to_nat (toordinal r - toordinal start))); [done|lia|lia|done].
Qed.

Lemma sandwich_ending max_date holidays d :
  valid d -> toordinal d + 2 <= MAXORDINAL ->
  ending (sandwich max_date holidays d) = Ok tt.
Proof.
  intros Hd Ho. pose proof (toordinal_bounds _ Hd). unfold sandwich.
  rewrite !add_days_in_range by lia. cbn [gstart].
  repeat case_match; done.
Qed.

(** An iteration runs to its end when the second day after its date is a
    date and some later date is not a holiday. *)
Lemma kokuminnokyujitsu_body_ending max_date holidays d t :
  valid d -> toordinal d + 2 <= MAXORDINAL ->
  valid t -> d <d t -> mem t holidays = false ->
  ending (kokuminnokyujitsu_body max_date holidays d) = Ok tt.
Proof.
  intros Hd Ho Ht Hdt Hmem. pose proof (toordinal_bounds _ Hd).
  pose proof (sandwich_ending max_date holidays d Hd Ho) as Hsw.
  unfold kokuminnokyujitsu_body.
  rewrite !add_days_in_range by lia. cbn [gstart obind].
  set (d1 := fromordinal (toordinal d + 1)).
  assert (valid d1) as Hd1 by (apply fromordinal_valid; lia).
  assert (toordinal d1 = toordinal d + 1) as Ed1
    by (apply toordinal_fromordinal; lia).
  assert (d1 <=d t) as Hle.
  { apply toordinal_lt_iff in Hdt; [|done..].
    apply toordinal_le_iff; [done..|]. lia. }
  destruct (skip_holidays_total holidays d1 t Hd1 Ht Hle Hmem)
    as (r & -> & _).
  cbn [gstart]. repeat case_match; done.
Qed.

End Derived.

Section Eras.

Lemma before_era d lo hi :
  hi <=d d -> lo <=d hi -> (d <?d lo) = false.
Proof. intros H1 H2. apply ltb_false_iff. by apply (le_trans lo hi d). Qed.

Lemma era3_body max_date holidays d :
  DATE_07 <=d d ->
  kokuminnokyujitsu_body max_date holidays d
  = if mem d holidays then
      if weekday d =? 6 then
        gstart (do one <- add_days d 1;
                skip_holidays (S (size holidays)) holidays one) (fun one =>
        if one <=?d max_date
        then Yield (one, furikae) Stop
        else sandwich max_date holidays d)
      else sandwich max_date holidays d
    else Stop.
Proof.
  intros H. unfold kokuminnokyujitsu_body.
  by rewrite !(before_era d _ DATE_07).
Qed.

Lemma era2_body max_date holidays d :
  DATE_03 <=d d -> d <d DATE_07 ->
  kokuminnokyujitsu_body max_date holidays d
  = if mem d holidays then
      if weekday d =? 6 then
        gstart (add_days d 1) (fun one =>
        if negb (mem one holidays) && (one <=?d max_date)
        then Yield (one, furikae) Stop
        else sandwich max_date holidays d)
      else sandwich max_date holidays d
    else Stop.
Proof.
  intros H1 H2. unfold kokuminnokyujitsu_body.
  rewrite !(before_era d _ DATE_03) by done.
  by rewrite (proj2 (ltb_true_iff d DATE_07) H2).
Qed.

(** The iterations before a date [d] of the range run to their end when
    a date after [d] is not a holiday. *)
Lemma earlier_bodies_end self holidays d t l1 l2 :
  valid (min_date self) -> valid (max_date self) ->
  days_of self = l1 ++ d :: l2 ->
  (forall a, a ∈ l1 -> valid a /\ min_date self <=d a /\ a <d d) ->
  valid d -> valid t -> d <d t -> mem t holidays = false ->
  forall a, a ∈ l1 ->
  ending (kokuminnokyujitsu_body (max_date self) holidays a) = Ok tt.
Proof.
  intros Hmin Hmax E Hl1 Hd Ht Hdt Hmem a Ha.
  destruct (Hl1 a Ha) as (Hva & _ & Had).
  pose proof (toordinal_bounds _ Ht).
  apply toordinal_lt_iff in Hdt as Hdt'; [|done..].
  apply toordinal_lt_iff in Had as Had'; [|done..].
  apply (kokuminnokyujitsu_body_ending _ _ _ t); [done|lia|done| |done].
  by apply (lt_trans a d t).
Qed.

End Eras.

(** The lookups of the four substitute holidays of 2018. *)
Definition substitutes_2018 : outcome (list (option string)) :=
  do j <- from_year 2018 2018;
  do m <- resolve j;
  Ok [m !! mkdate 2018 2 12; m !! mkdate 2018 4 30;
      m !! mkdate 2018 9 24; m !! mkdate 2018 12 24].

(** C2. From 2007-01-01, when a date [d] of the range is a holiday of the
    dictionary and a Sunday, [kokuminnokyujitsu] yields as 振替休日 the first
    date after [d] that is not a holiday of the dictionary, provided it is
    not after [max_date]; and the dictionary of the year 2018 has 振替休日
    on 2018-02-12, 2018-04-30, 2018-09-24 and 2018-12-24. *)
Theorem substitute_after_sunday :
  (forall self holidays d one,
    valid (min_date self) -> valid (max_date self) -> valid d ->
    min_date self <=d d -> d <=d max_date self -> DATE_07 <=d d ->
    mem d holidays = true -> weekday d = 6 ->
    valid one -> d <d one -> mem one holidays = false ->
    (forall x, valid x -> d <d x -> x <d one -> mem x holidays = true) ->
    one <=d max_date self ->
    (one, furikae) ∈ yielded (kokuminnokyujitsu self holidays))
  /\ substitutes_2018
     = Ok [Some furikae; Some furikae; Some furikae; Some furikae].
Proof.
  split; [|vm_compute; reflexivity].
  intros self holidays d one Hmin Hmax Hd Hlo Hhi Hera Hmem Hsun Hone Hlt
    Hfree Hrun Hin.
  unfold kokuminnokyujitsu.
  destruct (days_of_split self d Hmin Hmax Hd Hlo Hhi) as (l1 & l2 & E & Hl1).
  assert (yielded (iter_all_dates self) = l1 ++ d :: l2) as E'
    by (by rewrite yielded_iter_all_dates).
  apply (elem_of_gen_for _ _ l1 d l2); [done|..].
  - by apply (earlier_bodies_end self holidays d one l1 l2).
  - rewrite era3_body by done. rewrite Hmem, Hsun. cbn [Z.eqb Pos.eqb].
    pose proof (toordinal_bounds _ Hd). pose proof (toordinal_bounds _ Hone).
    apply toordinal_lt_iff in Hlt as Hlt'; [|done..].
    rewrite add_days_in_range by lia. cbn [obind].
    set (d1 := fromordinal (toordinal d + 1)).
    assert (valid d1) as Hd1 by (apply fromordinal_valid; lia).
    assert (toordinal d1 = toordinal d + 1) as Ed1
      by (apply toordinal_fromordinal; lia).
    assert (forall x, valid x -> d1 <=d x -> x <d one ->
                      mem x holidays = true) as Hrun'.
    { intros x Hx Hle Hx1. apply Hrun; [done| |done].
      apply toordinal_le_iff in Hle; [|done..].
      apply toordinal_lt_iff; [done..|]. lia. }
    assert (d1 <=d one) as Hle1 by (apply toordinal_le_iff; [done..|lia]).
    pose proof (consecutive_holidays_bound holidays d1 one Hd1 Hone Hle1 Hrun').
    rewrite (skip_holidays_reaches holidays one Hone Hfree
               (Z.to_nat (toordinal one - toordinal d1)));
      [|done|lia|lia|done].
    cbn [gstart]. rewrite (proj2 (leb_true_iff _ _) Hin).
    apply elem_of_cons. by left.
Qed.

(** The dictionary of the holidays of the Act for the year 2018, before
    the derived holidays. *)
Definition base_2018 : hdict :=
  match dict (chain_all (catalogue
                (__init__ (mkdate 2018 1 1) (mkdate 2018 12 31))))
        return hdict with
  | Ok m => m
  | Raises _ => ∅
  | Timeout => ∅
  end.

Lemma substitute_after_sunday_witness :
  (mkdate 2018 2 12, furikae)
  ∈ yielded (kokuminnokyujitsu
               (__init__ (mkdate 2018 1 1) (mkdate 2018 12 31)) base_2018).
Proof.
  apply (proj1 substitute_after_sunday
           (__init__ (mkdate 2018 1 1) (mkdate 2018 12 31)) base_2018
           (mkdate 2018 2 11) (mkdate 2018 2 12));
    try (vm_compute; reflexivity).
  intros x Hx H1 H2. apply ltb_spec in H1, H2. simpl in H1, H2. lia.
Defined.

(** C3. From 1985-12-27, when a date [d] of the range is a holiday of the
    dictionary, its iteration yields no 振替休日, the second day after [d]
    is a holiday, and the day after [d] is not a holiday, not a Sunday and
    not after [max_date], then [kokuminnokyujitsu] yields the day after
    [d] as 国民の休日; the dates from 2007-01-01 are no exception. *)
Theorem sandwiched_day :
  forall self holidays d one two,
  valid (min_date self) -> valid (max_date self) -> valid d ->
  min_date self <=d d -> d <=d max_date self -> DATE_03 <=d d ->
  mem d holidays = true ->
  (forall x, (x, furikae)
             ∉ yielded (kokuminnokyujitsu_body (max_date self) holidays d)) ->
  valid one -> toordinal one = toordinal d + 1 ->
  valid two -> toordinal two = toordinal d + 2 ->
  mem two holidays = true ->
  mem one holidays = false -> weekday one <> 6 -> one <=d max_date self ->
  (one, kokuminno) ∈ yielded (kokuminnokyujitsu self holidays).
Proof.
  intros self holidays d one two Hmin Hmax Hd Hlo Hhi Hera Hmem Hno
    Hone Eone Htwo Etwo Hmem2 Hfree Hwd Hin.
  assert (d <d one) as Hlt by (apply toordinal_lt_iff; [done..|lia]).
  pose proof (toordinal_bounds _ Hd). pose proof (toordinal_bounds _ Hone).
  pose proof (toordinal_bounds _ Htwo).
  assert (add_days d 1 = Ok one) as A1.
  { rewrite add_days_in_range by lia.
    by rewrite <- Eone, fromordinal_toordinal. }
  assert (add_days d 2 = Ok two) as A2.
  { rewrite add_days_in_range by lia.
    by rewrite <- Etwo, fromordinal_toordinal. }
  assert ((one, kokuminno)
          ∈ yielded (sandwich (max_date self) holidays d)) as Hsw.
  { unfold sandwich. rewrite A2. cbn [gstart]. rewrite Hmem2, A1.
    cbn [gstart]. rewrite Hfree, (proj2 (leb_true_iff _ _) Hin).
    apply Z.eqb_neq in Hwd as ->. apply elem_of_cons. by left. }
  unfold kokuminnokyujitsu.
  destruct (days_of_split self d Hmin Hmax Hd Hlo Hhi) as (l1 & l2 & E & Hl1).
  assert (yielded (iter_all_dates self) = l1 ++ d :: l2) as E'
    by (by rewrite yielded_iter_all_dates).
  apply (elem_of_gen_for _ _ l1 d l2); [done|..].
  - by apply (earlier_bodies_end self holidays d one l1 l2).
  - destruct (weekday d =? 6) eqn:Hsun.
    + (* a Sunday: the substitute would have been yielded *)
      exfalso. apply (Hno one).
      destruct (le_total DATE_07 d) as [H3|H2].
      * rewrite era3_body by done. rewrite Hmem, Hsun, A1. cbn [obind].
        cbn [skip_holidays]. rewrite Hfree. cbn [gstart].
        rewrite (proj2 (leb_true_iff _ _) Hin). apply elem_of_cons. by left.
      * rewrite era2_body by done. rewrite Hmem, Hsun, A1. cbn [gstart].
        rewrite Hfree, (proj2 (leb_true_iff _ _) Hin).
        apply elem_of_cons. by left.
    + destruct (le_total DATE_07 d) as [H3|H2].
      * rewrite era3_body by done. by rewrite Hmem, Hsun.
      * rewrite era2_body by done. by rewrite Hmem, Hsun.
Qed.

(** The holidays of the Act around 2019-04-30. *)
Definition golden_week_2019 : hdict :=
  <[mkdate 2019 4 29 := "昭和の日"%string]>
    (<[mkdate 2019 5 1 := "即位の日"%string]> ∅).

Lemma sandwiched_day_witness :
  (mkdate 2019 4 30, kokuminno)
  ∈ yielded (kokuminnokyujitsu
               (__init__ (mkdate 2019 1 1) (mkdate 2019 12 31))
               golden_week_2019).
Proof.
  apply (sandwiched_day
           (__init__ (mkdate 2019 1 1) (mkdate 2019 12 31)) golden_week_2019
           (mkdate 2019 4 29) (mkdate 2019 4 30) (mkdate 2019 5 1));
    try (vm_compute; reflexivity).
  - intros x Hx.
    assert (yielded (kokuminnokyujitsu_body
                       (max_date (__init__ (mkdate 2019 1 1)
                                    (mkdate 2019 12 31)))
                       golden_week_2019 (mkdate 2019 4 29))
            = [(mkdate 2019 4 30, kokuminno)]) as E
      by (vm_compute; reflexivity).
    rewrite E in Hx. apply list_elem_of_singleton in Hx. discriminate Hx.
  - vm_compute. discriminate.
Defined.

(* ===================================================================== *)
(** * The derived pass and the dictionary it updates                     *)
(* ===================================================================== *)

Section Snapshot.

Lemma store_pairs_spec target (σ : store) live l :
  σ !! target = Some live ->
  store_pairs target l σ = <[target := foldl setitem live l]> σ.
Proof.
  revert σ live. induction l as [|p l IH]; intros σ live Hσ.
  - cbn [store_pairs foldl]. by rewrite insert_id.
  - unfold store_pairs in *. cbn [foldl]. rewrite Hσ.
    rewrite (IH _ (setitem live p)) by apply lookup_insert_eq.
    by rewrite insert_insert_eq.
Qed.

Lemma yielded_gen_for_cons {A B} (a : A) (g : gen A) (body : A -> gen B) :
  yielded (gen_for (Yield a g) body)
  = yielded (body a)
    ++ match ending (body a) with
       | Ok _ => yielded (gen_for g body)
       | _ => []
       end.
Proof. cbn [gen_for]. apply yielded_chain. Qed.

Lemma ending_gen_for_cons {A B} (a : A) (g : gen A) (body : A -> gen B) :
  ending (gen_for (Yield a g) body)
  = match ending (body a) with
    | Ok _ => ending (gen_for g body)
    | o => o
    end.
Proof. cbn [gen_for]. apply ending_chain. Qed.

(** The update, with the generator reading a dictionary [snap] that is
    not the one written, is the update by the pairs of the generator run
    on [snap] alone. *)
Lemma update_kokuminnokyujitsu_spec max_date target source dates :
  target <> source ->
  forall (σ : store) snap live,
  σ !! source = Some snap -> σ !! target = Some live ->
  update_kokuminnokyujitsu max_date target source dates σ
  = let pass := gen_for dates (kokuminnokyujitsu_body max_date snap) in
    match ending pass with
    | Ok _ => Ok (<[target := foldl setitem live (yielded pass)]> σ)
    | Raises e => Raises e
    | Timeout => Timeout
    end.
Proof.
  intros Hne. induction dates as [[[]| |]|d dates IH]; intros σ snap live Hs Ht.
  - cbn. by rewrite insert_id.
  - done.
  - done.
  - cbn [update_kokuminnokyujitsu]. rewrite Hs. cbn zeta.
    rewrite yielded_gen_for_cons, ending_gen_for_cons.
    set (body := kokuminnokyujitsu_body max_date snap d).
    rewrite (store_pairs_spec target σ live) by done.
    destruct (ending body) as [[]| |]; [|done..].
    erewrite IH;
      [|by rewrite lookup_insert_ne|by rewrite lookup_insert_eq].
    cbn zeta.
    destruct (ending (gen_for dates (kokuminnokyujitsu_body max_date snap)))
      as [[]| |]; [|done..].
    by rewrite insert_insert_eq, foldl_app.
Qed.

(** The keys an iteration yields are not keys of the dictionary read. *)
Lemma kokuminnokyujitsu_body_fresh max_date holidays d k v :
  (k, v) ∈ yielded (kokuminnokyujitsu_body max_date holidays d) ->
  holidays !! k = None.
Proof.
  assert (forall k v,
    (k, v) ∈ yielded (sandwich max_date holidays d) ->
    holidays !! k = None) as Hsw.
  { intros k' v'. unfold sandwich.
    destruct (add_days d 2) as [two| |]; cbn [gstart yielded];
      [|by intros ?%elem_of_nil..].
    destruct (mem two holidays); [|by intros ?%elem_of_nil].
    destruct (add_days d 1) as [one| |]; cbn [gstart yielded];
      [|by intros ?%elem_of_nil..].
    destruct (mem one holidays) eqn:E; cbn [negb andb];
      [by intros ?%elem_of_nil|].
    destruct (negb (weekday one =? 6) && (one <=?d max_date));
      [|by intros ?%elem_of_nil].
    intros [= -> ->]%list_elem_of_singleton. by apply mem_false. }
  unfold kokuminnokyujitsu_body.
  repeat match goal with
    | |- context [if ?b then _ else _] =>
        lazymatch b with
        | context [if _ then _ else _] => fail
        | _ => destruct b eqn:?
        end
    | |- context [gstart ?x _] => destruct x eqn:?; cbn [gstart]
    end;
    cbn [yielded];
    try (by intros ?%elem_of_nil); try (by apply Hsw);
    intros [= -> ->]%list_elem_of_singleton.
  all: try (apply mem_false;
            match goal with
            | H : negb (mem _ _) && _ = true |- _ =>
                apply andb_true_iff in H as [H%negb_true_iff _]; exact H
            end).
  all: match goal with
       | H : obind (add_days _ _) _ = Ok _ |- _ =>
           destruct (add_days d 1); cbn [obind] in H; [|done..];
           apply skip_holidays_result in H; by apply mem_false
       end.
Qed.

Lemma kokuminnokyujitsu_fresh self holidays k v :
  (k, v) ∈ yielded (kokuminnokyujitsu self holidays) ->
  holidays !! k = None.
Proof.
  intros (d & _ & H)%elem_of_gen_for_inv.
  by apply kokuminnokyujitsu_body_fresh in H.
Qed.

(** [resolve] is the dictionary of the catalogue updated with the pairs
    of [kokuminnokyujitsu] run on that dictionary. *)
Lemma resolve_spec self :
  resolve self
  = do base <- dict (chain_all (catalogue self));
    dict_update base (kokuminnokyujitsu self base).
Proof.
  unfold resolve. destruct (dict (chain_all (catalogue self))) as [base| |];
    cbn [obind]; [|done..].
  rewrite (update_kokuminnokyujitsu_spec _ _ _ _ ltac:(done) _ base base);
    [|by rewrite lookup_insert_eq
     |by rewrite lookup_insert_ne, lookup_insert_eq].
  cbn zeta. rewrite dict_update_spec. fold (kokuminnokyujitsu self base).
  destruct (ending (kokuminnokyujitsu self base)) as [[]| |]; cbn [obind];
    [|done..].
  by rewrite lookup_insert_eq.
Qed.

End Snapshot.

(** C4. [kokuminnokyujitsu] reads the copy of the dictionary made before
    the pass: whatever the update has written meanwhile, the pairs are
    those of the generator run on the copy, which stays as it was; every
    key the pass yields is absent from the copy, so every entry of the
    dictionary of the catalogue is in the final dictionary unchanged. *)
Theorem derived_pass_reads_snapshot :
  (forall max_date dates target source (σ σ' : store) snap live,
    target <> source ->
    σ !! source = Some snap -> σ !! target = Some live ->
    update_kokuminnokyujitsu max_date target source dates σ = Ok σ' ->
    σ' !! source = Some snap
    /\ σ' !! target
       = Some (foldl setitem live
                 (yielded (gen_for dates
                             (kokuminnokyujitsu_body max_date snap)))))
  /\ (forall self base m,
       dict (chain_all (catalogue self)) = Ok base ->
       resolve self = Ok m ->
       m = foldl setitem base (yielded (kokuminnokyujitsu self base))
       /\ (forall k v, (k, v) ∈ yielded (kokuminnokyujitsu self base) ->
                       base !! k = None)
       /\ (forall k v, base !! k = Some v -> m !! k = Some v)).
Proof.
  split.
  - intros max_date dates target source σ σ' snap live Hne Hs Ht.
    rewrite (update_kokuminnokyujitsu_spec _ _ _ _ Hne σ snap live Hs Ht).
    cbn zeta.
    destruct (ending (gen_for dates (kokuminnokyujitsu_body max_date snap)))
      as [[]| |]; [|done..].
    intros [= <-]. split.
    + by rewrite lookup_insert_ne.
    + by rewrite lookup_insert_eq.
  - intros self base m Hbase Hm. rewrite resolve_spec, Hbase in Hm.
    cbn [obind] in Hm. apply dict_update_Ok in Hm as [_ ->].
    split; [done|]. split.
    + apply kokuminnokyujitsu_fresh.
    + intros k v Hk. rewrite foldl_setitem_lookup_ne; [done|].
      intros ((k' & v') & -> & Hin)%list_elem_of_fmap.
      apply kokuminnokyujitsu_fresh in Hin. simpl in Hk. congruence.
Qed.

(** Had the generator been given the dictionary that is updated, a
    substitute holiday could make the next day a holiday in turn: here a
    holiday on Sunday 2024-02-11 and one on Wednesday 2024-02-14. *)
Definition cascade_dict : hdict :=
  <[mkdate 2024 2 11 := "a"%string]> (<[mkdate 2024 2 14 := "b"%string]> ∅).

Definition cascade_run (target source : loc) : outcome (option string) :=
  let self := __init__ (mkdate 2024 2 1) (mkdate 2024 2 29) in
  let σ : store := <[1%nat := cascade_dict]> (<[0%nat := cascade_dict]> ∅) in
  do σ <- update_kokuminnokyujitsu (max_date self) target source
            (iter_all_dates self) σ;
  match σ !! target with
  | Some d => Ok (d !! mkdate 2024 2 13)
  | None => Raises KeyError
  end.

Lemma aliasing_would_cascade :
  cascade_run 0%nat 1%nat = Ok None
  /\ cascade_run 0%nat 0%nat = Ok (Some kokuminno).
Proof. split; vm_compute; reflexivity. Qed.

(* ===================================================================== *)
(** * Stepping an instant by the tropical year                           *)
(* ===================================================================== *)

(** A well-formed [datetime]: a date and a time of the day. *)
Definition wf_datetime (dt : DateTime.datetime) : Prop :=
  valid (DateTime.dt_date dt)
  /\ 0 <= DateTime.dt_us dt < DateTime.DAY_US.

(** [dt + step], [k] times. *)
Fixpoint stepped (dt : DateTime.datetime) (step : Z) (k : nat)
  : outcome DateTime.datetime :=
  match k with
  | O => Ok dt
  | S k => do dt <- DateTime.add dt step; stepped dt step k
  end.

(** The dates of [dt], [dt + step], ... as long as they are dates, at
    most [n] of them. *)
Fixpoint trajectory (dt : DateTime.datetime) (step : Z) (n : nat)
  : list date :=
  match n with
  | O => []
  | S n =>
      DateTime.date dt
      :: match DateTime.add dt step with
         | Ok dt => trajectory dt step n
         | _ => []
         end
  end.

Section Stepping.
Import DateTime.

Lemma add_Ok dt step dt' :
  wf_datetime dt -> DateTime.add dt step = Ok dt' ->
  wf_datetime dt' /\ instant dt' = instant dt + step.
Proof.
  intros [Hv Hus]. unfold DateTime.add.
  set (t := toordinal (dt_date dt) * DAY_US + dt_us dt + step).
  destruct ((0 <? t / DAY_US) && (t / DAY_US <=? MAXORDINAL)) eqn:E;
    [|discriminate].
  apply andb_true_iff in E. rewrite Z.ltb_lt, Z.leb_le in E.
  intros [= <-]. unfold wf_datetime, instant. cbn [dt_date dt_us].
  rewrite toordinal_fromordinal by lia. split.
  - split; [apply fromordinal_valid; lia|].
    apply Z.mod_pos_bound. unfold DAY_US. lia.
  - fold (instant dt). unfold t, instant, DAY_US. zdiv.
Qed.

Lemma date_instant dt :
  wf_datetime dt -> toordinal (date dt) = instant dt / DAY_US.
Proof. intros [Hv Hus]. unfold instant, date, DAY_US in *. zdiv. Qed.

Lemma wf_date dt : wf_datetime dt -> valid (date dt).
Proof. by intros [? _]. Qed.

(** Towards the past the date does not grow; towards the future it does
    not shrink. *)
Lemma add_date_le dt step dt' :
  wf_datetime dt -> DateTime.add dt step = Ok dt' -> step <= 0 ->
  date dt' <=d date dt.
Proof.
  intros Hwf Hadd Hs. destruct (add_Ok dt step dt' Hwf Hadd) as [Hwf' Ei].
  apply toordinal_le_iff; [by apply wf_date..|].
  rewrite !date_instant, Ei by done. unfold DAY_US. zdiv.
Qed.

Lemma add_date_ge dt step dt' :
  wf_datetime dt -> DateTime.add dt step = Ok dt' -> 0 <= step ->
  date dt <=d date dt'.
Proof.
  intros Hwf Hadd Hs. destruct (add_Ok dt step dt' Hwf Hadd) as [Hwf' Ei].
  apply toordinal_le_iff; [by apply wf_date..|].
  rewrite !date_instant, Ei by done. unfold DAY_US. zdiv.
Qed.

Lemma new_wf y mo d h mi dt :
  DateTime.new y mo d h mi = Ok dt -> wf_datetime dt.
Proof.
  unfold DateTime.new. destruct (Date.new y mo d) as [dd| |] eqn:E;
    cbn [obind]; [|done..].
  apply new_Ok in E as [_ Hv].
  destruct ((0 <=? h) && (h <? 24) && (0 <=? mi) && (mi <? 60)) eqn:B;
    [|discriminate].
  rewrite !andb_true_iff, !Z.leb_le, !Z.ltb_lt in B.
  intros [= <-]. split; [done|]. cbn [dt_us]. unfold minutes, DAY_US. lia.
Qed.

End Stepping.

Section EquinoxLoop.
Implicit Types (go emit : date -> bool) (dt : DateTime.datetime).

(** What the loop yields passed both tests and is on the trajectory. *)
Lemma equinox_loop_yields fuel go emit step h : forall dt d h',
  (d, h') ∈ yielded (equinox_loop fuel go emit step h dt) ->
  go d = true /\ emit d = true /\ h' = h /\ d ∈ trajectory dt step fuel.
Proof.
  induction fuel as [|fuel IH]; intros dt d h'; cbn [equinox_loop yielded];
    [by intros ?%elem_of_nil|].
  cbn [trajectory].
  destruct (go (DateTime.date dt)) eqn:Hgo;
    [|by intros ?%elem_of_nil].
  assert ((d, h') ∈ yielded
            (gstart (DateTime.add dt step) (equinox_loop fuel go emit step h))
          -> go d = true /\ emit d = true /\ h' = h
             /\ d ∈ DateTime.date dt
                    :: match DateTime.add dt step with
                       | Ok dt0 => trajectory dt0 step fuel
                       | _ => []
                       end) as Hrest.
  { destruct (DateTime.add dt step) as [dt'| |]; cbn [gstart yielded];
      [|by intros ?%elem_of_nil..].
    intros (? & ? & ? & ?)%IH. repeat split; try done.
    apply elem_of_cons. by right. }
  destruct (emit (DateTime.date dt)) eqn:Hemit; [|done].
  cbn [yielded]. intros [[= -> ->]|H]%elem_of_cons; [|by apply Hrest].
  repeat split; try done. apply elem_of_cons. by left.
Qed.

Lemma trajectory_le dt step n d :
  wf_datetime dt -> step <= 0 -> d ∈ trajectory dt step n ->
  valid d /\ d <=d DateTime.date dt.
Proof.
  revert dt. induction n as [|n IH]; intros dt Hwf Hs; cbn [trajectory];
    [by intros ?%elem_of_nil|].
  intros [->|H]%elem_of_cons.
  - split; [by apply wf_date|apply le_refl].
  - destruct (DateTime.add dt step) as [dt'| |] eqn:E;
      [|by apply elem_of_nil in H..].
    destruct (add_Ok _ _ _ Hwf E) as [Hwf' _].
    destruct (IH dt' Hwf' Hs H) as [Hv Hle]. split; [done|].
    eapply le_trans; [exact Hle|]. by eapply add_date_le.
Qed.

Lemma trajectory_ge dt step n d :
  wf_datetime dt -> 0 <= step -> d ∈ trajectory dt step n ->
  valid d /\ DateTime.date dt <=d d.
Proof.
  revert dt. induction n as [|n IH]; intros dt Hwf Hs; cbn [trajectory];
    [by intros ?%elem_of_nil|].
  intros [->|H]%elem_of_cons.
  - split; [by apply wf_date|apply le_refl].
  - destruct (DateTime.add dt step) as [dt'| |] eqn:E;
      [|by apply elem_of_nil in H..].
    destruct (add_Ok _ _ _ Hwf E) as [Hwf' _].
    destruct (IH dt' Hwf' Hs H) as [Hv Hle]. split; [done|].
    eapply le_trans; [|exact Hle]. by eapply add_date_ge.
Qed.

(** The loop stops, before its fuel ends, at the first of its instants
    that fails the test, when there is one within the fuel. *)
Lemma equinox_loop_stops go emit step h : forall (k fuel : nat) dt dt',
  (k < fuel)%nat -> stepped dt step k = Ok dt' ->
  go (DateTime.date dt') = false ->
  ending (equinox_loop fuel go emit step h dt) = Ok tt.
Proof.
  induction k as [|k IH]; intros fuel dt dt' Hf Hk Hgo;
    (destruct fuel as [|fuel]; [lia|]); cbn [equinox_loop stepped] in *.
  - injection Hk as ->. by rewrite Hgo.
  - destruct (go (DateTime.date dt)); [|done].
    destruct (DateTime.add dt step) as [dt1| |]; cbn [obind] in Hk;
      [|done..].
    assert (ending (equinox_loop fuel go emit step h dt1) = Ok tt) as E
      by (apply (IH fuel dt1 dt'); [lia|done..]).
    by destruct (emit (DateTime.date dt)); cbn [gstart ending].
Qed.

End EquinoxLoop.

(* ===================================================================== *)
(** * The holidays of the catalogue                                      *)
(* ===================================================================== *)

(** A stream with one date in each year from 1948 to 9999, the one of
    [_iter_dates] or of [_iter_nth_monday]. *)
Definition yearly (it : gen date) (f : Z -> date) : Prop :=
  it = year_gen f 1948 (Z.to_nat 8052)
  /\ forall y, year (f y) = y /\ 1 <= month (f y) <= 12
               /\ 1 <= day (f y) <= 31.

Section Catalogue.
Context (self : t).

(** The dates of the range. *)
Definition in_range (d : date) : Prop :=
  min_date self <=d d /\ d <=d max_date self.

(** The window of the range. *)
Definition range_window (x : date) : bool :=
  within (Some (min_date self)) (Some (max_date self)) x.

Lemma within_spec lo hi x :
  within lo hi x = true <->
  match lo with Some lo => lo <=d x | None => True end
  /\ match hi with Some hi => x <=d hi | None => True end.
Proof.
  unfold within. rewrite andb_true_iff.
  destruct lo, hi; unfold Date.le; intuition.
Qed.

Lemma range_window_spec x : range_window x = true <-> in_range x.
Proof. unfold range_window. by rewrite within_spec. Qed.

Lemma yearly_iter_dates m d :
  1 <= m <= 12 -> 1 <= d <= _DAYS_IN_MONTH m ->
  yearly (_iter_dates m d) (fixed_day m d).
Proof.
  intros Hm Hd. split; [by apply iter_dates_spec|].
  intros y. unfold fixed_day. cbn.
  assert (_DAYS_IN_MONTH m <= 31) by (month_cases m; cbn; lia). lia.
Qed.

Lemma yearly_iter_nth_monday m n :
  1 <= m <= 12 -> 1 <= n <= 4 ->
  yearly (_iter_nth_monday m n) (nth_monday m n).
Proof.
  intros Hm Hn. split; [by apply iter_nth_monday_spec|].
  intros y. unfold nth_monday. cbn.
  pose proof (Z.mod_pos_bound (7 - weekday (mkdate y m 1)) 7 ltac:(lia)).
  lia.
Qed.

Lemma yearly_yielded it f : yearly it f -> yielded it = f <$> all_years.
Proof.
  intros [-> _]. rewrite yielded_year_gen. by rewrite Z2Nat.id.
Qed.

Lemma yearly_sorted_yielded it f :
  yearly it f -> StronglySorted Date.lt (yielded it).
Proof.
  intros H. rewrite (yearly_yielded it f H). apply yearly_sorted.
  intros y. apply H.
Qed.

(** The dates of a yearly stream within the range and within the window
    of an era. *)
Definition era_list (f : Z -> date) (lo hi : option date) : list date :=
  filter (fun x => within lo hi x)
    (filter (fun x => range_window x) (f <$> all_years)).

Lemma yielded_era it f lo hi :
  yearly it f ->
  yielded (_sorted_dates_filter
             (_sorted_dates_filter it (Some (min_date self))
                (Some (max_date self))) lo hi)
  = era_list f lo hi.
Proof.
  intros H. pose proof (yearly_sorted_yielded it f H) as Hs.
  rewrite yielded_sorted_dates_filter
    by (by apply sorted_dates_filter_sorted).
  rewrite yielded_sorted_dates_filter by done.
  by rewrite (yearly_yielded it f H).
Qed.

Lemma elem_of_era_list f lo hi x :
  x ∈ era_list f lo hi <->
  within lo hi x = true /\ in_range x
  /\ exists y, 1948 <= y <= 9999 /\ x = f y.
Proof.
  unfold era_list. rewrite !list_elem_of_filter, list_elem_of_fmap.
  rewrite <- range_window_spec, <- !Is_true_true.
  unfold all_years. setoid_rewrite elem_of_seqZ.
  split.
  - intros (? & ? & y & -> & ?). repeat split; try done. exists y.
    split; [lia|done].
  - intros (? & ? & y & ? & ->). repeat split; try done. exists y.
    split; [done|lia].
Qed.

(** With a range that ends before 9999 and does not start after its
    first day, the clipping of a yearly stream stops. *)
Lemma ending_era it f lo hi :
  yearly it f ->
  min_date self <=d mkdate 9999 1 1 -> year (max_date self) <= 9998 ->
  ending (_sorted_dates_filter
            (_sorted_dates_filter it (Some (min_date self))
               (Some (max_date self))) lo hi) = Ok tt.
Proof.
  intros H Hmin Hmax. apply ending_sorted_dates_filter_Ok.
  destruct (H) as [_ Hf]. destruct (Hf 9999) as (Hy & [Hm _] & [Hd _]).
  apply (ending_sorted_dates_filter_stops _ _ _ (f 9999)).
  - rewrite (yearly_yielded it f H). apply list_elem_of_fmap.
    exists 9999. split; [done|]. apply elem_of_seqZ. lia.
  - apply within_spec. split; [|done].
    eapply le_trans; [exact Hmin|]. apply leb_spec. cbn. lia.
  - apply ltb_spec. lia.
Qed.

Section Named.
Context (h : string).

Lemma yielded_named it : yielded (named h it) = (fun d => (d, h)) <$> yielded it.
Proof. apply yielded_gen_map. Qed.

Lemma ending_named it : ending (named h it) = ending it.
Proof. apply ending_gen_map. Qed.

Lemma elem_of_named it p :
  p ∈ yielded (named h it) <-> p.2 = h /\ p.1 ∈ yielded it.
Proof.
  rewrite yielded_named, list_elem_of_fmap. destruct p as [d h']. simpl.
  split.
  - by intros (x & [= -> ->] & ?).
  - intros [-> ?]. by exists d.
Qed.

Lemma elem_of_named_except_2020 it p :
  p ∈ yielded (named_except_2020 h it) <->
  p.2 = h /\ year p.1 <> 2020 /\ p.1 ∈ yielded it.
Proof.
  unfold named_except_2020.
  rewrite elem_of_named, yielded_gen_filter, list_elem_of_filter.
  rewrite Is_true_true, negb_true_iff, Z.eqb_neq. tauto.
Qed.

Lemma ending_named_except_2020 it :
  ending (named_except_2020 h it) = ending it.
Proof.
  unfold named_except_2020. by rewrite ending_named, ending_gen_filter.
Qed.

Lemma elem_of_yield_if_in_range d p :
  p ∈ yielded (yield_if_in_range self d h) <-> p = (d, h) /\ in_range d.
Proof.
  unfold yield_if_in_range, in_range, Date.le.
  destruct (min_date self <=?d d), (d <=?d max_date self); cbn;
    rewrite ?list_elem_of_singleton, ?elem_of_nil; intuition congruence.
Qed.

Lemma ending_yield_if_in_range d :
  ending (yield_if_in_range self d h) = Ok tt.
Proof. unfold yield_if_in_range. by case_match. Qed.

End Named.

(** Every date a generator yields is in the range. *)
Definition bounded (g : gen (date * string)) : Prop :=
  forall p, p ∈ yielded g -> in_range p.1.

Lemma bounded_chain g1 g2 : bounded g1 -> bounded g2 -> bounded (chain g1 g2).
Proof.
  intros H1 H2 p Hp.
  pose proof (elem_of_prefix _ _ _ Hp (yielded_chain_prefix g1 g2)) as Hp'.
  apply elem_of_app in Hp' as [?|?]; auto.
Qed.

Lemma bounded_era h it f lo hi :
  yearly it f ->
  bounded (named h (_sorted_dates_filter
             (_sorted_dates_filter it (Some (min_date self))
                (Some (max_date self))) lo hi)).
Proof.
  intros H p [_ Hp]%elem_of_named. rewrite (yielded_era it f) in Hp by done.
  by apply elem_of_era_list in Hp as (_ & ? & _).
Qed.

Lemma bounded_era_except_2020 h it f lo hi :
  yearly it f ->
  bounded (named_except_2020 h (_sorted_dates_filter
             (_sorted_dates_filter it (Some (min_date self))
                (Some (max_date self))) lo hi)).
Proof.
  intros H p (_ & _ & Hp)%elem_of_named_except_2020.
  rewrite (yielded_era it f) in Hp by done.
  by apply elem_of_era_list in Hp as (_ & ? & _).
Qed.

Lemma bounded_yield_if_in_range d h : bounded (yield_if_in_range self d h).
Proof. by intros p [-> ?]%elem_of_yield_if_in_range. Qed.

End Catalogue.

(** The instance of the year 2018. *)
Definition j2018 : t := __init__ (mkdate 2018 1 1) (mkdate 2018 12 31).

(** Unfolds a generator of the catalogue into its streams. *)
Ltac unfold_holiday :=
  unfold ganjitsu, seijinnohi, kenkokukinennohi, showanohi, kenpokinenbi,
    midorinohi, kodomonohi, uminohi, yamanohi, keironohi, supotsunohi,
    taikunohi, bunkanohi, kinrokanshanohi, tennotanjobi,
    iter_dates, iter_nth_monday;
  cbv zeta.

(** The stream of a generator is that of [_iter_dates] or of
    [_iter_nth_monday] on the constants of the program. *)
Ltac solve_yearly :=
  lazymatch goal with
  | |- yearly (_iter_dates _ _) _ => apply yearly_iter_dates; cbn; lia
  | |- yearly (_iter_nth_monday _ _) _ => apply yearly_iter_nth_monday; lia
  end.

Section CatalogueRanges.
Context (self : t).

Ltac solve_bounded :=
  unfold_holiday;
  repeat lazymatch goal with
    | |- bounded _ (chain _ _) => apply bounded_chain
    | |- bounded _ (named _ _) => eapply bounded_era; solve_yearly
    | |- bounded _ (named_except_2020 _ _) =>
        eapply bounded_era_except_2020; solve_yearly
    | |- bounded _ (yield_if_in_range _ _ _) =>
        apply bounded_yield_if_in_range
    end.

Lemma bounded_ganjitsu : bounded self (ganjitsu self).
Proof. solve_bounded. Qed.
Lemma bounded_seijinnohi : bounded self (seijinnohi self).
Proof. solve_bounded. Qed.
Lemma bounded_kenkokukinennohi : bounded self (kenkokukinennohi self).
Proof. solve_bounded. Qed.
Lemma bounded_showanohi : bounded self (showanohi self).
Proof. solve_bounded. Qed.
Lemma bounded_kenpokinenbi : bounded self (kenpokinenbi self).
Proof. solve_bounded. Qed.
Lemma bounded_midorinohi : bounded self (midorinohi self).
Proof. solve_bounded. Qed.
Lemma bounded_kodomonohi : bounded self (kodomonohi self).
Proof. solve_bounded. Qed.
Lemma bounded_uminohi : bounded self (uminohi self).
Proof. solve_bounded. Qed.
Lemma bounded_yamanohi : bounded self (yamanohi self).
Proof. solve_bounded. Qed.
Lemma bounded_keironohi : bounded self (keironohi self).
Proof. solve_bounded. Qed.
Lemma bounded_supotsunohi : bounded self (supotsunohi self).
Proof. solve_bounded. Qed.
Lemma bounded_taikunohi : bounded self (taikunohi self).
Proof. solve_bounded. Qed.
Lemma bounded_bunkanohi : bounded self (bunkanohi self).
Proof. solve_bounded. Qed.
Lemma bounded_kinrokanshanohi : bounded self (kinrokanshanohi self).
Proof. solve_bounded. Qed.
Lemma bounded_tennotanjobi : bounded self (tennotanjobi self).
Proof. solve_bounded. Qed.

Lemma bounded_special : bounded self (special self).
Proof.
  intros p. unfold special, _holidays_filter.
  rewrite yielded_gen_filter, list_elem_of_filter.
  rewrite Is_true_true, andb_true_iff. by intros [? _].
Qed.

Lemma bounded_Return o : bounded self (Return o).
Proof. by intros p ?%elem_of_nil. Qed.

Lemma bounded_gstart {A} (x : outcome A) k :
  (forall a, x = Ok a -> bounded self (k a)) -> bounded self (gstart x k).
Proof.
  intros H. destruct x; cbn [gstart]; [by apply H|apply bounded_Return..].
Qed.

Lemma max_ge_r a b : b <=d max_ a b.
Proof.
  unfold max_. destruct (a <?d b) eqn:E; [apply le_refl|].
  by apply ltb_false_iff.
Qed.

Lemma max_ge_l a b : a <=d max_ a b.
Proof.
  unfold max_. destruct (a <?d b) eqn:E; [|apply le_refl].
  by apply lt_le.
Qed.

Lemma delta_pos : 0 < delta.
Proof. reflexivity. Qed.

Lemma bounded_shunbunnohi : bounded self (shunbunnohi self).
Proof.
  unfold shunbunnohi. cbv zeta.
  apply bounded_gstart. intros dt0 _. apply bounded_gstart. intros dt1 _.
  pose proof (max_ge_r DATE_00 (min_date self)) as Hmin.
  apply bounded_chain; [|do 2 (apply bounded_gstart; intros ? _)];
    intros [d h] (Hgo & Hemit & _)%equinox_loop_yields; simpl; split.
  - by apply (le_trans _ _ _ Hmin).
  - by apply lt_le.
  - by apply (le_trans _ _ _ Hmin).
  - by apply lt_le.
Qed.

Lemma bounded_shubunnohi : bounded self (shubunnohi self).
Proof.
  unfold shubunnohi. cbv zeta.
  apply bounded_gstart. intros dt0 Hdt0%new_wf.
  apply bounded_gstart. intros dt1 [Hdt1 _]%add_Ok; [|done].
  pose proof (max_ge_r DATE_00 (min_date self)) as Hmin.
  apply bounded_chain.
  - destruct (DateTime.date dt1 <?d max_date self) eqn:E;
      [|apply bounded_Return].
    intros [d h] (Hgo & _ & _ & Ht)%equinox_loop_yields; simpl.
    apply trajectory_le in Ht as [_ Hle];
      [|done|pose proof delta_pos; lia].
    split; [by apply (le_trans _ _ _ Hmin)|].
    apply lt_le. by apply (le_lt_trans _ _ _ Hle).
  - apply bounded_gstart. intros dt2 [Hdt2 _]%add_Ok; [|done].
    destruct (max_ DATE_00 (min_date self) <=?d DateTime.date dt2) eqn:E;
      [|apply bounded_Return].
    intros [d h] (Hgo & _ & _ & Ht)%equinox_loop_yields; simpl.
    apply trajectory_ge in Ht as [_ Hge];
      [|done|pose proof delta_pos; lia].
    split; [|by apply lt_le].
    apply (le_trans _ _ _ Hmin). by apply (le_trans _ _ _ E).
Qed.

(** Every generator of the catalogue keeps to the range. *)
Lemma bounded_catalogue g : g ∈ catalogue self -> bounded self g.
Proof.
  unfold catalogue. rewrite !elem_of_cons, elem_of_nil.
  intros H; repeat destruct H as [->|H]; try done;
    eauto using bounded_ganjitsu, bounded_seijinnohi,
      bounded_kenkokukinennohi, bounded_shunbunnohi, bounded_showanohi,
      bounded_kenpokinenbi, bounded_midorinohi, bounded_kodomonohi,
      bounded_uminohi, bounded_yamanohi, bounded_keironohi,
      bounded_shubunnohi, bounded_supotsunohi, bounded_taikunohi,
      bounded_bunkanohi, bounded_kinrokanshanohi, bounded_tennotanjobi,
      bounded_special.
Qed.

Lemma bounded_chain_all gs :
  (forall g, g ∈ gs -> bounded self g) -> bounded self (chain_all gs).
Proof.
  induction gs as [|g gs IH]; intros H; cbn [chain_all foldr].
  - apply bounded_Return.
  - apply bounded_chain.
    + apply H, elem_of_cons. by left.
    + apply IH. intros g' Hg'. apply H, elem_of_cons. by right.
Qed.

End CatalogueRanges.

Section DerivedRange.

Lemma skip_holidays_ge holidays : forall fuel start r,
  valid start -> skip_holidays fuel holidays start = Ok r ->
  valid r /\ start <=d r.
Proof.
  induction fuel as [|fuel IH]; intros start r Hs; [done|].
  cbn [skip_holidays]. destruct (mem start holidays).
  - destruct (add_days start 1) as [s'| |] eqn:E; cbn [obind]; [|done..].
    apply add_days_Ok in E as [Hs' Es']; [|done].
    intros [Hr Hle]%IH; [|done]. split; [done|].
    apply toordinal_le_iff in Hle; [|done..].
    apply toordinal_le_iff; [done..|]. lia.
  - intros [= <-]. split; [done|apply le_refl].
Qed.

Lemma sandwich_range max_date holidays d k v :
  valid d -> (k, v) ∈ yielded (sandwich max_date holidays d) ->
  valid k /\ d <d k /\ k <=d max_date.
Proof.
  intros Hd. unfold sandwich.
  destruct (add_days d 2) as [two| |]; cbn [gstart yielded];
    [|by intros ?%elem_of_nil..].
  destruct (mem two holidays); [|by intros ?%elem_of_nil].
  destruct (add_days d 1) as [one| |] eqn:E1; cbn [gstart yielded];
    [|by intros ?%elem_of_nil..].
  destruct (negb (mem one holidays) && negb (weekday one =? 6)
            && (one <=?d max_date)) eqn:G; [|by intros ?%elem_of_nil].
  intros [= -> ->]%list_elem_of_singleton.
  apply andb_true_iff in G as [_ G].
  apply add_days_Ok in E1 as [H1 E1]; [|done].
  repeat split; [done| |done]. apply toordinal_lt_iff; [done..|]. lia.
Qed.

Lemma add_days_1_lt d one :
  valid d -> add_days d 1 = Ok one -> valid one /\ d <d one.
Proof.
  intros Hd [Hv E]%add_days_Ok; [|done]. split; [done|].
  apply toordinal_lt_iff; [done..|]. lia.
Qed.

(** What an iteration yields is after its date and not after
    [max_date]. *)
Lemma kokuminnokyujitsu_body_range max_date holidays d k v :
  valid d ->
  (k, v) ∈ yielded (kokuminnokyujitsu_body max_date holidays d) ->
  valid k /\ d <d k /\ k <=d max_date.
Proof.
  intros Hd.
  pose proof (sandwich_range max_date holidays d k v Hd) as Hsw.
  unfold kokuminnokyujitsu_body.
  repeat match goal with
    | |- context [if ?b then _ else _] =>
        lazymatch b with
        | context [if _ then _ else _] => fail
        | _ => destruct b eqn:?
        end
    | |- context [gstart ?x _] => destruct x eqn:?; cbn [gstart]
    end;
    cbn [yielded];
    try (by intros ?%elem_of_nil); try (by apply Hsw);
    intros [= -> ->]%list_elem_of_singleton.
  all: try match goal with
       | H : negb (mem _ _) && (_ <=?d _) = true |- _ =>
           apply andb_true_iff in H as [_ H]
       end.
  all: try match goal with
       | H : add_days _ 1 = Ok ?one |- valid ?one /\ _ =>
           destruct (add_days_1_lt _ _ Hd H); done
       end.
  all: match goal with
       | H : obind (add_days ?x 1) _ = Ok _ |- _ =>
           destruct (add_days x 1) as [one| |] eqn:E1; cbn [obind] in H;
           [|done..];
           destruct (add_days_1_lt _ _ Hd E1) as [Hv1 Hlt1];
           apply skip_holidays_ge in H as [Hr Hle]; [|done];
           repeat split; [done| |done];
           by apply (lt_le_trans _ _ _ Hlt1)
       end.
Qed.

Lemma bounded_kokuminnokyujitsu self holidays :
  valid (min_date self) -> valid (max_date self) ->
  bounded self (kokuminnokyujitsu self holidays).
Proof.
  intros Hmin Hmax [k v] (d & Hd & Hp)%elem_of_gen_for_inv.
  rewrite yielded_iter_all_dates in Hd by done.
  apply elem_of_days_of in Hd as (Hvd & Hlo & Hhi); [|done..].
  apply kokuminnokyujitsu_body_range in Hp as (_ & Hlt & Hle); [|done].
  split; [|done]. simpl. apply lt_le. by apply (le_lt_trans _ _ _ Hlo).
Qed.

(** The keys of a dictionary built from a generator are dates it
    yielded. *)
Lemma dict_keys pairs (m : hdict) k v :
  dict pairs = Ok m -> m !! k = Some v -> (k, v) ∈ yielded pairs.
Proof.
  unfold dict. intros [_ ->]%dict_update_Ok.
  intros [H|H]%foldl_setitem_lookup_Some; [|done].
  by rewrite lookup_empty in H.
Qed.

(** The keys of the resolved dictionary are in the range. *)
Lemma resolve_in_range self m k v :
  valid (min_date self) -> valid (max_date self) ->
  resolve self = Ok m -> m !! k = Some v -> in_range self k.
Proof.
  intros Hmin Hmax. rewrite resolve_spec.
  destruct (dict (chain_all (catalogue self))) as [base| |] eqn:Eb;
    cbn [obind]; [|done..].
  intros [_ ->]%dict_update_Ok [H|H]%foldl_setitem_lookup_Some.
  - apply (dict_keys _ _ _ _ Eb) in H.
    by apply (bounded_chain_all self _ (bounded_catalogue self)) in H.
  - by apply (bounded_kokuminnokyujitsu self base Hmin Hmax) in H.
Qed.

End DerivedRange.

(** C7. Every key of the resolved dictionary is a date of the range, with
    one name; every generator of the catalogue, and the generator of the
    derived holidays on any dictionary, yields dates of the range only. *)
Theorem keys_in_range :
  forall self,
  valid (min_date self) -> valid (max_date self) ->
  (forall g p, g ∈ catalogue self -> p ∈ yielded g ->
               min_date self <=d p.1 /\ p.1 <=d max_date self)
  /\ (forall holidays p, p ∈ yielded (kokuminnokyujitsu self holidays) ->
                         min_date self <=d p.1 /\ p.1 <=d max_date self)
  /\ (forall m k v, resolve self = Ok m -> m !! k = Some v ->
                    min_date self <=d k /\ k <=d max_date self
                    /\ forall v', m !! k = Some v' -> v' = v).
Proof.
  intros self Hmin Hmax. split; [|split].
  - intros g p Hg Hp. by apply (bounded_catalogue self g Hg).
  - intros holidays p Hp.
    by apply (bounded_kokuminnokyujitsu self holidays Hmin Hmax).
  - intros m k v Hm Hk.
    destruct (resolve_in_range self m k v Hmin Hmax Hm Hk) as [H1 H2].
    repeat split; [done..|]. intros v' Hk'. congruence.
Qed.

Lemma keys_in_range_witness :
  (mkdate 2018 1 1, "元日"%string) ∈ yielded (ganjitsu j2018)
  /\ min_date j2018 <=d mkdate 2018 1 1
  /\ mkdate 2018 1 1 <=d max_date j2018.
Proof.
  assert ((mkdate 2018 1 1, "元日"%string) ∈ yielded (ganjitsu j2018)) as Hp.
  { apply (bool_decide_unpack _). vm_compute. exact I. }
  split; [exact Hp|].
  apply (proj1 (keys_in_range j2018 eq_refl eq_refl)
           (ganjitsu j2018) (mkdate 2018 1 1, "元日"%string));
    [|exact Hp].
  apply elem_of_cons. by left.
Defined.

(* ===================================================================== *)
(** * Running to the end                                                 *)
(* ===================================================================== *)

(** The instants of the two equinox generators: 71 steps back from the
    anchor lead before 1948-07-23, and 7980 steps forward from the year
    after the anchor lead into the year 9999. *)
Lemma obind_Ok {A B} (x : outcome A) (f : A -> outcome B) b :
  obind x f = Ok b -> exists a, x = Ok a /\ f a = Ok b.
Proof. destruct x as [a| |]; cbn [obind]; [|done..]. by exists a. Qed.

Lemma vernal_back_fact :
  (do a <- DateTime.new 2018 3 21 1 15;
   do a <- DateTime.add a (- DateTime.minutes 8);
   do x <- stepped a (- delta) (Z.to_nat 71);
   Ok (DateTime.date x <?d DATE_00)) = Ok true.
Proof. vm_compute. reflexivity. Qed.

Lemma vernal_forward_fact :
  (do a <- DateTime.new 2018 3 21 1 15;
   do a <- DateTime.add a (- DateTime.minutes 8);
   do a <- DateTime.add a (DateTime.minutes (8 + 4));
   do a <- DateTime.add a delta;
   do x <- stepped a delta (Z.to_nat 7980);
   Ok (9999 <=? year (DateTime.date x))) = Ok true.
Proof. vm_compute. reflexivity. Qed.

Lemma autumnal_back_fact :
  (do a <- DateTime.new 2018 9 23 10 54;
   do a <- DateTime.add a (- DateTime.minutes 2);
   do x <- stepped a (- delta) (Z.to_nat 71);
   Ok (DateTime.date x <?d DATE_00)) = Ok true.
Proof. vm_compute. reflexivity. Qed.

Lemma autumnal_forward_fact :
  (do a <- DateTime.new 2018 9 23 10 54;
   do a <- DateTime.add a (- DateTime.minutes 2);
   do a <- DateTime.add a delta;
   do x <- stepped a delta (Z.to_nat 7980);
   Ok (9999 <=? year (DateTime.date x))) = Ok true.
Proof. vm_compute. reflexivity. Qed.

Section Endings.
Context (self : t).
Hypothesis Hmin : min_date self <=d mkdate 9999 1 1.
Hypothesis Hmax : year (max_date self) <= 9998.

Ltac solve_ending :=
  unfold_holiday;
  repeat lazymatch goal with
    | |- ending (chain _ _) = Ok tt => apply ending_chain_Ok; split
    | |- ending (named _ _) = Ok tt =>
        rewrite ending_named; eapply ending_era; [solve_yearly|done..]
    | |- ending (named_except_2020 _ _) = Ok tt =>
        rewrite ending_named_except_2020;
        eapply ending_era; [solve_yearly|done..]
    | |- ending (yield_if_in_range _ _ _) = Ok tt =>
        apply ending_yield_if_in_range
    end.

Lemma ending_ganjitsu : ending (ganjitsu self) = Ok tt.
Proof using Hmin Hmax. solve_ending. Qed.
Lemma ending_seijinnohi : ending (seijinnohi self) = Ok tt.
Proof using Hmin Hmax. solve_ending. Qed.
Lemma ending_kenkokukinennohi : ending (kenkokukinennohi self) = Ok tt.
Proof using Hmin Hmax. solve_ending. Qed.
Lemma ending_showanohi : ending (showanohi self) = Ok tt.
Proof using Hmin Hmax. solve_ending. Qed.
Lemma ending_kenpokinenbi : ending (kenpokinenbi self) = Ok tt.
Proof using Hmin Hmax. solve_ending. Qed.
Lemma ending_midorinohi : ending (midorinohi self) = Ok tt.
Proof using Hmin Hmax. solve_ending. Qed.
Lemma ending_kodomonohi : ending (kodomonohi self) = Ok tt.
Proof using Hmin Hmax. solve_ending. Qed.
Lemma ending_uminohi : ending (uminohi self) = Ok tt.
Proof using Hmin Hmax. solve_ending. Qed.
Lemma ending_yamanohi : ending (yamanohi self) = Ok tt.
Proof using Hmin Hmax. solve_ending. Qed.
Lemma ending_keironohi : ending (keironohi self) = Ok tt.
Proof using Hmin Hmax. solve_ending. Qed.
Lemma ending_supotsunohi : ending (supotsunohi self) = Ok tt.
Proof using Hmin Hmax. solve_ending. Qed.
Lemma ending_taikunohi : ending (taikunohi self) = Ok tt.
Proof using Hmin Hmax. solve_ending. Qed.
Lemma ending_bunkanohi : ending (bunkanohi self) = Ok tt.
Proof using Hmin Hmax. solve_ending. Qed.
Lemma ending_kinrokanshanohi : ending (kinrokanshanohi self) = Ok tt.
Proof using Hmin Hmax. solve_ending. Qed.
Lemma ending_tennotanjobi : ending (tennotanjobi self) = Ok tt.
Proof using Hmin Hmax. solve_ending. Qed.

Lemma ending_special : ending (special self) = Ok tt.
Proof. unfold special, _holidays_filter. by rewrite ending_gen_filter. Qed.

Lemma years_lt_fuel : (Z.to_nat 71 < YEARS)%nat /\ (Z.to_nat 7980 < YEARS)%nat.
Proof. unfold YEARS. lia. Qed.

(** The backward loops stop before 1948-07-23. *)
Lemma back_stops emit h a x :
  stepped a (- delta) (Z.to_nat 71) = Ok x ->
  (DateTime.date x <?d DATE_00) = true ->
  ending (equinox_loop YEARS
            (fun d => max_ DATE_00 (min_date self) <=?d d) emit
            (- delta) h a) = Ok tt.
Proof.
  intros Hs Hx.
  apply (equinox_loop_stops _ _ _ _ (Z.to_nat 71) _ _ x);
    [apply years_lt_fuel|done|].
  apply leb_false_iff.
  apply (lt_le_trans _ DATE_00); [done|apply max_ge_l].
Qed.

(** The forward loops stop in the year 9999 at the latest. *)
Lemma forward_stops emit h a x :
  stepped a delta (Z.to_nat 7980) = Ok x ->
  (9999 <=? year (DateTime.date x)) = true ->
  ending (equinox_loop YEARS (fun d => d <?d max_date self) emit
            delta h a) = Ok tt.
Proof using Hmax.
  intros Hs Hx%Z.leb_le.
  apply (equinox_loop_stops _ _ _ _ (Z.to_nat 7980) _ _ x);
    [apply years_lt_fuel|done|].
  apply ltb_false_iff, leb_spec. lia.
Qed.

Lemma ending_shunbunnohi : ending (shunbunnohi self) = Ok tt.
Proof using Hmax.
  pose proof vernal_back_fact as B. pose proof vernal_forward_fact as F.
  apply obind_Ok in B as (a0 & E0 & B). apply obind_Ok in B as (a1 & E1 & B).
  apply obind_Ok in B as (x & Ex & [= B]).
  apply obind_Ok in F as (a0' & E0' & F). rewrite E0 in E0'.
  injection E0' as <-.
  apply obind_Ok in F as (a1' & E1' & F). rewrite E1 in E1'.
  injection E1' as <-.
  apply obind_Ok in F as (a2 & E2 & F). apply obind_Ok in F as (a3 & E3 & F).
  apply obind_Ok in F as (x' & Ex' & [= F]).
  unfold shunbunnohi. cbv zeta. rewrite E0. cbn [gstart]. rewrite E1.
  cbn [gstart]. apply ending_chain_Ok. split.
  - by apply (back_stops _ _ _ x).
  - rewrite E2. cbn [gstart]. rewrite E3. cbn [gstart].
    by apply (forward_stops _ _ _ x').
Qed.

Lemma ending_shubunnohi : ending (shubunnohi self) = Ok tt.
Proof using Hmax.
  pose proof autumnal_back_fact as B. pose proof autumnal_forward_fact as F.
  apply obind_Ok in B as (a0 & E0 & B). apply obind_Ok in B as (a1 & E1 & B).
  apply obind_Ok in B as (x & Ex & [= B]).
  apply obind_Ok in F as (a0' & E0' & F). rewrite E0 in E0'.
  injection E0' as <-.
  apply obind_Ok in F as (a1' & E1' & F). rewrite E1 in E1'.
  injection E1' as <-.
  apply obind_Ok in F as (a2 & E2 & F).
  apply obind_Ok in F as (x' & Ex' & [= F]).
  unfold shubunnohi. cbv zeta. rewrite E0. cbn [gstart]. rewrite E1.
  cbn [gstart]. apply ending_chain_Ok. split.
  - destruct (DateTime.date a1 <?d max_date self); [|done].
    by apply (back_stops _ _ _ x).
  - rewrite E2. cbn [gstart].
    destruct (max_ DATE_00 (min_date self) <=?d DateTime.date a2); [|done].
    by apply (forward_stops _ _ _ x').
Qed.

(** Every generator of the catalogue runs to its end. *)
Lemma ending_catalogue g : g ∈ catalogue self -> ending g = Ok tt.
Proof using Hmin Hmax.
  unfold catalogue. rewrite !elem_of_cons, elem_of_nil.
  intros H; repeat destruct H as [->|H]; try done;
    eauto using ending_ganjitsu, ending_seijinnohi,
      ending_kenkokukinennohi, ending_shunbunnohi, ending_showanohi,
      ending_kenpokinenbi, ending_midorinohi, ending_kodomonohi,
      ending_uminohi, ending_yamanohi, ending_keironohi,
      ending_shubunnohi, ending_supotsunohi, ending_taikunohi,
      ending_bunkanohi, ending_kinrokanshanohi, ending_tennotanjobi,
      ending_special.
Qed.

End Endings.

Section Totality.

Lemma toordinal_9999 : toordinal (mkdate 9999 1 1) = MAXORDINAL - 364.
Proof. reflexivity. Qed.

Lemma before_9999 x :
  valid x -> year x <= 9998 -> toordinal x + 365 <= MAXORDINAL.
Proof.
  intros Hx Hy.
  assert (x <d mkdate 9999 1 1) as H by (apply ltb_spec; cbn; lia).
  apply toordinal_lt_iff in H; [|done..]. rewrite toordinal_9999 in H. lia.
Qed.

Lemma chain_all_ending (gs : list (gen (date * string))) :
  (forall g, g ∈ gs -> ending g = Ok tt) -> ending (chain_all gs) = Ok tt.
Proof.
  induction gs as [|g gs IH]; intros H; cbn [chain_all foldr]; [done|].
  apply ending_chain_Ok. split.
  - apply H, elem_of_cons. by left.
  - apply IH. intros g' Hg'. apply H, elem_of_cons. by right.
Qed.

Lemma chain_all_ending_inv (gs : list (gen (date * string))) g :
  ending (chain_all gs) = Ok tt -> g ∈ gs -> ending g = Ok tt.
Proof.
  induction gs as [|g' gs IH]; cbn [chain_all foldr];
    [by intros _ ?%elem_of_nil|].
  intros [H1 H2]%ending_chain_Ok [->|Hg]%elem_of_cons; auto.
Qed.

(** The pass over the days runs to its end when the range ends before
    9999 and no key of the dictionary is after the range. *)
Lemma ending_kokuminnokyujitsu self holidays :
  valid (min_date self) -> valid (max_date self) ->
  year (max_date self) <= 9998 ->
  (forall k, is_Some (holidays !! k) -> k <=d max_date self) ->
  ending (kokuminnokyujitsu self holidays) = Ok tt.
Proof.
  intros Hmin Hmax Hy Hkeys. pose proof (before_9999 _ Hmax Hy) as Hord.
  pose proof (toordinal_bounds _ Hmax) as Bm.
  apply ending_gen_for_Ok.
  - rewrite ending_iter_all_dates by done.
    replace (toordinal (max_date self) =? MAXORDINAL) with false
      by (symmetry; apply Z.eqb_neq; lia).
    by rewrite andb_false_r.
  - intros d Hd. rewrite yielded_iter_all_dates in Hd by done.
    apply elem_of_days_of in Hd as (Hvd & _ & Hhi); [|done..].
    apply toordinal_le_iff in Hhi as Hhi'; [|done..].
    set (t := fromordinal (toordinal (max_date self) + 1)).
    assert (valid t) as Ht by (apply fromordinal_valid; lia).
    assert (toordinal t = toordinal (max_date self) + 1) as Et
      by (apply toordinal_fromordinal; lia).
    apply (kokuminnokyujitsu_body_ending _ _ _ t); [done|lia|done|..].
    + apply toordinal_lt_iff; [done..|]. lia.
    + apply mem_false. destruct (holidays !! t) eqn:E; [|done].
      assert (t <=d max_date self) as Hle by (apply Hkeys; by eexists).
      apply toordinal_le_iff in Hle; [|done..]. lia.
Qed.

(** The dictionary is computed for every range that ends before 9999 and
    starts on 9999-01-01 at the latest. *)
Lemma resolve_total self :
  valid (min_date self) -> valid (max_date self) ->
  min_date self <=d mkdate 9999 1 1 -> year (max_date self) <= 9998 ->
  exists m, resolve self = Ok m.
Proof.
  intros Hmin Hmax Hlo Hhi. rewrite resolve_spec. unfold dict.
  rewrite dict_update_spec.
  rewrite chain_all_ending by (intros g; by apply ending_catalogue).
  cbn [obind]. rewrite dict_update_spec.
  rewrite ending_kokuminnokyujitsu; [by eexists|done..|].
  intros k [v [Hk|Hk]%foldl_setitem_lookup_Some]; [by rewrite lookup_empty in Hk|].
  by apply (bounded_chain_all self _ (bounded_catalogue self)) in Hk as [_ ?].
Qed.

End Totality.

(** The snapshot property at the 2018 dictionary: National Foundation Day,
    an entry of the base catalogue, is still there after the derived pass. *)
Lemma derived_pass_reads_snapshot_witness :
  base_2018 !! mkdate 2018 2 11 = Some "建国記念の日"%string
  /\ exists m,
       resolve (__init__ (mkdate 2018 1 1) (mkdate 2018 12 31)) = Ok m
       /\ m !! mkdate 2018 2 11 = Some "建国記念の日"%string.
Proof.
  assert (base_2018 !! mkdate 2018 2 11 = Some "建国記念の日"%string) as Hk
    by (vm_compute; reflexivity).
  split; [exact Hk|].
  destruct (resolve_total (__init__ (mkdate 2018 1 1) (mkdate 2018 12 31)))
    as [m Hm]; [reflexivity|reflexivity|reflexivity|cbn; lia|].
  exists m. split; [exact Hm|].
  assert (dict (chain_all (catalogue
                  (__init__ (mkdate 2018 1 1) (mkdate 2018 12 31))))
          = Ok base_2018) as Hbase.
  { unfold base_2018. rewrite resolve_spec in Hm.
    destruct (dict (chain_all (catalogue
                (__init__ (mkdate 2018 1 1) (mkdate 2018 12 31)))));
      [reflexivity|discriminate Hm..]. }
  exact (proj2 (proj2 (proj2 derived_pass_reads_snapshot _ _ _ Hbase Hm))
           _ _ Hk).
Defined.

(* ===================================================================== *)
(** * Ranges that start after 9999-01-01                                 *)
(* ===================================================================== *)

Section PastTheLastYear.
Context (self : t).

Lemma dropwhile_all {A} (p : A -> bool) (g : gen A) :
  Forall (fun a => p a = true) (yielded g) ->
  dropwhile p g = Return (ending g).
Proof.
  induction g as [o|a g IH]; cbn [yielded ending dropwhile]; [done|].
  intros [Ha Hg]%Forall_cons. rewrite Ha. by apply IH.
Qed.

(** New Year's Day is the first generator of the catalogue: when the
    range starts after 9999-01-01 every date of its stream is dropped,
    and the year 10000 raises [ValueError]. *)
Lemma ganjitsu_raises :
  mkdate 9999 1 1 <d min_date self ->
  ganjitsu self = Return (Raises ValueError).
Proof.
  intros Hmin. unfold ganjitsu, iter_dates. cbv zeta.
  destruct (yearly_iter_dates 1 1 ltac:(lia) ltac:(cbn; lia)) as [E Hf].
  unfold _sorted_dates_filter at 2.
  rewrite dropwhile_all.
  - rewrite E, ending_year_gen. reflexivity.
  - rewrite (yearly_yielded _ _ (conj E Hf)).
    apply Forall_fmap, Forall_forall. intros y Hy.
    apply elem_of_seqZ in Hy. cbn. unfold gt.
    apply ltb_true_iff. apply (le_lt_trans _ (mkdate 9999 1 1)); [|done].
    apply leb_spec. unfold fixed_day. cbn. lia.
Qed.

Lemma resolve_raises_after_9999 :
  mkdate 9999 1 1 <d min_date self -> resolve self = Raises ValueError.
Proof.
  intros Hmin. rewrite resolve_spec. unfold dict, catalogue, chain_all.
  cbn [foldr]. rewrite (ganjitsu_raises Hmin). reflexivity.
Qed.

End PastTheLastYear.


(** The instance with the range turned round at the end of the calendar. *)
Definition j_reversed_9999 : t :=
  __init__ (mkdate 9999 12 31) (mkdate 2000 1 1).

(** C10, as amended. For a range that ends before the year 9999 and does
    not start after 9999-01-01 (so for every such range with
    [min_date <= max_date]) the dictionary is computed: every generator
    of the catalogue stops, the equinox loops among them, the pass over
    the days stops, and no loop exhausts its fuel. *)
Theorem resolve_terminates :
  forall self,
  valid (min_date self) -> valid (max_date self) ->
  year (max_date self) <= 9998 -> min_date self <=d mkdate 9999 1 1 ->
  (forall g, g ∈ catalogue self -> ending g = Ok tt)
  /\ (forall base, dict (chain_all (catalogue self)) = Ok base ->
                   ending (kokuminnokyujitsu self base) = Ok tt)
  /\ exists m, resolve self = Ok m.
Proof.
  intros self Hmin Hmax Hhi Hlo. split; [|split].
  - intros g. by apply ending_catalogue.
  - intros base Hbase. apply ending_kokuminnokyujitsu; [done..|].
    intros k [v Hk]. apply (dict_keys _ _ _ _ Hbase) in Hk.
    by apply (bounded_chain_all self _ (bounded_catalogue self)) in Hk
      as [_ ?].
  - by apply resolve_total.
Qed.

Lemma resolve_terminates_witness : exists m, resolve j2018 = Ok m.
Proof.
  apply (resolve_terminates j2018); [reflexivity|reflexivity| |reflexivity].
  cbn. lia.
Defined.

(** C10 as stated fails: with [max_date] in the year 2000 and [min_date]
    on 9999-12-31 the stream of [ganjitsu] is dropped to its end and the
    year 10000 raises [ValueError]. *)
Lemma resolve_raises_reversed_9999 :
  valid (min_date j_reversed_9999) /\ valid (max_date j_reversed_9999)
  /\ year (max_date j_reversed_9999) <= 9998
  /\ resolve j_reversed_9999 = Raises ValueError
  /\ ending (ganjitsu j_reversed_9999) = Raises ValueError.
Proof.
  split; [reflexivity|]. split; [reflexivity|]. split; [cbn; lia|].
  split; vm_compute; reflexivity.
Qed.

(** The instance after its first use: the empty dictionary is cached. *)
Definition cached_empty (min_date max_date : date) : t :=
  mk min_date max_date (Some ∅).

Section EmptyRange.

Lemma resolve_reversed min_date max_date :
  valid min_date -> valid max_date ->
  max_date <d min_date -> min_date <=d mkdate 9999 1 1 ->
  resolve (__init__ min_date max_date) = Ok ∅.
Proof.
  intros Hmin Hmax Hrev Hlo. set (self := __init__ min_date max_date).
  assert (year max_date <= 9998) as Hy.
  { apply valid_spec in Hmax. apply ltb_spec in Hrev.
    apply leb_spec in Hlo. cbn in Hlo. lia. }
  destruct (resolve_total self Hmin Hmax Hlo Hy) as [m Hm].
  rewrite Hm. f_equal. apply map_empty. intros k.
  destruct (m !! k) as [v|] eqn:Hk; [|done].
  destruct (resolve_in_range self m k v Hmin Hmax Hm Hk) as [H1 H2].
  exfalso. apply (lt_irrefl k).
  apply (le_lt_trans _ _ _ H2). by apply (lt_le_trans _ _ _ Hrev).
Qed.

End EmptyRange.

(** C9, as amended. For dates with [max_date < min_date] and [min_date]
    not after 9999-01-01, the instance is made and its dictionary is
    computed without an exception and is empty: no date is a member,
    [get] finds nothing and indexing signals [KeyError], the iteration is
    empty and the length is 0. *)
Theorem reversed_range_is_empty :
  forall min_date max_date,
  valid min_date -> valid max_date ->
  max_date <d min_date -> min_date <=d mkdate 9999 1 1 ->
  let self := __init__ min_date max_date in
  let self' := cached_empty min_date max_date in
  resolve self = Ok ∅
  /\ (forall key, __contains__ self key = Ok (false, self'))
  /\ (forall key, get self key = Ok (None, self'))
  /\ (forall key, __getitem__ self key = Raises KeyError)
  /\ __iter__ self = Ok ([], self')
  /\ __len__ self = Ok (0%nat, self').
Proof.
  intros min_date max_date Hmin Hmax Hrev Hlo self self'.
  pose proof (resolve_reversed min_date max_date Hmin Hmax Hrev Hlo) as R.
  fold self in R.
  assert (_holidays self = Ok (∅, self')) as H.
  { unfold _holidays. cbn [_holidays_dict self __init__]. by rewrite R. }
  split; [done|].
  unfold __contains__, get, __getitem__, __iter__, __len__. rewrite H.
  cbn [obind fst snd]. rewrite map_to_list_empty.
  repeat split; intros; by rewrite ?lookup_empty.
Qed.

Lemma reversed_range_is_empty_witness :
  resolve (__init__ (mkdate 2018 1 8) (mkdate 2018 1 1)) = Ok ∅.
Proof.
  apply (reversed_range_is_empty (mkdate 2018 1 8) (mkdate 2018 1 1));
    reflexivity.
Defined.

(** C9 as stated fails: for 2000-01-01 < 9999-12-31 the first lookup
    raises [ValueError]. *)
Lemma reversed_range_raises :
  mkdate 2000 1 1 <d mkdate 9999 12 31
  /\ get (__init__ (mkdate 9999 12 31) (mkdate 2000 1 1)) (mkdate 2000 1 1)
     = Raises ValueError
  /\ __len__ (__init__ (mkdate 9999 12 31) (mkdate 2000 1 1))
     = Raises ValueError.
Proof. split; [reflexivity|]. split; vm_compute; reflexivity. Qed.

(* ===================================================================== *)
(** * The pairs of an era                                                *)
(* ===================================================================== *)

Section Pairs.
Context (self : t).

Lemma elem_of_yielded_chain {A} (g1 g2 : gen A) x :
  x ∈ yielded (chain g1 g2) -> x ∈ yielded g1 \/ x ∈ yielded g2.
Proof.
  intros H.
  apply elem_of_app, (elem_of_prefix _ _ _ H), yielded_chain_prefix.
Qed.

Lemma elem_of_yielded_era h it f lo hi p :
  yearly it f ->
  p ∈ yielded (named h (_sorted_dates_filter
                 (_sorted_dates_filter it (Some (min_date self))
                    (Some (max_date self))) lo hi)) <->
  p.2 = h
  /\ exists y, 1948 <= y <= 9999 /\ p.1 = f y
               /\ within lo hi (f y) = true /\ in_range self (f y).
Proof.
  intros H. rewrite elem_of_named, (yielded_era self it f) by done.
  rewrite elem_of_era_list. destruct p as [d h']. cbn [fst snd]. split.
  - intros (? & ? & ? & y & ? & E). split; [done|]. exists y.
    by rewrite <- E.
  - intros (? & y & ? & -> & ? & ?).
    split; [done|]. split; [done|]. split; [done|]. by exists y.
Qed.

Lemma elem_of_yielded_era_except_2020 h it f lo hi p :
  yearly it f ->
  p ∈ yielded (named_except_2020 h (_sorted_dates_filter
                 (_sorted_dates_filter it (Some (min_date self))
                    (Some (max_date self))) lo hi)) <->
  p.2 = h /\ year p.1 <> 2020
  /\ exists y, 1948 <= y <= 9999 /\ p.1 = f y
               /\ within lo hi (f y) = true /\ in_range self (f y).
Proof.
  intros H. rewrite elem_of_named_except_2020.
  rewrite (yielded_era self it f) by done.
  rewrite elem_of_era_list. destruct p as [d h']. cbn [fst snd]. split.
  - intros (? & ? & ? & ? & y & ? & E). split; [done|]. split; [done|].
    exists y. by rewrite <- E.
  - intros (? & ? & y & ? & -> & ? & ?).
    split; [done|]. split; [done|]. split; [done|]. split; [done|].
    by exists y.
Qed.

End Pairs.

(** Turns the membership of a pair in what a generator of the catalogue
    yields into the date of a year in the window of an era. *)
Ltac pairs_facts :=
  repeat match goal with
    | H : _ ∈ yielded (chain _ _) |- _ =>
        apply elem_of_yielded_chain in H; destruct H as [H|H]
    | H : _ ∈ yielded (named _ _) |- _ =>
        eapply elem_of_yielded_era in H; [|solve_yearly];
        destruct H as (? & ? & ? & ? & ? & ?)
    | H : _ ∈ yielded (named_except_2020 _ _) |- _ =>
        eapply elem_of_yielded_era_except_2020 in H; [|solve_yearly];
        destruct H as (? & ? & ? & ? & ? & ? & ?)
    | H : _ ∈ yielded (yield_if_in_range _ _ _) |- _ =>
        apply elem_of_yield_if_in_range in H; destruct H as [? ?]
    end.

(* ===================================================================== *)
(** * One date a year                                                    *)
(* ===================================================================== *)

(** The years of the dates a generator yields. *)
Definition years_of (g : gen (date * string)) : list Z :=
  (fun p => year p.1) <$> yielded g.

(** The whole year [y] is in the range. *)
Definition year_covered (self : t) (y : Z) : Prop :=
  min_date self <=d mkdate y 1 1 /\ mkdate y 12 31 <=d max_date self.


(** Brings the window of an era on a date of the year [y] down to
    arithmetic on [y]. *)
Ltac window_arith :=
  repeat match goal with
    | H : within _ _ _ = true |- _ => apply within_spec in H; destruct H
    | |- within _ _ _ = true => apply within_spec; split
    end;
  unfold fixed_day, nth_monday in *;
  repeat match goal with
    | H : context [(7 - weekday ?d) mod 7] |- _ =>
        let r := fresh "r" in
        pose proof (Z.mod_pos_bound (7 - weekday d) 7 ltac:(lia));
        set (r := (7 - weekday d) mod 7) in *; clearbody r
    | |- context [(7 - weekday ?d) mod 7] =>
        let r := fresh "r" in
        pose proof (Z.mod_pos_bound (7 - weekday d) 7 ltac:(lia));
        set (r := (7 - weekday d) mod 7) in *; clearbody r
    end;
  repeat match goal with
    | H : _ <=d _ |- _ => apply leb_spec in H
    | |- _ <=d _ => apply leb_spec
    end;
  cbn [year month day DATE_00 DATE_01 DATE_04 DATE_05 DATE_06 DATE_07
       DATE_08 DATE_09 DATE_HM DATE_TT DATE_KE] in *;
  try done; try lia.

Section Years.
Context (self : t).

Lemma year_covered_in_range x :
  year_covered self (year x) -> 1 <= month x <= 12 -> 1 <= day x <= 31 ->
  in_range self x.
Proof.
  intros [H1 H2] Hm Hd. split.
  - eapply le_trans; [exact H1|]. apply leb_spec. cbn. lia.
  - eapply le_trans; [|exact H2]. apply leb_spec. cbn. lia.
Qed.

Lemma years_of_chain_prefix g1 g2 :
  years_of (chain g1 g2) `prefix_of` years_of g1 ++ years_of g2.
Proof.
  unfold years_of. rewrite <- fmap_app.
  destruct (yielded_chain_prefix g1 g2) as [k ->].
  rewrite fmap_app. by eexists.
Qed.


Lemma NoDup_prefix {A} (l k : list A) : l `prefix_of` k -> NoDup k -> NoDup l.
Proof. intros [k' ->] H. by apply NoDup_app in H as (? & _). Qed.

(** Two generators with no year in common, each with distinct years. *)
Lemma years_chain_NoDup g1 g2 :
  NoDup (years_of g1) -> NoDup (years_of g2) ->
  (forall y, y ∈ years_of g1 -> y ∈ years_of g2 -> False) ->
  NoDup (years_of (chain g1 g2)).
Proof.
  intros H1 H2 Hd. apply (NoDup_prefix _ _ (years_of_chain_prefix g1 g2)).
  apply NoDup_app. repeat split; [done| |done].
  intros y Hy1 Hy2. by apply (Hd y).
Qed.

Lemma years_of_era_list f lo hi :
  (forall y, year (f y) = y) ->
  year <$> era_list self f lo hi `sublist_of` all_years.
Proof.
  intros Hf. unfold era_list.
  transitivity (year <$> (f <$> all_years)).
  - apply fmap_sublist. etransitivity; apply sublist_filter.
  - rewrite <- list_fmap_compose.
    rewrite (list_fmap_ext _ id); [by rewrite list_fmap_id|].
    intros i y _. apply Hf.
Qed.

Lemma years_of_named h it : years_of (named h it) = year <$> yielded it.
Proof.
  unfold years_of. rewrite yielded_named, <- list_fmap_compose.
  by apply list_fmap_ext.
Qed.

Lemma years_of_era h it f lo hi :
  yearly it f ->
  years_of (named h (_sorted_dates_filter
                       (_sorted_dates_filter it (Some (min_date self))
                          (Some (max_date self))) lo hi))
  = year <$> era_list self f lo hi.
Proof. intros H. by rewrite years_of_named, (yielded_era self it f). Qed.

Lemma years_of_era_NoDup h it f lo hi :
  yearly it f ->
  NoDup (years_of (named h (_sorted_dates_filter
                       (_sorted_dates_filter it (Some (min_date self))
                          (Some (max_date self))) lo hi))).
Proof.
  intros H. rewrite (years_of_era h it f) by done.
  eapply sublist_NoDup; [apply NoDup_seqZ|].
  apply years_of_era_list. intros y. apply H.
Qed.

Lemma elem_of_years_of_era h it f lo hi y :
  yearly it f ->
  y ∈ years_of (named h (_sorted_dates_filter
                       (_sorted_dates_filter it (Some (min_date self))
                          (Some (max_date self))) lo hi)) <->
  1948 <= y <= 9999 /\ within lo hi (f y) = true /\ in_range self (f y).
Proof.
  intros H. rewrite (years_of_era h it f) by done.
  rewrite list_elem_of_fmap. setoid_rewrite elem_of_era_list.
  destruct H as [_ Hf]. split.
  - intros (x & -> & Hw & Hr & y' & Hy' & ->).
    destruct (Hf y') as [-> _]. done.
  - intros (Hy & Hw & Hr). exists (f y). destruct (Hf y) as [-> _].
    split; [done|]. split; [done|]. split; [done|]. by exists y.
Qed.

Lemma years_of_except_2020 h it :
  years_of (named_except_2020 h it)
  = filter (fun y => y <> 2020) (year <$> yielded it).
Proof.
  unfold named_except_2020. rewrite years_of_named, yielded_gen_filter.
  induction (yielded it) as [|x l IH]; [done|].
  rewrite fmap_cons, !filter_cons. cbn beta.
  destruct (decide (year x <> 2020)) as [Hx|Hx].
  - rewrite decide_True
      by (apply Is_true_true, negb_true_iff, Z.eqb_neq; done).
    by rewrite fmap_cons, IH.
  - rewrite decide_False; [done|].
    intros Hn%Is_true_true%negb_true_iff%Z.eqb_neq. done.
Qed.

Lemma elem_of_years_of_era_except_2020 h it f lo hi y :
  yearly it f ->
  y ∈ years_of (named_except_2020 h (_sorted_dates_filter
                       (_sorted_dates_filter it (Some (min_date self))
                          (Some (max_date self))) lo hi)) <->
  y <> 2020 /\ 1948 <= y <= 9999 /\ within lo hi (f y) = true
  /\ in_range self (f y).
Proof.
  intros H. rewrite years_of_except_2020, list_elem_of_filter.
  rewrite <- years_of_named with (h := h).
  by rewrite (elem_of_years_of_era h it f).
Qed.

Lemma years_of_era_except_2020_NoDup h it f lo hi :
  yearly it f ->
  NoDup (years_of (named_except_2020 h (_sorted_dates_filter
                       (_sorted_dates_filter it (Some (min_date self))
                          (Some (max_date self))) lo hi))).
Proof.
  intros H. rewrite years_of_except_2020.
  eapply sublist_NoDup; [|apply sublist_filter].
  rewrite <- years_of_named with (h := h). by apply (years_of_era_NoDup h it f).
Qed.

Lemma elem_of_years_of_override d h y :
  y ∈ years_of (yield_if_in_range self d h) <->
  y = year d /\ in_range self d.
Proof.
  unfold years_of. rewrite list_elem_of_fmap.
  setoid_rewrite elem_of_yield_if_in_range. split.
  - by intros (p & -> & -> & ?).
  - intros [-> ?]. by exists (d, h).
Qed.

Lemma years_of_override_NoDup d h :
  NoDup (years_of (yield_if_in_range self d h)).
Proof.
  unfold years_of, yield_if_in_range. case_match; cbn.
  - apply NoDup_singleton.
  - apply NoDup_nil_2.
Qed.

End Years.



Section OneDateAYear.
Context (self : t).

Lemma elem_of_years_of_chain g1 g2 y :
  y ∈ years_of (chain g1 g2) -> y ∈ years_of g1 \/ y ∈ years_of g2.
Proof.
  intros H.
  apply elem_of_app, (elem_of_prefix _ _ _ H), years_of_chain_prefix.
Qed.




End OneDateAYear.

Section Coverage.
Context (self : t).



Lemma NoDup_dates g : NoDup (years_of g) -> NoDup (yielded g).*1.
Proof.
  unfold years_of. intros H.
  apply (NoDup_fmap_1 year). by rewrite <- list_fmap_compose.
Qed.













End Coverage.


Section Cutovers.
Context (self : t).









End Cutovers.

(* ===================================================================== *)
(** * Ranges that end with the year 9999                                 *)
(* ===================================================================== *)

Section LateRange.
Context (self : t).
Hypothesis Hlate : mkdate 9999 12 31 <=d max_date self.

Lemma ending_takewhile_Forall {A} (p : A -> bool) (g : gen A) :
  Forall (fun a => p a = true) (yielded g) ->
  ending (takewhile p g) = ending g.
Proof.
  induction g as [o|a g IH]; cbn [yielded takewhile ending]; [done|].
  intros [-> Hg]%Forall_cons. cbn [ending]. by apply IH.
Qed.

Lemma ending_takewhile_cases {A} (p : A -> bool) (g : gen A) :
  ending (takewhile p g) = Ok tt \/ ending (takewhile p g) = ending g.
Proof.
  induction g as [o|a g IH]; cbn [takewhile ending]; [by right|].
  destruct (p a); cbn [ending]; [done|by left].
Qed.

(** No date of a yearly stream is after the range: the stream clipped to
    the range is read to the [ValueError] of the year 10000. *)
Lemma ending_range_late it f :
  yearly it f ->
  ending (_sorted_dates_filter it (Some (min_date self))
            (Some (max_date self))) = Raises ValueError.
Proof using Hlate.
  intros H. unfold _sorted_dates_filter. rewrite ending_takewhile_Forall.
  - rewrite ending_dropwhile. destruct H as [-> _]. apply ending_year_gen.
  - apply Forall_forall. intros x Hx.
    pose proof (elem_of_suffix _ _ _ Hx (yielded_dropwhile_suffix _ _))
      as Hx'.
    rewrite (yearly_yielded it f H) in Hx'.
    apply list_elem_of_fmap in Hx' as (y & -> & Hy%elem_of_seqZ).
    destruct H as [_ Hf]. destruct (Hf y) as (E & Hm & Hd).
    unfold ge. apply (le_trans _ (mkdate 9999 12 31)); [|exact Hlate].
    apply leb_spec. cbn [year month day]. lia.
Qed.

(** The window of the last era has no upper end. *)
Lemma ending_open_era_late it f lo :
  yearly it f ->
  ending (_sorted_dates_filter
            (_sorted_dates_filter it (Some (min_date self))
               (Some (max_date self))) lo None) = Raises ValueError.
Proof using Hlate.
  intros H. rewrite ending_sorted_dates_filter_None.
  by apply (ending_range_late it f).
Qed.

Lemma ending_closed_era_late it f lo hi :
  yearly it f ->
  ending (_sorted_dates_filter
            (_sorted_dates_filter it (Some (min_date self))
               (Some (max_date self))) lo (Some hi)) = Ok tt
  \/ ending (_sorted_dates_filter
               (_sorted_dates_filter it (Some (min_date self))
                  (Some (max_date self))) lo (Some hi))
     = Raises ValueError.
Proof using Hlate.
  intros H. unfold _sorted_dates_filter at 1 3.
  match goal with
  | |- ending (takewhile ?p ?g) = _ \/ _ =>
      destruct (ending_takewhile_cases p g) as [E|E]; [by left|right]
  end.
  rewrite E. destruct lo; rewrite ?ending_dropwhile;
    by apply (ending_range_late it f).
Qed.

(** New Year's Day is the first generator of the catalogue. *)
Lemma resolve_late : resolve self = Raises ValueError.
Proof using Hlate.
  assert (ending (ganjitsu self) = Raises ValueError) as E.
  { unfold_holiday. rewrite ending_named.
    eapply ending_open_era_late. solve_yearly. }
  rewrite resolve_spec. unfold dict. rewrite dict_update_spec.
  unfold catalogue, chain_all. cbn [foldr]. by rewrite ending_chain, E.
Qed.

(** The three generators of the special measures are stopped by the
    [ValueError] before their last statement, the one of the date of
    2020. *)
Lemma uminohi_late :
  ending (uminohi self) = Raises ValueError
  /\ forall p, p ∈ yielded (uminohi self) -> year p.1 <> 2020.
Proof using Hlate.
  unfold_holiday.
  match goal with
  | |- context [chain ?a (chain ?b ?c)] =>
      set (g1 := a); set (g2 := b); set (g3 := c)
  end.
  assert (ending g2 = Raises ValueError) as E2.
  { unfold g2. rewrite ending_named_except_2020.
    eapply ending_open_era_late. solve_yearly. }
  assert (ending g1 = Ok tt \/ ending g1 = Raises ValueError) as E1.
  { unfold g1. rewrite ending_named.
    eapply ending_closed_era_late. solve_yearly. }
  split.
  - rewrite !ending_chain, E2. by destruct E1 as [-> | ->].
  - intros p [Hp|Hp]%elem_of_yielded_chain.
    + unfold g1 in Hp. pairs_facts.
      match goal with H : p.1 = _ |- _ => rewrite H end.
      unfold fixed_day. cbn [year]. window_arith.
    + rewrite yielded_chain, E2, app_nil_r in Hp. unfold g2 in Hp.
      by pairs_facts.
Qed.

Lemma override_late it f lo h d :
  yearly it f ->
  let g := chain (named_except_2020 h
                    (_sorted_dates_filter
                       (_sorted_dates_filter it (Some (min_date self))
                          (Some (max_date self))) lo None))
             (yield_if_in_range self d h) in
  ending g = Raises ValueError
  /\ forall p, p ∈ yielded g -> year p.1 <> 2020.
Proof using Hlate.
  intros H g. unfold g.
  assert (ending (named_except_2020 h
                    (_sorted_dates_filter
                       (_sorted_dates_filter it (Some (min_date self))
                          (Some (max_date self))) lo None))
          = Raises ValueError) as E.
  { rewrite ending_named_except_2020. by apply (ending_open_era_late it f). }
  split.
  - by rewrite ending_chain, E.
  - intros p Hp. rewrite yielded_chain, E, app_nil_r in Hp.
    by apply elem_of_named_except_2020 in Hp as (_ & ? & _).
Qed.

Lemma yamanohi_late :
  ending (yamanohi self) = Raises ValueError
  /\ forall p, p ∈ yielded (yamanohi self) -> year p.1 <> 2020.
Proof using Hlate.
  unfold_holiday. eapply override_late. solve_yearly.
Qed.

Lemma supotsunohi_late :
  ending (supotsunohi self) = Raises ValueError
  /\ forall p, p ∈ yielded (supotsunohi self) -> year p.1 <> 2020.
Proof using Hlate.
  unfold_holiday. eapply override_late. solve_yearly.
Qed.


End LateRange.


(** The instance of the years 2018 to 2020. *)
Definition j2018_2020 : t := __init__ (mkdate 2018 1 1) (mkdate 2020 12 31).





(* ===================================================================== *)
(** * The equinox days left out                                          *)
(* ===================================================================== *)

(** The instance of the years 2000 to 2010, before the anchor of 2018. *)
Definition j2000_2010 : t := __init__ (mkdate 2000 1 1) (mkdate 2010 12 31).

(** The instance of the years 2020 to 2030, after the anchors. *)
Definition j2020_2030 : t := __init__ (mkdate 2020 1 1) (mkdate 2030 12 31).

(** The instance that ends on the vernal equinox day of 2018. *)
Definition j2018_to_equinox : t :=
  __init__ (mkdate 2018 1 1) (mkdate 2018 3 21).

(** The date of the autumnal anchor stepped [k] times by [step]. *)
Definition autumnal_stepped (step : Z) (k : nat) : outcome date :=
  do a <- DateTime.new 2018 9 23 10 54;
  do a <- DateTime.add a (- DateTime.minutes 2);
  do x <- stepped a step k;
  Ok (DateTime.date x).

(** The date of the vernal anchor of the backward sweep. *)
Definition vernal_anchor : outcome date :=
  do a <- DateTime.new 2018 3 21 1 15;
  do a <- DateTime.add a (- DateTime.minutes 8);
  Ok (DateTime.date a).

(** C1, on the code. The autumnal generator yields nothing for the range
    2000-01-01 .. 2010-12-31, although the anchor stepped back 18 times is
    2000-09-23, and nothing for 2020-01-01 .. 2030-12-31, although the
    anchor stepped forward twice is 2020-09-22; the vernal generator
    leaves out 2018-03-21 when it is [max_date]. The resolved dictionary
    of 2000 .. 2010 has no entry on 2000-09-23. *)
Theorem equinox_dates_omitted :
  autumnal_stepped (- delta) 18 = Ok (mkdate 2000 9 23)
  /\ in_range j2000_2010 (mkdate 2000 9 23)
  /\ yielded (shubunnohi j2000_2010) = []
  /\ autumnal_stepped delta 2 = Ok (mkdate 2020 9 22)
  /\ in_range j2020_2030 (mkdate 2020 9 22)
  /\ yielded (shubunnohi j2020_2030) = []
  /\ vernal_anchor = Ok (mkdate 2018 3 21)
  /\ in_range j2018_to_equinox (mkdate 2018 3 21)
  /\ yielded (shunbunnohi j2018_to_equinox) = []
  /\ (do m <- resolve j2000_2010; Ok (m !! mkdate 2000 9 23)) = Ok None.
Proof.
  repeat split; vm_compute; reflexivity.
Qed.

Section AutumnalGuard.
Context (self : t).

Lemma autumnal_anchor_fact :
  (do a <- DateTime.new 2018 9 23 10 54;
   do a <- DateTime.add a (- DateTime.minutes 2);
   do b <- DateTime.add a delta;
   Ok (DateTime.date a, DateTime.date b))
  = Ok (mkdate 2018 9 23, mkdate 2019 9 23).
Proof. vm_compute. reflexivity. Qed.

Lemma equinox_loop_not_entered go emit step h dt :
  go (DateTime.date dt) = false ->
  equinox_loop YEARS go emit step h dt = Stop.
Proof.
  intros Hgo. assert (0 < YEARS)%nat as Hf by (unfold YEARS; lia).
  destruct YEARS as [|fuel]; [lia|]. cbn [equinox_loop]. by rewrite Hgo.
Qed.

(** Whenever the range ends on 2018-09-23 or before, the autumnal
    generator yields nothing at all: the backward sweep is not run, and
    the forward sweep starts past the range. *)
Lemma shubunnohi_before_anchor :
  max_date self <=d mkdate 2018 9 23 -> yielded (shubunnohi self) = [].
Proof.
  intros Hmax. pose proof autumnal_anchor_fact as F.
  apply obind_Ok in F as (a0 & E0 & F). apply obind_Ok in F as (a1 & E1 & F).
  apply obind_Ok in F as (a2 & E2 & [= F1 F2]).
  unfold shubunnohi. cbv zeta. rewrite E0. cbn [gstart]. rewrite E1.
  cbn [gstart]. rewrite yielded_chain, F1.
  rewrite (proj2 (ltb_false_iff _ _) Hmax). cbn [yielded ending app].
  rewrite E2. cbn [gstart]. rewrite F2.
  destruct (max_ DATE_00 (min_date self) <=?d mkdate 2019 9 23); [|done].
  rewrite equinox_loop_not_entered; [done|]. rewrite F2.
  apply ltb_false_iff. eapply le_trans; [exact Hmax|]. reflexivity.
Qed.

(** Whenever the range starts after 2019-09-23, the autumnal generator
    yields nothing at all, when the range ends after 2018-09-23 too. *)
Lemma shubunnohi_after_anchor :
  mkdate 2019 9 23 <d min_date self -> mkdate 2019 9 23 <d max_date self ->
  yielded (shubunnohi self) = [].
Proof.
  intros Hmin Hmax. pose proof autumnal_anchor_fact as F.
  apply obind_Ok in F as (a0 & E0 & F). apply obind_Ok in F as (a1 & E1 & F).
  apply obind_Ok in F as (a2 & E2 & [= F1 F2]).
  assert (mkdate 2019 9 23 <d max_ DATE_00 (min_date self)) as Hmin'
    by (apply (lt_le_trans _ _ _ Hmin), max_ge_r).
  unfold shubunnohi. cbv zeta. rewrite E0. cbn [gstart]. rewrite E1.
  cbn [gstart]. rewrite yielded_chain, F1.
  replace (mkdate 2018 9 23 <?d max_date self) with true.
  2:{ symmetry. apply ltb_true_iff.
      apply (lt_trans _ (mkdate 2019 9 23)); [reflexivity|done]. }
  rewrite equinox_loop_not_entered.
  2:{ rewrite F1. apply leb_false_iff.
      apply (lt_trans _ (mkdate 2019 9 23)); [reflexivity|done]. }
  cbn [yielded ending app]. rewrite E2. cbn [gstart]. rewrite F2.
  by rewrite (proj2 (leb_false_iff _ _) Hmin').
Qed.

End AutumnalGuard.

(* ===================================================================== *)
(** * The special measures of 2020                                       *)
(* ===================================================================== *)

Section Overrides.
Context (self : t).

(** The dates of 2020 of the three generators are the ones of the
    special measures. *)
Lemma uminohi_2020 p :
  p ∈ yielded (uminohi self) -> year p.1 = 2020 ->
  p = (mkdate 2020 7 23, "海の日"%string).
Proof.
  unfold_holiday. intros H Hy. pairs_facts; try done.
  exfalso. rewrite H1 in Hy. unfold fixed_day in Hy. cbn in Hy. subst.
  window_arith.
Qed.

Lemma yamanohi_2020 p :
  p ∈ yielded (yamanohi self) -> year p.1 = 2020 ->
  p = (mkdate 2020 8 10, "山の日"%string).
Proof. unfold_holiday. intros H Hy. pairs_facts; done. Qed.

Lemma supotsunohi_2020 p :
  p ∈ yielded (supotsunohi self) -> year p.1 = 2020 ->
  p = (mkdate 2020 7 24, "スポーツの日"%string).
Proof. unfold_holiday. intros H Hy. pairs_facts; done. Qed.

End Overrides.

Lemma Ok_inj {A} (a b : A) : Ok a = Ok b -> a = b.
Proof. by intros [= ->]. Qed.

Section AutumnMonths.
Context (self : t).

(** Every instant of the two sweeps of the autumnal generator, as far as
    the calendar goes, is in September. *)
Lemma autumnal_months_fact :
  (do a <- DateTime.new 2018 9 23 10 54;
   do a <- DateTime.add a (- DateTime.minutes 2);
   do b <- DateTime.add a delta;
   Ok (forallb (fun d => month d =? 9) (trajectory a (- delta) YEARS)
       && forallb (fun d => month d =? 9) (trajectory b delta YEARS)))
  = Ok true.
Proof. vm_compute. reflexivity. Qed.

Lemma shubunnohi_month p : p ∈ yielded (shubunnohi self) -> month p.1 = 9.
Proof.
  pose proof autumnal_months_fact as F.
  apply obind_Ok in F as (a0 & E0 & F).
  apply obind_Ok in F as (a1 & E1 & F).
  apply obind_Ok in F as (a2 & E2 & F).
  apply Ok_inj in F.
  pose proof (proj1 (andb_true_iff _ _) F) as [F1 F2].
  pose proof (proj1 (List.forallb_forall _ _) F1) as G1.
  pose proof (proj1 (List.forallb_forall _ _) F2) as G2.
  clear F F1 F2.
  unfold shubunnohi. cbv zeta. rewrite E0. cbn [gstart]. rewrite E1.
  cbn [gstart]. rewrite E2. cbn [gstart]. destruct p as [d h].
  intros [H|H]%elem_of_yielded_chain.
  - destruct (DateTime.date a1 <?d max_date self);
      [|by apply elem_of_nil in H].
    apply equinox_loop_yields in H as (_ & _ & _ & H).
    apply list_elem_of_In in H. apply Z.eqb_eq. exact (G1 d H).
  - destruct (max_ DATE_00 (min_date self) <=?d DateTime.date a2);
      [|by apply elem_of_nil in H].
    apply equinox_loop_yields in H as (_ & _ & _ & H).
    apply list_elem_of_In in H. apply Z.eqb_eq. exact (G2 d H).
Qed.

End AutumnMonths.

Section AfterOverrides.
Context (self : t).

(** No date of the special measures is among the six dates of
    [_special]. *)
Lemma special_not_2020_summer d h :
  (d, h) ∈ yielded (special self) -> year d <> 2020.
Proof.
  unfold special, _holidays_filter, _special.
  rewrite yielded_gen_filter, list_elem_of_filter. cbn [yielded].
  rewrite !elem_of_cons, elem_of_nil. intros [_ H].
  repeat destruct H as [[= -> _]|H]; try done.
Qed.

Ltac unfold_holiday_in H :=
  unfold ganjitsu, seijinnohi, kenkokukinennohi, showanohi, kenpokinenbi,
    midorinohi, kodomonohi, uminohi, yamanohi, keironohi, supotsunohi,
    taikunohi, bunkanohi, kinrokanshanohi, tennotanjobi,
    iter_dates, iter_nth_monday in H;
  cbv zeta in H.

(** Closes the goal when a date of the special measures is said to be
    the date of another rule. *)
Ltac other_rule Hp :=
  lazymatch type of Hp with
  | _ ∈ yielded (shubunnohi _) => apply shubunnohi_month in Hp; done
  | _ ∈ yielded (special _) =>
      apply special_not_2020_summer in Hp; done
  | _ =>
      unfold_holiday_in Hp; pairs_facts;
      unfold fixed_day, nth_monday in *; cbn [fst snd] in *;
      first [discriminate | congruence]
  end.

(** The generators chained after [uminohi] do not yield 2020-07-23. *)
Lemma after_uminohi g h :
  g ∈ [yamanohi self; keironohi self; shubunnohi self; supotsunohi self;
       taikunohi self; bunkanohi self; kinrokanshanohi self;
       tennotanjobi self; special self] ->
  (mkdate 2020 7 23, h) ∉ yielded g.
Proof.
  rewrite !elem_of_cons, elem_of_nil. intros Hg Hp.
  repeat (destruct Hg as [->|Hg]; [other_rule Hp|]). destruct Hg.
Qed.

(** The generators chained after [yamanohi] do not yield 2020-08-10. *)
Lemma after_yamanohi g h :
  g ∈ [keironohi self; shubunnohi self; supotsunohi self;
       taikunohi self; bunkanohi self; kinrokanshanohi self;
       tennotanjobi self; special self] ->
  (mkdate 2020 8 10, h) ∉ yielded g.
Proof.
  rewrite !elem_of_cons, elem_of_nil. intros Hg Hp.
  repeat (destruct Hg as [->|Hg]; [other_rule Hp|]). destruct Hg.
Qed.

(** The generators chained after [supotsunohi] do not yield
    2020-07-24. *)
Lemma after_supotsunohi g h :
  g ∈ [taikunohi self; bunkanohi self; kinrokanshanohi self;
       tennotanjobi self; special self] ->
  (mkdate 2020 7 24, h) ∉ yielded g.
Proof.
  rewrite !elem_of_cons, elem_of_nil. intros Hg Hp.
  repeat (destruct Hg as [->|Hg]; [other_rule Hp|]). destruct Hg.
Qed.

End AfterOverrides.

Section LastPair.

Lemma yielded_chain_all_app {A} (pre post : list (gen A)) :
  ending (chain_all pre) = Ok tt ->
  yielded (chain_all (pre ++ post))
  = yielded (chain_all pre) ++ yielded (chain_all post).
Proof.
  induction pre as [|g pre IH]; cbn [chain_all foldr app]; [done|].
  intros [Eg Ep]%ending_chain_Ok. fold (chain_all pre) in *.
  fold (chain_all (pre ++ post)).
  rewrite !yielded_chain_Ok by done. rewrite (IH Ep).
  by rewrite (assoc_L (++)).
Qed.

Lemma ending_chain_all_app {A} (pre post : list (gen A)) :
  ending (chain_all (pre ++ post)) = Ok tt ->
  ending (chain_all pre) = Ok tt /\ ending (chain_all post) = Ok tt.
Proof.
  induction pre as [|g pre IH]; cbn [chain_all foldr app]; [done|].
  fold (chain_all pre). fold (chain_all (pre ++ post)).
  intros [Eg Ep]%ending_chain_Ok. destruct (IH Ep) as [E1 E2].
  split; [|done]. by apply ending_chain_Ok.
Qed.

Lemma not_elem_of_chain_all (post : list (gen (date * string))) k :
  (forall g v, g ∈ post -> (k, v) ∉ yielded g) ->
  k ∉ (yielded (chain_all post)).*1.
Proof.
  induction post as [|g post IH]; intros H; cbn [chain_all foldr].
  - cbn. apply not_elem_of_nil.
  - fold (chain_all post).
    intros ([k' v] & -> & [Hp|Hp]%elem_of_yielded_chain)%list_elem_of_fmap.
    + apply (H g v); [apply elem_of_cons; by left|done].
    + apply IH.
      * intros g' v' Hg'. apply H. apply elem_of_cons. by right.
      * apply list_elem_of_fmap. by exists (k', v).
Qed.

(** The dictionary of a chain has, for a key, the value of the last
    generator that yields it. *)
Lemma dict_chain_all_last pre g post base A k v :
  dict (chain_all (pre ++ g :: post)) = Ok base ->
  yielded g = A ++ [(k, v)] ->
  (forall g' v', g' ∈ post -> (k, v') ∉ yielded g') ->
  base !! k = Some v.
Proof.
  unfold dict. intros [E ->]%dict_update_Ok Hg Hpost.
  destruct (ending_chain_all_app pre (g :: post) E) as [Epre Erest].
  rewrite yielded_chain_all_app by done.
  cbn [chain_all foldr] in *. fold (chain_all post) in *.
  apply ending_chain_Ok in Erest as [Eg _].
  rewrite yielded_chain_Ok, Hg by done.
  rewrite <- (assoc_L (++) A), (assoc_L (++) _ A). cbn [app].
  apply foldl_setitem_lookup_last. by apply not_elem_of_chain_all.
Qed.

(** The derived holidays do not touch the holidays of the catalogue. *)
Lemma resolve_keeps_base self base m k v :
  dict (chain_all (catalogue self)) = Ok base -> resolve self = Ok m ->
  base !! k = Some v -> m !! k = Some v.
Proof.
  intros Hbase Hm Hk. rewrite resolve_spec, Hbase in Hm.
  cbn [obind] in Hm. apply dict_update_Ok in Hm as [_ ->].
  rewrite foldl_setitem_lookup_ne; [done|].
  intros ((k' & v') & -> & Hin)%list_elem_of_fmap.
  apply kokuminnokyujitsu_fresh in Hin. simpl in Hk. congruence.
Qed.

End LastPair.

Section Measures2020.
Context (self : t).

Lemma year_2020_in_range d :
  year_covered self 2020 -> year d = 2020 -> 1 <= month d <= 12 ->
  1 <= day d <= 31 -> in_range self d.
Proof. intros Hc E. apply year_covered_in_range. by rewrite E. Qed.

Lemma yielded_override_last g d h :
  ending g = Ok tt -> in_range self d ->
  yielded (chain g (yield_if_in_range self d h)) = yielded g ++ [(d, h)].
Proof.
  intros E [H1 H2]. rewrite yielded_chain_Ok by done. f_equal.
  unfold yield_if_in_range. by rewrite H1, H2.
Qed.

Lemma uminohi_last :
  ending (uminohi self) = Ok tt -> in_range self (mkdate 2020 7 23) ->
  exists A, yielded (uminohi self)
            = A ++ [(mkdate 2020 7 23, "海の日"%string)].
Proof.
  unfold_holiday. intros [E1 [E2 _]%ending_chain_Ok]%ending_chain_Ok Hr.
  rewrite yielded_chain_Ok by done.
  rewrite yielded_override_last by done.
  eexists. by rewrite (assoc_L (++)).
Qed.

Lemma yamanohi_last :
  ending (yamanohi self) = Ok tt -> in_range self (mkdate 2020 8 10) ->
  exists A, yielded (yamanohi self)
            = A ++ [(mkdate 2020 8 10, "山の日"%string)].
Proof.
  unfold_holiday. intros [E1 _]%ending_chain_Ok Hr.
  rewrite yielded_override_last by done. by eexists.
Qed.

Lemma supotsunohi_last :
  ending (supotsunohi self) = Ok tt -> in_range self (mkdate 2020 7 24) ->
  exists A, yielded (supotsunohi self)
            = A ++ [(mkdate 2020 7 24, "スポーツの日"%string)].
Proof.
  unfold_holiday. intros [E1 _]%ending_chain_Ok Hr.
  rewrite yielded_override_last by done. by eexists.
Qed.

End Measures2020.

Section Measures2020Dict.
Context (self : t).

Lemma catalogue_at_uminohi :
  catalogue self
  = [ganjitsu self; seijinnohi self; kenkokukinennohi self;
     shunbunnohi self; showanohi self; kenpokinenbi self; midorinohi self;
     kodomonohi self]
    ++ uminohi self
       :: [yamanohi self; keironohi self; shubunnohi self;
           supotsunohi self; taikunohi self; bunkanohi self;
           kinrokanshanohi self; tennotanjobi self; special self].
Proof. reflexivity. Qed.

Lemma catalogue_at_yamanohi :
  catalogue self
  = [ganjitsu self; seijinnohi self; kenkokukinennohi self;
     shunbunnohi self; showanohi self; kenpokinenbi self; midorinohi self;
     kodomonohi self; uminohi self]
    ++ yamanohi self
       :: [keironohi self; shubunnohi self; supotsunohi self;
           taikunohi self; bunkanohi self; kinrokanshanohi self;
           tennotanjobi self; special self].
Proof. reflexivity. Qed.

Lemma catalogue_at_supotsunohi :
  catalogue self
  = [ganjitsu self; seijinnohi self; kenkokukinennohi self;
     shunbunnohi self; showanohi self; kenpokinenbi self; midorinohi self;
     kodomonohi self; uminohi self; yamanohi self; keironohi self;
     shubunnohi self]
    ++ supotsunohi self
       :: [taikunohi self; bunkanohi self; kinrokanshanohi self;
           tennotanjobi self; special self].
Proof. reflexivity. Qed.

Lemma base_2020 base :
  year_covered self 2020 ->
  dict (chain_all (catalogue self)) = Ok base ->
  base !! mkdate 2020 7 23 = Some "海の日"%string
  /\ base !! mkdate 2020 7 24 = Some "スポーツの日"%string
  /\ base !! mkdate 2020 8 10 = Some "山の日"%string.
Proof.
  intros Hc Hbase.
  assert (forall g, g ∈ catalogue self -> ending g = Ok tt) as Hend.
  { intros g. apply chain_all_ending_inv.
    unfold dict in Hbase. by apply dict_update_Ok in Hbase as [? _]. }
  assert (forall d, year d = 2020 -> 1 <= month d <= 12 ->
                    1 <= day d <= 31 -> in_range self d) as Hr
    by (intros d; by apply year_2020_in_range).
  split; [|split].
  - destruct (uminohi_last self) as [A HA].
    { apply Hend. rewrite catalogue_at_uminohi. apply elem_of_app. right.
      apply elem_of_cons. left. reflexivity. }
    { apply Hr; cbn; lia. }
    rewrite catalogue_at_uminohi in Hbase.
    eapply dict_chain_all_last; [exact Hbase|exact HA|].
    intros g' v' Hg'. by apply (after_uminohi self).
  - destruct (supotsunohi_last self) as [A HA].
    { apply Hend. rewrite catalogue_at_supotsunohi. apply elem_of_app. right.
      apply elem_of_cons. left. reflexivity. }
    { apply Hr; cbn; lia. }
    rewrite catalogue_at_supotsunohi in Hbase.
    eapply dict_chain_all_last; [exact Hbase|exact HA|].
    intros g' v' Hg'. by apply (after_supotsunohi self).
  - destruct (yamanohi_last self) as [A HA].
    { apply Hend. rewrite catalogue_at_yamanohi. apply elem_of_app. right.
      apply elem_of_cons. left. reflexivity. }
    { apply Hr; cbn; lia. }
    rewrite catalogue_at_yamanohi in Hbase.
    eapply dict_chain_all_last; [exact Hbase|exact HA|].
    intros g' v' Hg'. by apply (after_yamanohi self).
Qed.

End Measures2020Dict.

(** C6, as amended. When the range ends before the year 9999 and the
    year 2020 is in it, the dictionary is computed and has 海の日 on
    2020-07-23, スポーツの日 on 2020-07-24 and 山の日 on 2020-08-10; for
    every range, the generators of the three holidays yield no other date
    in 2020; and when the range ends before the year 9999 each of them
    yields its date of 2020 exactly when that date is in the range. *)
Theorem measures_of_2020 :
  forall self,
  (valid (min_date self) -> valid (max_date self) ->
   year (max_date self) <= 9998 -> year_covered self 2020 ->
   exists m,
     resolve self = Ok m
     /\ m !! mkdate 2020 7 23 = Some "海の日"%string
     /\ m !! mkdate 2020 7 24 = Some "スポーツの日"%string
     /\ m !! mkdate 2020 8 10 = Some "山の日"%string)
  /\ (forall p, p ∈ yielded (uminohi self) -> year p.1 = 2020 ->
                p = (mkdate 2020 7 23, "海の日"%string))
  /\ (forall p, p ∈ yielded (supotsunohi self) -> year p.1 = 2020 ->
                p = (mkdate 2020 7 24, "スポーツの日"%string))
  /\ (forall p, p ∈ yielded (yamanohi self) -> year p.1 = 2020 ->
                p = (mkdate 2020 8 10, "山の日"%string))
  /\ (year (max_date self) <= 9998 ->
      ((mkdate 2020 7 23, "海の日"%string) ∈ yielded (uminohi self) <->
       min_date self <=d mkdate 2020 7 23
       /\ mkdate 2020 7 23 <=d max_date self))
  /\ (year (max_date self) <= 9998 ->
      ((mkdate 2020 7 24, "スポーツの日"%string) ∈ yielded (supotsunohi self)
       <-> min_date self <=d mkdate 2020 7 24
           /\ mkdate 2020 7 24 <=d max_date self))
  /\ (year (max_date self) <= 9998 ->
      ((mkdate 2020 8 10, "山の日"%string) ∈ yielded (yamanohi self) <->
       min_date self <=d mkdate 2020 8 10
       /\ mkdate 2020 8 10 <=d max_date self)).
Proof.
  intros self.
  assert (forall d, year d = 2020 -> min_date self <=d d ->
                    min_date self <=d mkdate 9999 1 1) as Hlo.
  { intros d Ed Hd. apply (le_trans _ d); [exact Hd|].
    apply leb_spec. cbn [year month day]. lia. }
  repeat apply conj.
  - intros Hvmin Hvmax Hmax Hc.
    assert (min_date self <=d mkdate 9999 1 1) as Hmin.
    { apply (Hlo (mkdate 2020 1 1)); [reflexivity|apply Hc]. }
    destruct (resolve_total self Hvmin Hvmax Hmin Hmax) as [m Hm].
    exists m. split; [exact Hm|].
    assert (exists base, dict (chain_all (catalogue self)) = Ok base)
      as [base Hbase].
    { rewrite resolve_spec in Hm.
      destruct (dict (chain_all (catalogue self))); [by eexists|done..]. }
    destruct (base_2020 self base Hc Hbase) as (H1 & H2 & H3).
    repeat split; by eapply resolve_keeps_base.
  - apply uminohi_2020.
  - apply supotsunohi_2020.
  - apply yamanohi_2020.
  - intros Hmax. split.
    + intros H. by apply (bounded_uminohi self) in H.
    + intros Hr.
      assert (min_date self <=d mkdate 9999 1 1) as Hmin
        by (apply (Hlo (mkdate 2020 7 23)); [reflexivity|apply Hr]).
      destruct (uminohi_last self (ending_uminohi self Hmin Hmax) Hr)
        as [A ->].
      apply elem_of_app. right. by apply list_elem_of_singleton.
  - intros Hmax. split.
    + intros H. by apply (bounded_supotsunohi self) in H.
    + intros Hr.
      assert (min_date self <=d mkdate 9999 1 1) as Hmin
        by (apply (Hlo (mkdate 2020 7 24)); [reflexivity|apply Hr]).
      destruct (supotsunohi_last self (ending_supotsunohi self Hmin Hmax) Hr)
        as [A ->].
      apply elem_of_app. right. by apply list_elem_of_singleton.
  - intros Hmax. split.
    + intros H. by apply (bounded_yamanohi self) in H.
    + intros Hr.
      assert (min_date self <=d mkdate 9999 1 1) as Hmin
        by (apply (Hlo (mkdate 2020 8 10)); [reflexivity|apply Hr]).
      destruct (yamanohi_last self (ending_yamanohi self Hmin Hmax) Hr)
        as [A ->].
      apply elem_of_app. right. by apply list_elem_of_singleton.
Qed.

Lemma measures_of_2020_witness :
  exists m,
    resolve j2018_2020 = Ok m
    /\ m !! mkdate 2020 7 23 = Some "海の日"%string
    /\ m !! mkdate 2020 7 24 = Some "スポーツの日"%string
    /\ m !! mkdate 2020 8 10 = Some "山の日"%string.
Proof.
  apply (proj1 (measures_of_2020 j2018_2020));
    [reflexivity|reflexivity|cbn; lia|split; reflexivity].
Defined.

(** The instance of the years 2020 to 9999. *)
Definition j2020_9999 : t := __init__ (mkdate 2020 1 1) (mkdate 9999 12 31).

(** C6 as stated fails: the range from 2020-01-01 to 9999-12-31 contains
    the year 2020 and the three dates, but the generators of the three
    holidays raise [ValueError], their streams having reached the year
    10000, before the statement that yields the date of 2020, so that
    they yield no date of 2020 at all; and no dictionary is built. *)
Lemma measures_of_2020_lost :
  valid (min_date j2020_9999) /\ valid (max_date j2020_9999)
  /\ year_covered j2020_9999 2020
  /\ resolve j2020_9999 = Raises ValueError
  /\ ending (uminohi j2020_9999) = Raises ValueError
  /\ ending (supotsunohi j2020_9999) = Raises ValueError
  /\ ending (yamanohi j2020_9999) = Raises ValueError
  /\ ((mkdate 2020 7 23, "海の日"%string) ∉ yielded (uminohi j2020_9999))
  /\ ((mkdate 2020 7 24, "スポーツの日"%string)
        ∉ yielded (supotsunohi j2020_9999))
  /\ ((mkdate 2020 8 10, "山の日"%string) ∉ yielded (yamanohi j2020_9999)).
Proof.
  assert (mkdate 9999 12 31 <=d max_date j2020_9999) as Hlate
    by reflexivity.
  destruct (uminohi_late j2020_9999 Hlate) as [E1 H1].
  destruct (supotsunohi_late j2020_9999 Hlate) as [E2 H2].
  destruct (yamanohi_late j2020_9999 Hlate) as [E3 H3].
  split; [reflexivity|]. split; [reflexivity|].
  split; [split; reflexivity|].
  split; [exact (resolve_late j2020_9999 Hlate)|].
  split; [exact E1|]. split; [exact E2|]. split; [exact E3|].
  split; [|split].
  - intros Hp. by apply (H1 _ Hp).
  - intros Hp. by apply (H2 _ Hp).
  - intros Hp. by apply (H3 _ Hp).
Qed.

(* ===================================================================== *)
(** * The days of a range, one by one                                    *)
(* ===================================================================== *)

Section AllDatesEnumeration.

Lemma days_of_sorted self :
  valid (min_date self) -> valid (max_date self) ->
  StronglySorted Date.lt (days_of self).
Proof.
  intros Hmin Hmax. unfold days_of.
  pose proof (toordinal_bounds _ Hmin). pose proof (toordinal_bounds _ Hmax).
  set (lo := toordinal (min_date self)) in *.
  set (len := toordinal (max_date self) - lo + 1).
  assert (Forall (fun o => 1 <= o <= MAXORDINAL) (seqZ lo len)) as Hr.
  { apply Forall_forall. intros o Ho%elem_of_seqZ. lia. }
  pose proof (seqZ_sorted lo len) as Hz. revert Hr Hz.
  generalize (seqZ lo len). intros l Hr Hz.
  induction Hz as [|o l Hz IH Ho]; [constructor|].
  apply Forall_cons in Hr as [Hro Hr]. cbn [fmap list_fmap].
  constructor; [by apply IH|].
  apply Forall_fmap, Forall_forall. intros o' Ho'. simpl.
  pose proof (proj1 (Forall_forall _ _) Hr o' Ho') as Hro'.
  cbv beta in Hro, Hro'.
  apply toordinal_lt_iff; [apply fromordinal_valid; lia..|].
  rewrite !toordinal_fromordinal by done.
  exact (proj1 (Forall_forall _ _) Ho o' Ho').
Qed.

(** X1. [iter_all_dates] yields the dates [x] with
    [min_date <= x <= max_date], each once and in increasing order, one
    for each day from the first to the last; it ends with [OverflowError]
    exactly when the range is not empty and [max_date] is 9999-12-31,
    whose next day is no date. *)
Theorem iter_all_dates_enumerates :
  forall self,
  valid (min_date self) -> valid (max_date self) ->
  (forall x, x ∈ yielded (iter_all_dates self) <->
             valid x /\ min_date self <=d x /\ x <=d max_date self)
  /\ StronglySorted Date.lt (yielded (iter_all_dates self))
  /\ Z.of_nat (length (yielded (iter_all_dates self)))
     = Z.max 0 (toordinal (max_date self) - toordinal (min_date self) + 1)
  /\ ending (iter_all_dates self)
     = if (min_date self <=?d max_date self)
          && bool_decide (max_date self = mkdate 9999 12 31)
       then Raises OverflowError else Ok tt.
Proof.
  intros self Hmin Hmax. rewrite yielded_iter_all_dates by done.
  split; [|split; [|split]].
  - intros x. by apply elem_of_days_of.
  - by apply days_of_sorted.
  - unfold days_of. rewrite length_fmap, length_seqZ. lia.
  - rewrite ending_iter_all_dates by done.
    replace (toordinal (max_date self) =? MAXORDINAL)
      with (bool_decide (max_date self = mkdate 9999 12 31)); [done|].
    case_bool_decide as E.
    + rewrite E. reflexivity.
    + symmetry. apply Z.eqb_neq. intros Eo. apply E.
      apply toordinal_inj; [done|reflexivity|]. rewrite Eo. reflexivity.
Qed.

Lemma iter_all_dates_enumerates_witness :
  mkdate 2018 1 3 ∈ yielded (iter_all_dates
                               (__init__ (mkdate 2018 1 1) (mkdate 2018 1 8))).
Proof.
  apply (proj1 (iter_all_dates_enumerates
                  (__init__ (mkdate 2018 1 1) (mkdate 2018 1 8))
                  eq_refl eq_refl)).
  split; [reflexivity|]. split; reflexivity.
Defined.

End AllDatesEnumeration.

(* ===================================================================== *)
(** * The stream of a month and day                                      *)
(* ===================================================================== *)

Section IterDatesStream.

Lemma valid_fields_1948 m d :
  valid_fields 1948 m d = true -> (m =? 2) && (d =? 29) = false ->
  1 <= m <= 12 /\ 1 <= d <= _DAYS_IN_MONTH m.
Proof.
  intros V F. unfold valid_fields in V.
  rewrite !andb_true_iff, !Z.leb_le, days_in_month_unfold in V.
  apply andb_false_iff in F. rewrite !Z.eqb_neq in F.
  destruct V as [[[[_ H1] H2] H3] H4]. split; [lia|]. split; [lia|].
  destruct (decide (m = 2)) as [->|Hne].
  - change (_is_leap 1948) with true in H4. cbn in H4 |- *. lia.
  - replace ((m =? 2) && _is_leap 1948) with false in H4; [lia|].
    symmetry. apply andb_false_iff. left. by apply Z.eqb_neq.
Qed.

(** The stream of [_iter_dates] ends with [ValueError], whatever its
    arguments. *)
Lemma ending_iter_dates m d : ending (_iter_dates m d) = Raises ValueError.
Proof.
  destruct (valid_fields 1948 m d) eqn:V.
  - destruct ((m =? 2) && (d =? 29)) eqn:F.
    + apply andb_true_iff in F as [->%Z.eqb_eq ->%Z.eqb_eq].
      vm_compute. reflexivity.
    + destruct (valid_fields_1948 m d V F) as [Hm Hd].
      rewrite iter_dates_spec by done. apply ending_year_gen.
  - unfold _iter_dates, Date.new. cbn [year DATE_00]. rewrite V. done.
Qed.

(** The integers that [datetime.date] reads as a machine integer; a
    larger argument is an [OverflowError] of the conversion. *)
Definition c_int (y : Z) : Prop := - 2 ^ 31 <= y < 2 ^ 31.

(** X2. [_iter_dates(month, day)] never ends by itself: it raises
    [ValueError] at once when 1948-month-day is no date; for February 29
    it yields 1948-02-29 and raises on the year 1949; for any other day
    it yields that day of every year from 1948 to 9999, in order, and
    raises on the year 10000. *)
Theorem iter_dates_stream :
  forall m d,
  c_int m -> c_int d ->
  ending (_iter_dates m d) = Raises ValueError
  /\ yielded (_iter_dates m d)
     = if valid_fields 1948 m d
       then if (m =? 2) && (d =? 29) then [mkdate 1948 2 29]
            else (fun y => mkdate y m d) <$> seqZ 1948 8052
       else [].
Proof.
  intros m d _ _. split; [apply ending_iter_dates|].
  destruct (valid_fields 1948 m d) eqn:V.
  - destruct ((m =? 2) && (d =? 29)) eqn:F.
    + apply andb_true_iff in F as [->%Z.eqb_eq ->%Z.eqb_eq].
      vm_compute. reflexivity.
    + destruct (valid_fields_1948 m d V F) as [Hm Hd].
      rewrite iter_dates_spec, yielded_year_gen by done.
      by rewrite Z2Nat.id.
  - unfold _iter_dates, Date.new. cbn [year DATE_00]. rewrite V. done.
Qed.

Lemma iter_dates_stream_witness :
  yielded (_iter_dates 2 29) = [mkdate 1948 2 29].
Proof.
  refine (proj2 (iter_dates_stream 2 29 _ _)); unfold c_int; lia.
Defined.

End IterDatesStream.

(* ===================================================================== *)
(** * The ranges that have a dictionary                                  *)
(* ===================================================================== *)

Section ResolveDomain.
Context (self : t).

Lemma takewhile_all {A} (p : A -> bool) (g : gen A) :
  Forall (fun a => p a = true) (yielded g) -> takewhile p g = g.
Proof.
  induction g as [o|a g IH]; cbn [yielded takewhile]; [done|].
  intros [-> Hg]%Forall_cons. f_equal. by apply IH.
Qed.

(** When the range ends in the year 9999 no date of the stream of New
    Year's Day is past it, and the year 10000 raises [ValueError]. *)
Lemma ganjitsu_raises_late :
  valid (max_date self) -> 9999 <= year (max_date self) ->
  ending (ganjitsu self) = Raises ValueError.
Proof.
  intros (_ & Hm & Hd & _)%valid_spec Hmax. unfold ganjitsu, iter_dates. cbv zeta.
  rewrite ending_named, ending_sorted_dates_filter_None.
  destruct (yearly_iter_dates 1 1 ltac:(lia) ltac:(cbn; lia)) as [E Hf].
  unfold _sorted_dates_filter. rewrite takewhile_all.
  - by rewrite ending_dropwhile, E, ending_year_gen.
  - apply Forall_forall. intros x Hx.
    pose proof (elem_of_suffix _ _ _ Hx (yielded_dropwhile_suffix _ _))
      as Hx'.
    clear Hx. rewrite (yearly_yielded _ _ (conj E Hf)) in Hx'.
    apply list_elem_of_fmap in Hx' as (y & -> & Hy%elem_of_seqZ).
    unfold ge. apply leb_spec. unfold fixed_day. cbn. lia.
Qed.

Lemma resolve_raises_late :
  valid (max_date self) -> 9999 <= year (max_date self) ->
  resolve self = Raises ValueError.
Proof.
  intros Hv Hmax. rewrite resolve_spec. unfold dict.
  rewrite dict_update_spec. unfold catalogue, chain_all. cbn [foldr].
  by rewrite ending_chain, (ganjitsu_raises_late Hv Hmax).
Qed.

End ResolveDomain.

(** X3. For valid dates, the dictionary is computed exactly when
    [max_date] is before the year 9999 and [min_date] is not after
    9999-01-01; for every other range the computation raises
    [ValueError], the stream of 元日 having reached the year 10000. *)
Theorem resolve_domain :
  forall self,
  valid (min_date self) -> valid (max_date self) ->
  (year (max_date self) <= 9998 /\ min_date self <=d mkdate 9999 1 1 ->
   exists m, resolve self = Ok m)
  /\ (9999 <= year (max_date self) \/ mkdate 9999 1 1 <d min_date self ->
      resolve self = Raises ValueError).
Proof.
  intros self Hmin Hmax. split.
  - intros [Hy Hlo]. by apply resolve_total.
  - intros [Hy|Hlo].
    + by apply resolve_raises_late.
    + by apply resolve_raises_after_9999.
Qed.

Lemma resolve_domain_witness :
  resolve (__init__ (mkdate 2018 1 1) (mkdate 9999 12 31))
  = Raises ValueError.
Proof.
  apply (proj2 (resolve_domain
                  (__init__ (mkdate 2018 1 1) (mkdate 9999 12 31))
                  eq_refl eq_refl)).
  left. cbn. lia.
Defined.

(* ===================================================================== *)
(** * Instances of whole years                                           *)
(* ===================================================================== *)

Section FromYear.

Lemma from_year_Ok min_year max_year :
  1 <= min_year <= 9999 -> 1 <= max_year <= 9999 ->
  from_year min_year max_year
  = Ok (__init__ (mkdate min_year 1 1) (mkdate max_year 12 31)).
Proof.
  intros H1 H2. unfold from_year, Date.new.
  rewrite !valid_fields_common by (cbn; lia). done.
Qed.

Lemma from_year_raises min_year max_year :
  ~ (1 <= min_year <= 9999 /\ 1 <= max_year <= 9999) ->
  from_year min_year max_year = Raises ValueError.
Proof.
  intros H. unfold from_year, Date.new.
  destruct (valid_fields min_year 1 1) eqn:V1; cbn [obind]; [|done].
  destruct (valid_fields max_year 12 31) eqn:V2; cbn [obind]; [|done].
  exfalso. apply H.
  apply (valid_spec (mkdate min_year 1 1)) in V1.
  apply (valid_spec (mkdate max_year 12 31)) in V2. cbn in V1, V2. lia.
Qed.

(** X4. [from_year(min_year, max_year)] raises [ValueError] unless both
    years are years of the calendar (1 to 9999); otherwise it is the
    instance from January 1 of the first year to December 31 of the
    last, and when the last year is before 9999 its dictionary is
    computed and the year of every key is one of the years asked for. *)
Theorem from_year_keys :
  forall min_year max_year,
  (c_int min_year -> c_int max_year ->
   ~ (1 <= min_year <= 9999 /\ 1 <= max_year <= 9999) ->
   from_year min_year max_year = Raises ValueError)
  /\ (1 <= min_year <= 9999 -> 1 <= max_year <= 9998 ->
      from_year min_year max_year
      = Ok (__init__ (mkdate min_year 1 1) (mkdate max_year 12 31))
      /\ exists m,
           (do j <- from_year min_year max_year; resolve j) = Ok m
           /\ forall k v, m !! k = Some v -> min_year <= year k <= max_year).
Proof.
  intros min_year max_year. split; [intros _ _; apply from_year_raises|].
  intros H1 H2. rewrite from_year_Ok by lia. split; [done|].
  cbn [obind]. set (j := __init__ _ _).
  assert (valid (min_date j)) as Vmin
    by (apply valid_fields_common; cbn; lia).
  assert (valid (max_date j)) as Vmax
    by (apply valid_fields_common; cbn; lia).
  destruct (resolve_total j Vmin Vmax) as [m Hm].
  { apply leb_spec. cbn. lia. }
  { cbn. lia. }
  exists m. split; [done|]. intros k v Hk.
  destruct (resolve_in_range j m k v Vmin Vmax Hm Hk) as [Hlo Hhi].
  apply leb_spec in Hlo, Hhi. cbn in Hlo, Hhi. lia.
Qed.

Lemma from_year_keys_witness :
  from_year 2018 10000 = Raises ValueError
  /\ from_year 2018 2018
     = Ok (__init__ (mkdate 2018 1 1) (mkdate 2018 12 31)).
Proof.
  split.
  - apply (proj1 (from_year_keys 2018 10000)); unfold c_int; lia.
  - apply (proj2 (from_year_keys 2018 2018)); lia.
Defined.

End FromYear.

(* ===================================================================== *)
(** * The cached dictionary and the methods of [Mapping]                 *)
(* ===================================================================== *)

(** The cache of an instance holds nothing, or the dictionary of its
    range. *)
Definition coherent (self : t) : Prop :=
  forall m, _holidays_dict self = Some m -> resolve self = Ok m.

(** The instance of the same range that has not been used yet. *)
Definition fresh (self : t) : t := __init__ (min_date self) (max_date self).

Section Cache.

(** The dictionary depends on the two dates of the range only. *)
Lemma resolve_ext a b :
  min_date a = min_date b -> max_date a = max_date b ->
  resolve a = resolve b.
Proof.
  intros E1 E2.
  unfold resolve, catalogue, ganjitsu, seijinnohi, kenkokukinennohi,
    shunbunnohi, showanohi, kenpokinenbi, midorinohi, kodomonohi, uminohi,
    yamanohi, keironohi, shubunnohi, supotsunohi, taikunohi, bunkanohi,
    kinrokanshanohi, tennotanjobi, special, iter_dates, iter_nth_monday,
    iter_all_dates, yield_if_in_range.
  rewrite E1, E2. reflexivity.
Qed.

Lemma resolve_fresh self : resolve (fresh self) = resolve self.
Proof. by apply resolve_ext. Qed.

Lemma holidays_coherent self :
  coherent self -> _holidays self = _holidays (fresh self).
Proof.
  intros H. unfold _holidays. rewrite resolve_fresh.
  destruct self as [lo hi [m|]];
    cbn [_holidays_dict fresh __init__ min_date max_date]; [|reflexivity].
  rewrite (H m eq_refl). reflexivity.
Qed.

Lemma holidays_cached self m self' :
  _holidays self = Ok (m, self') ->
  min_date self' = min_date self /\ max_date self' = max_date self
  /\ _holidays_dict self' = Some m /\ _holidays self' = Ok (m, self').
Proof.
  unfold _holidays at 1. destruct self as [lo hi [c|]];
    cbn [_holidays_dict min_date max_date].
  - intros [= <- <-]. unfold _holidays. cbn [_holidays_dict min_date max_date].
    repeat split; reflexivity.
  - destruct (resolve (mk lo hi None)) as [r| |]; cbn [obind];
      [|discriminate..].
    intros [= <- <-]. unfold _holidays.
    cbn [_holidays_dict min_date max_date]. repeat split; reflexivity.
Qed.

Lemma holidays_keeps_coherent self m self' :
  coherent self -> _holidays self = Ok (m, self') -> coherent self'.
Proof.
  intros H E. unfold _holidays in E.
  destruct self as [lo hi [c|]]; cbn [_holidays_dict min_date max_date] in E.
  - injection E as <- <-. exact H.
  - destruct (resolve (mk lo hi None)) as [r| |] eqn:R; cbn [obind] in E;
      [|discriminate..].
    injection E as <- <-. intros m' [= <-].
    rewrite <- R. by apply resolve_ext.
Qed.

(** What [_holidays] returns is the dictionary of the range. *)
Lemma holidays_resolve self m self' :
  coherent self -> _holidays self = Ok (m, self') -> resolve self = Ok m.
Proof.
  intros H E. unfold _holidays in E.
  destruct (_holidays_dict self) as [c|] eqn:C.
  - injection E as <- <-. by apply H.
  - destruct (resolve self) as [r| |]; cbn [obind] in E; [|discriminate..].
    by injection E as <- _.
Qed.

End Cache.

(** X5. The cache is an invariant of the instance: a new instance holds
    no dictionary; after any use the instance holds the dictionary of its
    range, the next use returns the same dictionary without changing the
    instance, and every method answers as on an unused instance of the
    same range. *)
Theorem cache_is_coherent :
  (forall min_date max_date, coherent (__init__ min_date max_date))
  /\ forall self, coherent self ->
       (forall m self', _holidays self = Ok (m, self') ->
          coherent self' /\ fresh self' = fresh self
          /\ resolve self = Ok m /\ _holidays self' = Ok (m, self'))
       /\ (forall key,
             __contains__ self key = __contains__ (fresh self) key
             /\ get self key = get (fresh self) key
             /\ __getitem__ self key = __getitem__ (fresh self) key)
       /\ __iter__ self = __iter__ (fresh self)
       /\ __len__ self = __len__ (fresh self).
Proof.
  split; [intros lo hi m; discriminate|]. intros self H. split; [|split; [|split]].
  - intros m self' E.
    destruct (holidays_cached _ _ _ E) as (E1 & E2 & E3 & E4).
    split; [by eapply holidays_keeps_coherent|].
    split; [unfold fresh; by rewrite E1, E2|]. split; [|done].
    by eapply holidays_resolve.
  - intros key. unfold __contains__, get, __getitem__.
    by rewrite (holidays_coherent self H).
  - unfold __iter__. by rewrite (holidays_coherent self H).
  - unfold __len__. by rewrite (holidays_coherent self H).
Qed.

Lemma cache_is_coherent_witness :
  get (cached_empty (mkdate 2018 1 8) (mkdate 2018 1 1)) (mkdate 2018 1 1)
  = get (__init__ (mkdate 2018 1 8) (mkdate 2018 1 1)) (mkdate 2018 1 1).
Proof.
  refine (proj1 (proj2 (proj1 (proj2 (proj2 cache_is_coherent
            (cached_empty (mkdate 2018 1 8) (mkdate 2018 1 1)) _))
            (mkdate 2018 1 1)))).
  intros m [= <-]. apply (resolve_reversed (mkdate 2018 1 8) (mkdate 2018 1 1));
    reflexivity.
Defined.

(** X6. The methods of an instance answer for one dictionary [m]: a key
    is contained exactly when [get] finds a name and when indexing does
    not raise [KeyError]; the iteration yields each key once, as many
    keys as the length; and a date outside the range is no key. *)
Theorem mapping_methods_agree :
  forall self m self',
  valid (min_date self) -> valid (max_date self) ->
  coherent self -> _holidays self = Ok (m, self') ->
  (forall key,
     __contains__ self key = Ok (bool_decide (is_Some (m !! key)), self')
     /\ get self key = Ok (m !! key, self')
     /\ __getitem__ self key
        = match m !! key with
          | Some h => Ok (h, self')
          | None => Raises KeyError
          end
     /\ (key <d min_date self \/ max_date self <d key -> m !! key = None))
  /\ exists keys,
       __iter__ self = Ok (keys, self')
       /\ NoDup keys
       /\ (forall key, key ∈ keys <-> is_Some (m !! key))
       /\ __len__ self = Ok (length keys, self').
Proof.
  intros self m self' Vmin Vmax H E. split.
  - intros key. unfold __contains__, get, __getitem__. rewrite E.
    cbn [obind fst snd]. split; [|split; [done|split; [done|]]].
    + f_equal. f_equal. unfold mem.
      destruct (m !! key) eqn:K; symmetry.
      * by apply bool_decide_eq_true_2.
      * apply bool_decide_eq_false_2. by intros [? ?].
    + intros Hout. destruct (m !! key) as [h|] eqn:K; [exfalso|done].
      assert (resolve self = Ok m) as R by (by eapply holidays_resolve).
      destruct (resolve_in_range self m key h Vmin Vmax R K) as [Hlo Hhi].
      destruct Hout as [Hout|Hout]; apply lt_not_le in Hout; done.
  - exists (map_to_list m).*1. unfold __iter__, __len__. rewrite E.
    cbn [obind fst snd]. split; [done|]. split; [apply NoDup_fst_map_to_list|].
    split.
    + intros key. rewrite list_elem_of_fmap. split.
      * intros ([k v] & -> & Hkv%elem_of_map_to_list). by exists v.
      * intros [v Hv]. exists (key, v). split; [done|].
        by apply elem_of_map_to_list.
    + by rewrite length_fmap, length_map_to_list.
Qed.

Lemma mapping_methods_agree_witness :
  get (__init__ (mkdate 2018 1 8) (mkdate 2018 1 1)) (mkdate 2018 1 1)
  = Ok (None, cached_empty (mkdate 2018 1 8) (mkdate 2018 1 1)).
Proof.
  refine (proj1 (proj2 (proj1 (mapping_methods_agree
            (__init__ (mkdate 2018 1 8) (mkdate 2018 1 1)) ∅
            (cached_empty (mkdate 2018 1 8) (mkdate 2018 1 1))
            eq_refl eq_refl _ _) (mkdate 2018 1 1)))).
  - intros m. discriminate.
  - unfold _holidays. cbn [_holidays_dict __init__].
    rewrite (resolve_reversed (mkdate 2018 1 8) (mkdate 2018 1 1));
      reflexivity.
Defined.

(* ===================================================================== *)
(** * Equality of instances                                              *)
(* ===================================================================== *)

(** The right operand of [==]: an instance of the class, or any other
    object. *)
Inductive pyobj :=
| Instance (j : t)
| Other.

(** [JHoliday.__eq__]; [None] is [NotImplemented]. The tuples of the
    two dates are equal when the dates are, field by field. *)
Definition __eq__ (self : t) (other : pyobj) : option bool :=
  match other with
  | Other => None
  | Instance other =>
      Some (bool_decide ((min_date self, max_date self)
                         = (min_date other, max_date other)))
  end.

(** What a method returns, without the instance. *)
Definition answer {A} (o : outcome (A * t)) : outcome A :=
  do r <- o; Ok r.1.

Section Equality.

Lemma eq_true_iff a b :
  __eq__ a (Instance b) = Some true <-> fresh a = fresh b.
Proof.
  unfold __eq__, fresh, __init__. split.
  - intros [= H]. apply bool_decide_eq_true_1 in H. by injection H as -> ->.
  - intros [= E1 E2]. f_equal. apply bool_decide_eq_true_2. by rewrite E1, E2.
Qed.

Lemma answer_fresh {A} (f : t -> outcome (A * t)) a b :
  f a = f (fresh a) -> f b = f (fresh b) -> fresh a = fresh b ->
  answer (f a) = answer (f b).
Proof. intros -> -> ->. done. Qed.

End Equality.

(** X7. [__eq__] answers [NotImplemented] for an object of another
    class; between instances it compares the two dates of the range and
    nothing else, so it is reflexive, symmetric and transitive, it holds
    between an instance and itself after its dictionary was cached, and
    two equal instances give the same answer to every lookup and the
    same length. *)
Theorem eq_compares_ranges :
  (forall a, __eq__ a Other = None)
  /\ (forall a b,
        __eq__ a (Instance b)
        = Some (bool_decide (min_date a = min_date b
                             /\ max_date a = max_date b)))
  /\ (forall a, __eq__ a (Instance a) = Some true)
  /\ (forall a b, __eq__ a (Instance b) = __eq__ b (Instance a))
  /\ (forall a b c,
        __eq__ a (Instance b) = Some true ->
        __eq__ b (Instance c) = Some true ->
        __eq__ a (Instance c) = Some true)
  /\ (forall a m a', _holidays a = Ok (m, a') ->
                     __eq__ a (Instance a') = Some true)
  /\ (forall a b,
        coherent a -> coherent b -> __eq__ a (Instance b) = Some true ->
        (forall key,
           answer (__contains__ a key) = answer (__contains__ b key)
           /\ answer (get a key) = answer (get b key)
           /\ answer (__getitem__ a key) = answer (__getitem__ b key))
        /\ answer (__len__ a) = answer (__len__ b)).
Proof.
  split; [done|]. split.
  { intros a b. cbn [__eq__]. f_equal. apply bool_decide_ext. split.
    - by intros [= -> ->].
    - by intros [-> ->]. }
  split; [intros a; by apply eq_true_iff|]. split.
  { intros a b. cbn [__eq__]. f_equal. apply bool_decide_ext.
    split; by intros [= -> ->]. }
  split.
  { intros a b c H1%eq_true_iff H2%eq_true_iff. apply eq_true_iff.
    congruence. }
  split.
  { intros a m a' E. apply eq_true_iff.
    destruct (holidays_cached _ _ _ E) as (E1 & E2 & _).
    unfold fresh. by rewrite E1, E2. }
  intros a b Ha Hb E%eq_true_iff.
  assert (_holidays a = _holidays (fresh a)) as Ea
    by (by apply holidays_coherent).
  assert (_holidays b = _holidays (fresh b)) as Eb
    by (by apply holidays_coherent).
  split; [intros key; split; [|split]|].
  - apply (answer_fresh (fun j => __contains__ j key)); [..|done];
      unfold __contains__; congruence.
  - apply (answer_fresh (fun j => get j key)); [..|done];
      unfold get; congruence.
  - apply (answer_fresh (fun j => __getitem__ j key)); [..|done];
      unfold __getitem__; congruence.
  - apply (answer_fresh __len__); [..|done]; unfold __len__; congruence.
Qed.

Lemma eq_compares_ranges_witness :
  __eq__ (__init__ (mkdate 2018 1 1) (mkdate 2018 12 31))
    (Instance (cached_empty (mkdate 2018 1 1) (mkdate 2018 12 31)))
  = Some true.
Proof.
  apply (proj1 (proj2 (proj2 (proj2 (proj2 eq_compares_ranges))))
           (__init__ (mkdate 2018 1 1) (mkdate 2018 12 31))
           (__init__ (mkdate 2018 1 1) (mkdate 2018 12 31))
           (cached_empty (mkdate 2018 1 1) (mkdate 2018 12 31)));
    reflexivity.
Defined.

(* ===================================================================== *)
(** * The filter of the events of one year                               *)
(* ===================================================================== *)

(** [itertools.tee(it)]: two iterators over the values of [it]. *)
Definition tee {A} (it : gen A) : gen A * gen A := (it, it).

(** [itertools.compress(data, selectors)]: the next of [data] is taken
    first, then the next of [selectors]; either end is the end. *)
Fixpoint compress {A} (data : gen A) (selectors : gen bool) : gen A :=
  match data with
  | Return o => Return o
  | Yield a data =>
      match selectors with
      | Return o => Return o
      | Yield s selectors =>
          if s then Yield a (compress data selectors)
          else compress data selectors
      end
  end.

(** [_holidays_filter] as it is written, with [tee], [map] and
    [compress]. *)
Definition _holidays_filter_tee (it : gen (date * string))
  (min_date max_date : date) : gen (date * string) :=
  let '(it1, it2) := tee it in
  let dates := gen_map fst it1 in
  let selectors :=
    gen_map (fun d => (min_date <=?d d) && (d <=?d max_date)) dates in
  compress it2 selectors.

Section HolidaysFilter.

Lemma compress_gen_map {A} (p : A -> bool) (it : gen A) :
  compress it (gen_map p it) = gen_filter p it.
Proof.
  induction it as [o|a it IH]; cbn [gen_map compress gen_filter]; [done|].
  by rewrite IH.
Qed.

Lemma gen_map_gen_map {A B C} (f : A -> B) (g : B -> C) (it : gen A) :
  gen_map g (gen_map f it) = gen_map (fun a => g (f a)) it.
Proof. induction it as [o|a it IH]; cbn [gen_map]; [done|]. by rewrite IH. Qed.

(** X8. The pipeline of [_holidays_filter] ([tee], two [map]s and
    [compress]) is the filter that keeps the pairs whose date [d] has
    [min_date <= d <= max_date], and ends as its argument ends; so
    [special] always runs to its end, and yields the events of
    [_special] with a date of the range, in their order. *)
Theorem holidays_filter_is_filter :
  (forall it min_date max_date,
     _holidays_filter_tee it min_date max_date
     = _holidays_filter it min_date max_date)
  /\ (forall it min_date max_date,
        ending (_holidays_filter it min_date max_date) = ending it
        /\ forall p,
             p ∈ yielded (_holidays_filter it min_date max_date) <->
             p ∈ yielded it /\ min_date <=d p.1 /\ p.1 <=d max_date)
  /\ (forall self,
        ending (special self) = Ok tt
        /\ yielded (special self)
           = filter (fun p => in_range self p.1) (yielded _special)).
Proof.
  split; [|split].
  - intros it lo hi. unfold _holidays_filter_tee, tee, _holidays_filter.
    rewrite gen_map_gen_map. apply compress_gen_map.
  - intros it lo hi. unfold _holidays_filter.
    rewrite ending_gen_filter. split; [done|]. intros p.
    rewrite yielded_gen_filter, list_elem_of_filter, Is_true_true.
    rewrite andb_true_iff. unfold Date.le. tauto.
  - intros self. unfold special, _holidays_filter.
    rewrite ending_gen_filter, yielded_gen_filter. split; [done|].
    apply list_filter_iff. intros p. rewrite Is_true_true, andb_true_iff.
    unfold in_range, Date.le. tauto.
Qed.

End HolidaysFilter.

(* ===================================================================== *)
(** * The filter of a half-open range                                    *)
(* ===================================================================== *)

(** [filter(lambda date: min_date <= date < max_date, it)] *)
Definition _dates_filter (it : gen date) (min_date max_date : date)
  : gen date :=
  gen_filter (fun d => (min_date <=?d d) && (d <?d max_date)) it.

(** X9. [_dates_filter] keeps the dates [d] with
    [min_date <= d < max_date] and reads its argument to the end: on a
    stream of [_iter_dates] it ends with the [ValueError] of the stream,
    where [_sorted_dates_filter] stops at the first date past
    [max_date]; on a sorted stream it yields what
    [_sorted_dates_filter] yields, without [max_date] itself. *)
Theorem dates_filter_half_open :
  forall it min_date max_date,
  ending (_dates_filter it min_date max_date) = ending it
  /\ (forall d, d ∈ yielded (_dates_filter it min_date max_date) <->
                d ∈ yielded it /\ min_date <=d d /\ d <d max_date)
  /\ (forall month day,
        c_int month -> c_int day ->
        ending (_dates_filter (_iter_dates month day) min_date max_date)
        = Raises ValueError)
  /\ (StronglySorted Date.lt (yielded it) ->
      yielded (_dates_filter it min_date max_date)
      = filter (fun d => d <> max_date)
          (yielded (_sorted_dates_filter it (Some min_date)
                      (Some max_date)))).
Proof.
  intros it lo hi. unfold _dates_filter.
  rewrite yielded_gen_filter. split; [apply ending_gen_filter|].
  split; [|split].
  - intros d. rewrite list_elem_of_filter, Is_true_true, andb_true_iff.
    unfold Date.le, Date.lt. tauto.
  - intros m d _ _. rewrite ending_gen_filter. apply ending_iter_dates.
  - intros Hs. rewrite yielded_sorted_dates_filter by done.
    rewrite list_filter_filter. apply list_filter_iff. intros d.
    unfold within. rewrite !Is_true_true, !andb_true_iff.
    split.
    + intros [H1 H2]. split; [|split; [done|by apply lt_le]].
      intros ->. by apply lt_irrefl in H2.
    + intros [Hne [H1 H2]]. split; [done|].
      destruct (d <?d hi) eqn:E; [done|]. apply ltb_false in E.
      exfalso. apply Hne. by apply le_antisym.
Qed.

Lemma dates_filter_half_open_witness :
  yielded (_dates_filter (Yield (mkdate 2018 1 1)
                            (Yield (mkdate 2018 1 8) Stop))
             (mkdate 2018 1 1) (mkdate 2018 1 8))
  = filter (fun d => d <> mkdate 2018 1 8)
      (yielded (_sorted_dates_filter
                  (Yield (mkdate 2018 1 1) (Yield (mkdate 2018 1 8) Stop))
                  (Some (mkdate 2018 1 1)) (Some (mkdate 2018 1 8)))).
Proof.
  apply (proj2 (proj2 (proj2 (dates_filter_half_open
           (Yield (mkdate 2018 1 1) (Yield (mkdate 2018 1 8) Stop))
           (mkdate 2018 1 1) (mkdate 2018 1 8))))).
  cbn [yielded]. repeat constructor.
Defined.

(* ===================================================================== *)
(** * Where a derived holiday comes from                                 *)
(* ===================================================================== *)

(** [k] is the day given for the holiday [d] that fell on a Sunday: the
    days between them are holidays, and before 2007 there is none. *)
Definition substitute_of (holidays : hdict) (d k : date) : Prop :=
  DATE_02 <=d d /\ weekday d = 6 /\ d <d k
  /\ (forall x, valid x -> d <d x -> x <d k -> is_Some (holidays !! x))
  /\ (d <d DATE_07 -> toordinal k = toordinal d + 1).

(** [k] is the day after the holiday [d] and before a holiday. *)
Definition between_holidays (holidays : hdict) (d k : date) : Prop :=
  DATE_03 <=d d /\ toordinal k = toordinal d + 1 /\ weekday k <> 6
  /\ exists two,
       valid two /\ toordinal two = toordinal d + 2
       /\ is_Some (holidays !! two).

Section DerivedCause.
Implicit Types (holidays : hdict).

Lemma skip_holidays_sound holidays : forall fuel start r,
  valid start -> skip_holidays fuel holidays start = Ok r ->
  forall x, valid x -> start <=d x -> x <d r -> mem x holidays = true.
Proof.
  induction fuel as [|fuel IH]; intros start r Hs; [done|].
  cbn [skip_holidays]. destruct (mem start holidays) eqn:M.
  - destruct (add_days start 1) as [s'| |] eqn:E; cbn [obind]; [|done..].
    apply add_days_Ok in E as [Hs' Es']; [|done].
    intros Hr x Hx Hle Hlt.
    destruct (decide (x = start)) as [->|Hne]; [done|].
    apply (IH s' r Hs' Hr x Hx); [|done].
    apply toordinal_le_iff in Hle; [|done..].
    apply toordinal_le_iff; [done..|].
    assert (toordinal x <> toordinal start)
      by (intros ?; apply Hne; by apply toordinal_inj).
    lia.
  - intros [= <-] x Hx Hle Hlt. exfalso. by apply lt_not_le in Hlt.
Qed.

Lemma next_day_no_between d one x :
  valid d -> valid one -> valid x -> toordinal one = toordinal d + 1 ->
  d <d x -> x <d one -> False.
Proof.
  intros Hd Ho Hx E H1 H2.
  apply toordinal_lt_iff in H1, H2; [|done..]. lia.
Qed.

Lemma sandwich_cause max_date holidays d k v :
  valid d -> (k, v) ∈ yielded (sandwich max_date holidays d) ->
  v = kokuminno /\ toordinal k = toordinal d + 1 /\ weekday k <> 6
  /\ exists two,
       valid two /\ toordinal two = toordinal d + 2
       /\ is_Some (holidays !! two).
Proof.
  intros Hd. unfold sandwich.
  destruct (add_days d 2) as [two| |] eqn:E2; cbn [gstart yielded];
    [|by intros ?%elem_of_nil..].
  destruct (mem two holidays) eqn:M2; [|by intros ?%elem_of_nil].
  destruct (add_days d 1) as [one| |] eqn:E1; cbn [gstart yielded];
    [|by intros ?%elem_of_nil..].
  destruct (negb (mem one holidays) && negb (weekday one =? 6)
            && (one <=?d max_date)) eqn:C; [|by intros ?%elem_of_nil].
  intros [= -> ->]%list_elem_of_singleton.
  apply add_days_Ok in E1 as [_ E1]; [|done].
  apply add_days_Ok in E2 as [V2 E2]; [|done].
  rewrite !andb_true_iff, !negb_true_iff, Z.eqb_neq in C.
  destruct C as [[_ C] _]. split; [done|]. split; [done|]. split; [done|].
  exists two. split; [done|]. split; [done|]. by apply mem_true.
Qed.

(** The day after a Sunday holiday, in the eras before 2007. *)
Lemma next_day_cause max_date holidays d k v rest :
  valid d -> DATE_02 <=d d -> d <d DATE_07 -> weekday d = 6 ->
  (k, v) ∈ yielded
    (gstart (add_days d 1) (fun one =>
       if negb (mem one holidays) && (one <=?d max_date)
       then Yield (one, furikae) Stop else rest)) ->
  (v = furikae /\ substitute_of holidays d k) \/ (k, v) ∈ yielded rest.
Proof.
  intros Hd H2 H7 Hw.
  destruct (add_days d 1) as [one| |] eqn:E1; cbn [gstart yielded];
    [|by intros ?%elem_of_nil..].
  destruct (negb (mem one holidays) && (one <=?d max_date)); [|by right].
  intros [= -> ->]%list_elem_of_singleton. left. split; [done|].
  destruct (add_days_1_lt _ _ Hd E1) as [Vo Hlt].
  apply add_days_Ok in E1 as [_ E1]; [|done].
  repeat split; try done.
  intros x Hx Hdx Hxo. exfalso.
  by apply (next_day_no_between d one x).
Qed.

Lemma kokuminnokyujitsu_body_cause max_date holidays d k v :
  valid d ->
  (k, v) ∈ yielded (kokuminnokyujitsu_body max_date holidays d) ->
  is_Some (holidays !! d)
  /\ ((v = furikae /\ substitute_of holidays d k)
      \/ (v = kokuminno /\ between_holidays holidays d k)).
Proof.
  intros Hd. unfold kokuminnokyujitsu_body.
  destruct (d <?d DATE_02) eqn:L2; [by intros ?%elem_of_nil|].
  apply ltb_false in L2.
  destruct (d <?d DATE_03) eqn:L3.
  { (* from 1973-04-12 *)
    destruct (mem d holidays) eqn:M; [|by intros ?%elem_of_nil].
    apply mem_true in M.
    destruct (weekday d =? 6) eqn:W; [|by intros ?%elem_of_nil].
    apply Z.eqb_eq in W. intros H. split; [done|].
    apply (next_day_cause max_date holidays d k v Stop) in H
      as [H|H%elem_of_nil]; try done; [by left|].
    apply (lt_trans _ DATE_03); [done|reflexivity]. }
  apply ltb_false in L3.
  assert (forall k v,
    (k, v) ∈ yielded (sandwich max_date holidays d) ->
    v = kokuminno /\ between_holidays holidays d k) as Hsw.
  { intros k' v' (? & ? & ? & ?)%sandwich_cause; [|done].
    by repeat split. }
  destruct (d <?d DATE_07) eqn:L7.
  { (* from 1985-12-27 *)
    destruct (mem d holidays) eqn:M; [|by intros ?%elem_of_nil].
    apply mem_true in M. intros H. split; [done|].
    destruct (weekday d =? 6) eqn:W; [|right; by apply Hsw].
    apply Z.eqb_eq in W.
    apply (next_day_cause max_date holidays d k v) in H as [H|H];
      try done; [by left|right; by apply Hsw]. }
  (* from 2007-01-01 *)
  apply ltb_false in L7.
  destruct (mem d holidays) eqn:M; [|by intros ?%elem_of_nil].
  apply mem_true in M. intros H. split; [done|].
  destruct (weekday d =? 6) eqn:W; [|right; by apply Hsw].
  apply Z.eqb_eq in W.
  destruct (add_days d 1) as [one| |] eqn:E1; cbn [obind gstart yielded] in H;
    [|by apply elem_of_nil in H..].
  destruct (add_days_1_lt _ _ Hd E1) as [Vo Hlt].
  apply add_days_Ok in E1 as [_ E1]; [|done].
  destruct (skip_holidays (S (size holidays)) holidays one) as [r| |] eqn:S;
    cbn [gstart yielded] in H; [|by apply elem_of_nil in H..].
  destruct (r <=?d max_date); [|right; by apply Hsw].
  apply list_elem_of_singleton in H. injection H as -> ->.
  left. split; [done|].
  destruct (skip_holidays_ge _ _ _ _ Vo S) as [Vr Hor].
  split; [done|]. split; [done|]. split; [by apply (lt_le_trans _ one)|].
  split.
  - intros x Hx Hdx Hxk. apply mem_true.
    apply (skip_holidays_sound _ _ _ _ Vo S x Hx); [|done].
    apply toordinal_lt_iff in Hdx; [|done..].
    apply toordinal_le_iff; [done..|]. lia.
  - intros Hlt7. exfalso. by apply lt_not_le in Hlt7.
Qed.

End DerivedCause.

(** X10. Every pair that [kokuminnokyujitsu] yields has a cause in the
    dictionary it was given: its date [k] is no key of the dictionary
    and not after [max_date], and there is a holiday [d] of the range
    such that either the name is 振替休日, [d] is a Sunday from 1973-04-12
    on, every day between [d] and [k] is a holiday, and before 2007 [k]
    is the day after [d]; or the name is 国民の休日, [d] is from 1985-12-27
    on, [k] is the day after [d], not a Sunday, and the day after [k] is
    a holiday. *)
Theorem derived_holiday_has_cause :
  forall self holidays k v,
  valid (min_date self) -> valid (max_date self) ->
  (k, v) ∈ yielded (kokuminnokyujitsu self holidays) ->
  valid k /\ holidays !! k = None /\ k <=d max_date self
  /\ exists d,
       valid d /\ in_range self d /\ is_Some (holidays !! d)
       /\ ((v = furikae /\ substitute_of holidays d k)
           \/ (v = kokuminno /\ between_holidays holidays d k)).
Proof.
  intros self holidays k v Hmin Hmax Hp.
  pose proof (kokuminnokyujitsu_fresh _ _ _ _ Hp) as Hfresh.
  apply elem_of_gen_for_inv in Hp as (d & Hd & Hp).
  rewrite yielded_iter_all_dates in Hd by done.
  apply elem_of_days_of in Hd as (Hvd & Hlo & Hhi); [|done..].
  destruct (kokuminnokyujitsu_body_range _ _ _ _ _ Hvd Hp) as (Vk & _ & Hk).
  destruct (kokuminnokyujitsu_body_cause _ _ _ _ _ Hvd Hp) as [Hin Hc].
  split; [done|]. split; [done|]. split; [done|].
  exists d. by repeat split.
Qed.

Lemma derived_holiday_has_cause_witness :
  exists d,
    valid d /\ in_range j2018 d /\ is_Some (base_2018 !! d)
    /\ (("振替休日"%string = furikae
         /\ substitute_of base_2018 d (mkdate 2018 2 12))
        \/ ("振替休日"%string = kokuminno
            /\ between_holidays base_2018 d (mkdate 2018 2 12))).
Proof.
  refine (proj2 (proj2 (proj2 (derived_holiday_has_cause j2018 base_2018
            (mkdate 2018 2 12) "振替休日"%string eq_refl eq_refl _)))).
  apply (bool_decide_unpack _). vm_compute. exact I.
Defined.

(* ===================================================================== *)
(** * The holidays of a fixed day                                        *)
(* ===================================================================== *)

(** The generators of one rule: the month, the day, the date from which
    the rule holds, and the name. *)
Definition fixed_holidays (self : t)
  : list (gen (date * string) * (Z * Z * date * string)) :=
  [ (ganjitsu self, (1, 1, DATE_00, "元日"%string));
    (kenkokukinennohi self, (2, 11, DATE_KE, "建国記念の日"%string));
    (showanohi self, (4, 29, DATE_07, "昭和の日"%string));
    (kenpokinenbi self, (5, 3, DATE_00, "憲法記念日"%string));
    (kodomonohi self, (5, 5, DATE_00, "こどもの日"%string));
    (bunkanohi self, (11, 3, DATE_00, "文化の日"%string));
    (kinrokanshanohi self, (11, 23, DATE_00, "勤労感謝の日"%string)) ].

Section FixedHolidays.
Context (self : t).

Lemma fixed_rule m dd since h d h' :
  1 <= m <= 12 -> 1 <= dd <= _DAYS_IN_MONTH m ->
  (d, h') ∈ yielded (named h (_sorted_dates_filter (iter_dates self m dd)
                                (Some since) None)) <->
  h' = h /\ month d = m /\ day d = dd /\ 1948 <= year d <= 9999
  /\ since <=d d /\ in_range self d.
Proof.
  intros Hm Hd. unfold iter_dates. cbv zeta.
  rewrite (elem_of_yielded_era self h _ (fixed_day m dd))
    by (by apply yearly_iter_dates).
  cbn [fst snd]. unfold fixed_day. split.
  - intros (-> & y & Hy & -> & Hw & Hr). cbn [year month day].
    apply within_spec in Hw as [Hw _]. done.
  - intros (-> & <- & <- & Hy & Hs & Hr). split; [done|].
    exists (year d). destruct d as [y m' d']. cbn [year month day] in *.
    split; [done|]. split; [done|]. split; [|done].
    apply within_spec. done.
Qed.

End FixedHolidays.

(** X11. Each of 元日, 建国記念の日, 昭和の日, 憲法記念日, こどもの日,
    文化の日 and 勤労感謝の日 yields, under its name, exactly the dates
    of its month and day, of the years from 1948 to 9999, that are not
    before the date from which its rule holds and lie in the range. *)
Theorem fixed_date_holidays :
  forall self g m dd since h,
  (g, (m, dd, since, h)) ∈ fixed_holidays self ->
  forall d h',
  (d, h') ∈ yielded g <->
  h' = h /\ month d = m /\ day d = dd /\ 1948 <= year d <= 9999
  /\ since <=d d /\ in_range self d.
Proof.
  intros self g m dd since h. unfold fixed_holidays.
  rewrite !elem_of_cons, elem_of_nil.
  intros H d h'.
  repeat (destruct H as [[= -> -> -> -> ->]|H];
          [apply fixed_rule; cbn; lia|]).
  destruct H.
Qed.

Lemma fixed_date_holidays_witness :
  (mkdate 1948 11 3, "文化の日"%string)
  ∈ yielded (bunkanohi (__init__ DATE_00 (mkdate 2150 12 31))).
Proof.
  apply (proj2 (fixed_date_holidays (__init__ DATE_00 (mkdate 2150 12 31))
                  (bunkanohi (__init__ DATE_00 (mkdate 2150 12 31)))
                  11 3 DATE_00 "文化の日"%string
                  ltac:(do 5 (apply elem_of_cons; right);
                        apply elem_of_cons; by left)
                  (mkdate 1948 11 3) "文化の日"%string)).
  repeat split; try reflexivity; cbn; lia.
Defined.

(* ===================================================================== *)
(** * The holidays of a Monday                                           *)
(* ===================================================================== *)

(** The generators with a rule of the [n]-th Monday of a month: the
    month, [n], the date from which that rule holds, and the day of the
    month of the rule before, when there is one. *)
Definition monday_holidays (self : t)
  : list (gen (date * string) * (Z * Z * date * option Z)) :=
  [ (seijinnohi self, (1, 2, DATE_HM, Some 15));
    (uminohi self, (7, 3, DATE_06, Some 20));
    (keironohi self, (9, 3, DATE_06, Some 15));
    (taikunohi self, (10, 2, DATE_HM, Some 10));
    (supotsunohi self, (10, 2, DATE_09, None)) ].

Section MondayHolidays.
Context (self : t).

Lemma weekday_nth_monday m n y : weekday (nth_monday m n y) = 0.
Proof.
  unfold nth_monday, weekday.
  rewrite (toordinal_same_month y m 1).
  set (o := toordinal (mkdate y m 1)). zdiv.
Qed.

Lemma day_nth_monday m n y :
  7 * n - 6 <= day (nth_monday m n y) <= 7 * n.
Proof.
  unfold nth_monday. cbn [day].
  pose proof (Z.mod_pos_bound (7 - weekday (mkdate y m 1)) 7 ltac:(lia)).
  lia.
Qed.

(** A date of the rule of the Monday, and a date of the rule before. *)
Definition monday_rule (m n : Z) (d : date) : Prop :=
  weekday d = 0 /\ month d = m /\ 7 * n - 6 <= day d <= 7 * n.

Lemma monday_rule_nth_monday m n y : monday_rule m n (nth_monday m n y).
Proof.
  split; [apply weekday_nth_monday|]. split; [done|apply day_nth_monday].
Qed.

Ltac monday_cases :=
  unfold_holiday; intros H; pairs_facts;
  repeat match goal with
    | E : ?p.1 = _ |- _ => destruct p; cbn [fst snd] in *; subst
    | E : ?p = (_, _) |- _ => subst p; cbn [fst snd] in *
    end.

Lemma monday_seijinnohi p :
  p ∈ yielded (seijinnohi self) ->
  (p.1 <d DATE_HM -> month p.1 = 1 /\ Some 15 = Some (day p.1))
  /\ (DATE_HM <=d p.1 -> monday_rule 1 2 p.1).
Proof.
  monday_cases; (split; [intros Hlt|intros Hge]);
    try apply monday_rule_nth_monday; try done; exfalso;
    try apply ltb_spec in Hlt; window_arith.
Qed.

Lemma monday_keironohi p :
  p ∈ yielded (keironohi self) ->
  (p.1 <d DATE_06 -> month p.1 = 9 /\ Some 15 = Some (day p.1))
  /\ (DATE_06 <=d p.1 -> monday_rule 9 3 p.1).
Proof.
  monday_cases; (split; [intros Hlt|intros Hge]);
    try apply monday_rule_nth_monday; try done; exfalso;
    try apply ltb_spec in Hlt; window_arith.
Qed.

Lemma monday_taikunohi p :
  p ∈ yielded (taikunohi self) ->
  (p.1 <d DATE_HM -> month p.1 = 10 /\ Some 10 = Some (day p.1))
  /\ (DATE_HM <=d p.1 -> monday_rule 10 2 p.1).
Proof.
  monday_cases; (split; [intros Hlt|intros Hge]);
    try apply monday_rule_nth_monday; try done; exfalso;
    try apply ltb_spec in Hlt; window_arith.
Qed.

Lemma monday_uminohi p :
  p ∈ yielded (uminohi self) -> p.1 <> mkdate 2020 7 23 ->
  (p.1 <d DATE_06 -> month p.1 = 7 /\ Some 20 = Some (day p.1))
  /\ (DATE_06 <=d p.1 -> monday_rule 7 3 p.1).
Proof.
  monday_cases; intros Hne; try done;
    (split; [intros Hlt|intros Hge]);
    try apply monday_rule_nth_monday; try done; exfalso;
    try apply ltb_spec in Hlt; window_arith.
Qed.

Lemma monday_supotsunohi p :
  p ∈ yielded (supotsunohi self) -> p.1 <> mkdate 2020 7 24 ->
  (p.1 <d DATE_09 -> month p.1 = 10 /\ None = Some (day p.1))
  /\ (DATE_09 <=d p.1 -> monday_rule 10 2 p.1).
Proof.
  monday_cases; intros Hne; try done;
    (split; [intros Hlt|intros Hge]);
    try apply monday_rule_nth_monday; try done; exfalso;
    try apply ltb_spec in Hlt; window_arith.
Qed.

End MondayHolidays.

(** X12. The dates of 成人の日, 海の日, 敬老の日, 体育の日 and
    スポーツの日: from the date of its rule of the Monday on, each but
    the two dates of 2020-07-23 and 2020-07-24 is a Monday, the [n]-th
    of the month of the holiday (a day from [7n - 6] to [7n]); each date
    before is the fixed day of the rule before (スポーツの日 has none). *)
Theorem monday_holidays_on_monday :
  forall self g m n since old,
  (g, (m, n, since, old)) ∈ monday_holidays self ->
  forall d h,
  (d, h) ∈ yielded g ->
  d <> mkdate 2020 7 23 -> d <> mkdate 2020 7 24 ->
  (d <d since -> month d = m /\ old = Some (day d))
  /\ (since <=d d ->
      weekday d = 0 /\ month d = m /\ 7 * n - 6 <= day d <= 7 * n).
Proof.
  intros self g m n since old. unfold monday_holidays.
  rewrite !elem_of_cons, elem_of_nil.
  intros H d h Hp N1 N2.
  destruct H as [[= -> -> -> -> ->]|H];
    [exact (monday_seijinnohi self _ Hp)|].
  destruct H as [[= -> -> -> -> ->]|H];
    [exact (monday_uminohi self _ Hp N1)|].
  destruct H as [[= -> -> -> -> ->]|H];
    [exact (monday_keironohi self _ Hp)|].
  destruct H as [[= -> -> -> -> ->]|H];
    [exact (monday_taikunohi self _ Hp)|].
  destruct H as [[= -> -> -> -> ->]|[]].
  exact (monday_supotsunohi self _ Hp N2).
Qed.

Lemma monday_holidays_on_monday_witness :
  weekday (mkdate 2018 1 8) = 0 /\ month (mkdate 2018 1 8) = 1
  /\ 7 * 2 - 6 <= day (mkdate 2018 1 8) <= 7 * 2.
Proof.
  refine (proj2 (monday_holidays_on_monday j2018 (seijinnohi j2018)
                   1 2 DATE_HM (Some 15) _ (mkdate 2018 1 8) "成人の日"%string
                   _ _ _) _).
  - apply elem_of_cons. by left.
  - apply (bool_decide_unpack _). vm_compute. exact I.
  - discriminate.
  - discriminate.
  - reflexivity.
Defined.

(* ===================================================================== *)
(** * The days of the vernal equinox                                     *)
(* ===================================================================== *)

(** The date of the anchor of 2018 stepped back [k] times, and of the
    anchor of the forward sweep, one step after 2018, stepped forward
    [k] times. *)
Definition vernal_back (k : nat) : outcome date :=
  do a <- DateTime.new 2018 3 21 1 15;
  do a <- DateTime.add a (- DateTime.minutes 8);
  do x <- stepped a (- delta) k;
  Ok (DateTime.date x).

Definition vernal_forward (k : nat) : outcome date :=
  do a <- DateTime.new 2018 3 21 1 15;
  do a <- DateTime.add a (- DateTime.minutes 8);
  do a <- DateTime.add a (DateTime.minutes (8 + 4));
  do a <- DateTime.add a delta;
  do x <- stepped a delta k;
  Ok (DateTime.date x).

Section Sweeps.
Implicit Types (go emit : date -> bool) (dt : DateTime.datetime).

Lemma stepped_wf dt step : forall k x,
  wf_datetime dt -> stepped dt step k = Ok x ->
  wf_datetime x /\ DateTime.instant x = DateTime.instant dt + Z.of_nat k * step.
Proof.
  intros k. revert dt. induction k as [|k IH]; intros dt x Hwf;
    cbn [stepped].
  - intros [= <-]. split; [done|lia].
  - destruct (DateTime.add dt step) as [dt'| |] eqn:E; cbn [obind];
      [|done..].
    destruct (add_Ok _ _ _ Hwf E) as [Hwf' Ei]. intros Hx.
    destruct (IH dt' x Hwf' Hx) as [? ->]. split; [done|]. lia.
Qed.

Lemma instant_bounds dt :
  wf_datetime dt ->
  DateTime.DAY_US <= DateTime.instant dt
  < (MAXORDINAL + 1) * DateTime.DAY_US.
Proof.
  intros [Hv Hus]. pose proof (toordinal_bounds _ Hv).
  unfold DateTime.instant, DateTime.DAY_US in *. lia.
Qed.

(** No instant can be stepped a year as often as the loops have fuel. *)
Lemma stepped_lt_fuel dt step k x :
  wf_datetime dt -> step = delta \/ step = - delta ->
  stepped dt step k = Ok x -> (k < YEARS)%nat.
Proof.
  intros Hwf Hs Hk. destruct (stepped_wf _ _ _ _ Hwf Hk) as [Hwf' Ei].
  pose proof (instant_bounds _ Hwf). pose proof (instant_bounds _ Hwf').
  unfold YEARS. unfold delta, DateTime.DAY_US, MAXORDINAL in *.
  destruct Hs as [->| ->]; lia.
Qed.

Lemma stepped_trajectory dt step : forall k n x,
  stepped dt step k = Ok x -> (k < n)%nat ->
  DateTime.date x ∈ trajectory dt step n.
Proof.
  intros k. revert dt. induction k as [|k IH]; intros dt n x;
    (destruct n as [|n]; [lia|]); cbn [stepped trajectory].
  - intros [= <-] _. apply elem_of_cons. by left.
  - destruct (DateTime.add dt step) as [dt'| |]; cbn [obind]; [|done..].
    intros Hx Hk. apply elem_of_cons. right. apply (IH dt'); [done|lia].
Qed.

Lemma trajectory_stepped dt step : forall n d,
  d ∈ trajectory dt step n ->
  exists k x, stepped dt step k = Ok x /\ d = DateTime.date x.
Proof.
  intros n. revert dt. induction n as [|n IH]; intros dt d;
    cbn [trajectory]; [by intros ?%elem_of_nil|].
  intros [->|H]%elem_of_cons.
  - by exists 0%nat, dt.
  - destruct (DateTime.add dt step) as [dt'| |] eqn:E;
      [|by apply elem_of_nil in H..].
    destruct (IH dt' d H) as (k & x & Hk & ->).
    exists (S k), x. cbn [stepped]. by rewrite E.
Qed.

(** A loop towards the past that goes on while the date is not before
    [lo] yields every date of its trajectory that is not before [lo]
    and passes [emit]. *)
Lemma equinox_loop_back lo emit h : forall fuel dt d,
  wf_datetime dt -> d ∈ trajectory dt (- delta) fuel ->
  lo <=d d -> emit d = true ->
  (d, h) ∈ yielded (equinox_loop fuel (fun x => lo <=?d x) emit
                      (- delta) h dt).
Proof.
  induction fuel as [|fuel IH]; intros dt d Hwf Hd Hlo He;
    [by apply elem_of_nil in Hd|].
  assert (lo <=d DateTime.date dt) as Hgo.
  { apply (le_trans _ d); [done|].
    apply (trajectory_le dt (- delta) (S fuel)); [done| |done].
    pose proof delta_pos. lia. }
  cbn [equinox_loop trajectory] in *. rewrite Hgo.
  apply elem_of_cons in Hd as [->|Hd].
  - rewrite He. apply elem_of_cons. by left.
  - destruct (DateTime.add dt (- delta)) as [dt'| |] eqn:E;
      [|by apply elem_of_nil in Hd..].
    destruct (add_Ok _ _ _ Hwf E) as [Hwf' _].
    pose proof (IH dt' d Hwf' Hd Hlo He) as Hin. cbn [gstart].
    destruct (emit (DateTime.date dt)); [|done].
    apply elem_of_cons. by right.
Qed.

(** The same towards the future, while the date is before [hi]. *)
Lemma equinox_loop_forward hi emit h : forall fuel dt d,
  wf_datetime dt -> d ∈ trajectory dt delta fuel ->
  d <d hi -> emit d = true ->
  (d, h) ∈ yielded (equinox_loop fuel (fun x => x <?d hi) emit delta h dt).
Proof.
  induction fuel as [|fuel IH]; intros dt d Hwf Hd Hhi He;
    [by apply elem_of_nil in Hd|].
  assert (DateTime.date dt <d hi) as Hgo.
  { apply (le_lt_trans _ d); [|done].
    apply (trajectory_ge dt delta (S fuel)); [done| |done].
    pose proof delta_pos. lia. }
  cbn [equinox_loop trajectory] in *. rewrite Hgo.
  apply elem_of_cons in Hd as [->|Hd].
  - rewrite He. apply elem_of_cons. by left.
  - destruct (DateTime.add dt delta) as [dt'| |] eqn:E;
      [|by apply elem_of_nil in Hd..].
    destruct (add_Ok _ _ _ Hwf E) as [Hwf' _].
    pose proof (IH dt' d Hwf' Hd Hhi He) as Hin. cbn [gstart].
    destruct (emit (DateTime.date dt)); [|done].
    apply elem_of_cons. by right.
Qed.

End Sweeps.

Section VernalDays.
Context (self : t).

(** The four instants of the vernal generator. *)
Lemma vernal_anchors :
  exists a0 a1 a2 a3,
    DateTime.new 2018 3 21 1 15 = Ok a0
    /\ DateTime.add a0 (- DateTime.minutes 8) = Ok a1
    /\ DateTime.add a1 (DateTime.minutes (8 + 4)) = Ok a2
    /\ DateTime.add a2 delta = Ok a3
    /\ wf_datetime a1 /\ wf_datetime a3.
Proof.
  pose proof vernal_forward_fact as F.
  apply obind_Ok in F as (a0 & E0 & F). apply obind_Ok in F as (a1 & E1 & F).
  apply obind_Ok in F as (a2 & E2 & F). apply obind_Ok in F as (a3 & E3 & _).
  pose proof (new_wf _ _ _ _ _ _ E0) as W0.
  destruct (add_Ok _ _ _ W0 E1) as [W1 _].
  destruct (add_Ok _ _ _ W1 E2) as [W2 _].
  destruct (add_Ok _ _ _ W2 E3) as [W3 _].
  exists a0, a1, a2, a3. split; [done|]. split; [done|]. split; [done|].
  split; [done|]. split; done.
Qed.

Lemma vernal_back_stops emit h a0 a1 :
  DateTime.new 2018 3 21 1 15 = Ok a0 ->
  DateTime.add a0 (- DateTime.minutes 8) = Ok a1 ->
  ending (equinox_loop YEARS
            (fun d => max_ DATE_00 (min_date self) <=?d d) emit
            (- delta) h a1) = Ok tt.
Proof.
  intros E0 E1. pose proof vernal_back_fact as B.
  rewrite E0 in B. cbn [obind] in B. rewrite E1 in B. cbn [obind] in B.
  apply obind_Ok in B as (x & Ex & B). apply Ok_inj in B.
  by apply (back_stops self _ _ _ x).
Qed.

End VernalDays.

(** X13. [shunbunnohi] yields, under the name 春分の日, exactly the dates
    [d] with [max(DATE_00, min_date) <= d < max_date] among the dates of
    its instants: the anchor 2018-03-21 01:07 stepped back by 365.242189
    days any number of times, and the instant one step after 2018-03-21
    01:19 stepped forward any number of times. No such date is left out
    wherever the range lies; a date that is [max_date] itself is. *)
Theorem vernal_equinox_days :
  forall self d h,
  (d, h) ∈ yielded (shunbunnohi self) <->
  h = "春分の日"%string
  /\ max_ DATE_00 (min_date self) <=d d /\ d <d max_date self
  /\ exists k, vernal_back k = Ok d \/ vernal_forward k = Ok d.
Proof.
  intros self d h.
  destruct vernal_anchors as (a0 & a1 & a2 & a3 & E0 & E1 & E2 & E3 & W1 & W3).
  unfold vernal_back, vernal_forward, shunbunnohi. cbv zeta.
  rewrite E0. cbn [gstart obind]. rewrite E1. cbn [gstart obind].
  rewrite E2. cbn [gstart obind]. rewrite E3. cbn [gstart obind].
  rewrite yielded_chain, (vernal_back_stops self _ _ a0 a1 E0 E1).
  rewrite elem_of_app. split.
  - intros [H|H]; apply equinox_loop_yields in H as (Hgo & He & -> & Ht);
      (split; [done|]); apply trajectory_stepped in Ht as (k & x & Hk & ->).
    + split; [done|]. split; [done|]. exists k. left. by rewrite Hk.
    + split; [done|]. split; [done|]. exists k. right. by rewrite Hk.
  - intros (-> & Hlo & Hhi & k & [Hk|Hk]).
    + left. apply obind_Ok in Hk as (x & Hk & Hx). apply Ok_inj in Hx.
      subst d. apply equinox_loop_back; try done.
      apply (stepped_trajectory _ _ k); [done|].
      apply (stepped_lt_fuel a1 (- delta) k x); auto.
    + right. apply obind_Ok in Hk as (x & Hk & Hx). apply Ok_inj in Hx.
      subst d. apply equinox_loop_forward; try done.
      apply (stepped_trajectory _ _ k); [done|].
      apply (stepped_lt_fuel a3 delta k x); auto.
Qed.

(* ===================================================================== *)
(** * The equinox days in the calendar                                   *)
(* ===================================================================== *)

Section EquinoxCalendar.
Context (self : t).

Lemma equinox_loop_sublist go emit step h : forall fuel dt,
  yielded (equinox_loop fuel go emit step h dt)
  `sublist_of` (fun d => (d, h)) <$> trajectory dt step fuel.
Proof.
  induction fuel as [|fuel IH]; intros dt; cbn [equinox_loop trajectory];
    [done|].
  destruct (go (DateTime.date dt)); [|apply sublist_nil_l].
  rewrite fmap_cons.
  assert (yielded (gstart (DateTime.add dt step)
                     (equinox_loop fuel go emit step h))
          `sublist_of` (fun d => (d, h))
                       <$> match DateTime.add dt step with
                           | Ok dt0 => trajectory dt0 step fuel
                           | _ => []
                           end) as Hrest.
  { destruct (DateTime.add dt step); cbn [gstart yielded]; [apply IH|done..]. }
  destruct (emit (DateTime.date dt)); cbn [yielded].
  - by apply sublist_skip.
  - by apply sublist_cons.
Qed.

Lemma prefix_is_sublist {A} (l k : list A) :
  l `prefix_of` k -> l `sublist_of` k.
Proof. intros [k' ->]. by apply sublist_inserts_r. Qed.

Lemma fst_named_list (h : string) (l : list date) :
  ((fun d => (d, h)) <$> l).*1 = l.
Proof. induction l as [|d l IH]; [done|]. cbn. by rewrite IH. Qed.

(** What [shunbunnohi] yields is on the two trajectories, in order. *)
Lemma shunbunnohi_sublist a0 a1 a2 a3 :
  DateTime.new 2018 3 21 1 15 = Ok a0 ->
  DateTime.add a0 (- DateTime.minutes 8) = Ok a1 ->
  DateTime.add a1 (DateTime.minutes (8 + 4)) = Ok a2 ->
  DateTime.add a2 delta = Ok a3 ->
  (yielded (shunbunnohi self)).*1
  `sublist_of` trajectory a1 (- delta) YEARS ++ trajectory a3 delta YEARS.
Proof.
  intros E0 E1 E2 E3. unfold shunbunnohi. cbv zeta.
  rewrite E0. cbn [gstart]. rewrite E1. cbn [gstart].
  rewrite E2. cbn [gstart]. rewrite E3. cbn [gstart].
  set (h := "春分の日"%string).
  transitivity ((((fun d => (d, h)) <$> trajectory a1 (- delta) YEARS)
                 ++ ((fun d => (d, h)) <$> trajectory a3 delta YEARS)).*1).
  - apply fmap_sublist.
    etransitivity; [apply prefix_is_sublist, yielded_chain_prefix|].
    apply sublist_app; apply equinox_loop_sublist.
  - by rewrite fmap_app, !fst_named_list.
Qed.

(** What [shubunnohi] yields is on its two trajectories, in order. *)
Lemma shubunnohi_sublist a0 a1 a2 :
  DateTime.new 2018 9 23 10 54 = Ok a0 ->
  DateTime.add a0 (- DateTime.minutes 2) = Ok a1 ->
  DateTime.add a1 delta = Ok a2 ->
  (yielded (shubunnohi self)).*1
  `sublist_of` trajectory a1 (- delta) YEARS ++ trajectory a2 delta YEARS.
Proof.
  intros E0 E1 E2. unfold shubunnohi. cbv zeta.
  rewrite E0. cbn [gstart]. rewrite E1. cbn [gstart].
  rewrite E2. cbn [gstart].
  set (h := "秋分の日"%string).
  transitivity ((((fun d => (d, h)) <$> trajectory a1 (- delta) YEARS)
                 ++ ((fun d => (d, h)) <$> trajectory a2 delta YEARS)).*1).
  - apply fmap_sublist.
    etransitivity; [apply prefix_is_sublist, yielded_chain_prefix|].
    apply sublist_app.
    + destruct (DateTime.date a1 <?d max_date self);
        [apply equinox_loop_sublist|apply sublist_nil_l].
    + destruct (max_ DATE_00 (min_date self) <=?d DateTime.date a2);
        [apply equinox_loop_sublist|apply sublist_nil_l].
  - by rewrite fmap_app, !fst_named_list.
Qed.

(** Two dates a year or more apart. *)
Definition apart (a b : date) : Prop :=
  365 <= Z.abs (toordinal a - toordinal b).

Lemma add_delta_apart dt dt' :
  wf_datetime dt -> DateTime.add dt delta = Ok dt' ->
  toordinal (DateTime.date dt) + 365 <= toordinal (DateTime.date dt').
Proof.
  intros Hwf E. destruct (add_Ok _ _ _ Hwf E) as [Hwf' Ei].
  rewrite !date_instant, Ei by done.
  unfold delta, DateTime.DAY_US. zdiv.
Qed.

Lemma sub_delta_apart dt dt' :
  wf_datetime dt -> DateTime.add dt (- delta) = Ok dt' ->
  toordinal (DateTime.date dt') + 365 <= toordinal (DateTime.date dt).
Proof.
  intros Hwf E. destruct (add_Ok _ _ _ Hwf E) as [Hwf' Ei].
  rewrite !date_instant, Ei by done.
  unfold delta, DateTime.DAY_US. zdiv.
Qed.

Lemma trajectory_forward_apart : forall n dt,
  wf_datetime dt -> StronglySorted apart (trajectory dt delta n).
Proof.
  induction n as [|n IH]; intros dt Hwf; cbn [trajectory]; [constructor|].
  destruct (DateTime.add dt delta) as [dt'| |] eqn:E;
    [|repeat constructor..].
  destruct (add_Ok _ _ _ Hwf E) as [Hwf' _].
  constructor; [by apply IH|]. apply Forall_forall. intros d Hd.
  apply trajectory_ge in Hd as [Vd Hge]; [|done|pose proof delta_pos; lia].
  apply toordinal_le_iff in Hge; [|by apply wf_date|done].
  pose proof (add_delta_apart _ _ Hwf E). unfold apart. lia.
Qed.

Lemma trajectory_backward_apart : forall n dt,
  wf_datetime dt -> StronglySorted apart (trajectory dt (- delta) n).
Proof.
  induction n as [|n IH]; intros dt Hwf; cbn [trajectory]; [constructor|].
  destruct (DateTime.add dt (- delta)) as [dt'| |] eqn:E;
    [|repeat constructor..].
  destruct (add_Ok _ _ _ Hwf E) as [Hwf' _].
  constructor; [by apply IH|]. apply Forall_forall. intros d Hd.
  apply trajectory_le in Hd as [Vd Hle]; [|done|pose proof delta_pos; lia].
  apply toordinal_le_iff in Hle; [|done|by apply wf_date].
  pose proof (sub_delta_apart _ _ Hwf E). unfold apart. lia.
Qed.

(** The two sweeps of a generator, the second from the instant one step
    after the first. *)
Lemma sweeps_apart a b n :
  wf_datetime a -> wf_datetime b ->
  toordinal (DateTime.date a) + 365 <= toordinal (DateTime.date b) ->
  StronglySorted apart (trajectory a (- delta) n ++ trajectory b delta n).
Proof.
  intros Wa Wb Hab. apply StronglySorted_app_2.
  - intros x y Hx Hy.
    apply trajectory_le in Hx as [Vx Hx]; [|done|pose proof delta_pos; lia].
    apply trajectory_ge in Hy as [Vy Hy]; [|done|pose proof delta_pos; lia].
    apply toordinal_le_iff in Hx; [|done|by apply wf_date].
    apply toordinal_le_iff in Hy; [|by apply wf_date|done].
    unfold apart. lia.
  - by apply trajectory_backward_apart.
  - by apply trajectory_forward_apart.
Qed.

Lemma sweeps_valid a b n d :
  wf_datetime a -> wf_datetime b ->
  d ∈ trajectory a (- delta) n ++ trajectory b delta n -> valid d.
Proof.
  intros Wa Wb [H|H]%elem_of_app.
  - by apply trajectory_le in H as [? _]; [|done|pose proof delta_pos; lia].
  - by apply trajectory_ge in H as [? _]; [|done|pose proof delta_pos; lia].
Qed.

Lemma DAYS_IN_MONTH_le_31 m : _DAYS_IN_MONTH m <= 31.
Proof. unfold _DAYS_IN_MONTH. repeat case_match; lia. Qed.

(** Dates of one month, a year or more apart, are of different years. *)
Lemma apart_years (m : Z) (l : list date) :
  StronglySorted apart l ->
  Forall (fun d => valid d /\ month d = m) l ->
  NoDup (year <$> l).
Proof.
  induction 1 as [|x l Hs IH Hx]; intros Hl; cbn [fmap list_fmap];
    [apply NoDup_nil_2|].
  apply Forall_cons in Hl as [[Vx Mx] Hl]. apply NoDup_cons. split; [|auto].
  intros (y & Ey & Hy)%list_elem_of_fmap.
  pose proof (proj1 (Forall_forall _ _) Hx y Hy) as Hap.
  destruct (proj1 (Forall_forall _ _) Hl y Hy) as [Vy My].
  apply valid_spec in Vx as (_ & _ & Dx). apply valid_spec in Vy as (_ & _ & Dy).
  rewrite days_in_month_unfold in Dx, Dy.
  pose proof (DAYS_IN_MONTH_le_31 (month x)).
  pose proof (DAYS_IN_MONTH_le_31 (month y)).
  unfold apart, toordinal, _ymd2ord in Hap. rewrite Ey, Mx, My in Hap.
  destruct ((month x =? 2) && _is_leap (year x)),
    ((month y =? 2) && _is_leap (year y)); lia.
Qed.

Lemma vernal_anchor_dates :
  (do a0 <- DateTime.new 2018 3 21 1 15;
   do a1 <- DateTime.add a0 (- DateTime.minutes 8);
   do a2 <- DateTime.add a1 (DateTime.minutes (8 + 4));
   do a3 <- DateTime.add a2 delta;
   Ok (DateTime.date a1, DateTime.date a3))
  = Ok (mkdate 2018 3 21, mkdate 2019 3 21).
Proof. vm_compute. reflexivity. Qed.

Lemma vernal_calendar_fact :
  (do a0 <- DateTime.new 2018 3 21 1 15;
   do a1 <- DateTime.add a0 (- DateTime.minutes 8);
   do a2 <- DateTime.add a1 (DateTime.minutes (8 + 4));
   do a3 <- DateTime.add a2 delta;
   Ok (forallb (fun d => (month d =? 3) && (17 <=? day d) && (day d <=? 22))
         (trajectory a1 (- delta) YEARS ++ trajectory a3 delta YEARS)))
  = Ok true.
Proof. vm_compute. reflexivity. Qed.

(** The dates of 敬老の日: September 15 until 2002, then the third Monday
    of September. *)
Definition keiro_dateb (d : date) : bool :=
  ((day d =? 15) && (year d <=? 2002))
  || (bool_decide (d = nth_monday 9 3 (year d)) && (2003 <=? year d)).

(** The instants of the autumnal generator are days of September, and
    until the year 4075 none falls on a date of 敬老の日. *)
Lemma autumnal_calendar_fact :
  (do a0 <- DateTime.new 2018 9 23 10 54;
   do a1 <- DateTime.add a0 (- DateTime.minutes 2);
   do a2 <- DateTime.add a1 delta;
   Ok (forallb (fun d => (month d =? 9) && (19 <=? day d) && (day d <=? 25)
                         && ((4075 <? year d) || negb (keiro_dateb d)))
         (trajectory a1 (- delta) YEARS ++ trajectory a2 delta YEARS)))
  = Ok true.
Proof. vm_compute. reflexivity. Qed.

Lemma years_of_fst (g : gen (date * string)) :
  years_of g = year <$> (yielded g).*1.
Proof. unfold years_of. by rewrite <- list_fmap_compose. Qed.

(** A property of every date of the two trajectories holds for what
    [shunbunnohi] yields. *)
Lemma shunbunnohi_forall (P : date -> bool) :
  (do a0 <- DateTime.new 2018 3 21 1 15;
   do a1 <- DateTime.add a0 (- DateTime.minutes 8);
   do a2 <- DateTime.add a1 (DateTime.minutes (8 + 4));
   do a3 <- DateTime.add a2 delta;
   Ok (forallb P (trajectory a1 (- delta) YEARS
                  ++ trajectory a3 delta YEARS)))
  = Ok true ->
  forall p, p ∈ yielded (shunbunnohi self) -> P p.1 = true.
Proof.
  intros F p Hp.
  apply obind_Ok in F as (a0 & E0 & F). apply obind_Ok in F as (a1 & E1 & F).
  apply obind_Ok in F as (a2 & E2 & F). apply obind_Ok in F as (a3 & E3 & F).
  apply Ok_inj in F.
  pose proof (proj1 (List.forallb_forall _ _) F) as G. apply G.
  apply list_elem_of_In.
  apply (elem_of_sublist (yielded (shunbunnohi self)).*1);
    [|by apply (shunbunnohi_sublist a0 a1 a2 a3)].
  apply list_elem_of_fmap. by exists p.
Qed.

Lemma shubunnohi_forall (P : date -> bool) :
  (do a0 <- DateTime.new 2018 9 23 10 54;
   do a1 <- DateTime.add a0 (- DateTime.minutes 2);
   do a2 <- DateTime.add a1 delta;
   Ok (forallb P (trajectory a1 (- delta) YEARS
                  ++ trajectory a2 delta YEARS)))
  = Ok true ->
  forall p, p ∈ yielded (shubunnohi self) -> P p.1 = true.
Proof.
  intros F p Hp.
  apply obind_Ok in F as (a0 & E0 & F). apply obind_Ok in F as (a1 & E1 & F).
  apply obind_Ok in F as (a2 & E2 & F).
  apply Ok_inj in F.
  pose proof (proj1 (List.forallb_forall _ _) F) as G. apply G.
  apply list_elem_of_In.
  apply (elem_of_sublist (yielded (shubunnohi self)).*1);
    [|by apply (shubunnohi_sublist a0 a1 a2)].
  apply list_elem_of_fmap. by exists p.
Qed.

Lemma years_shunbunnohi : NoDup (years_of (shunbunnohi self)).
Proof.
  pose proof vernal_calendar_fact as F. pose proof vernal_anchor_dates as D.
  apply obind_Ok in F as (a0 & E0 & F). apply obind_Ok in F as (a1 & E1 & F).
  apply obind_Ok in F as (a2 & E2 & F). apply obind_Ok in F as (a3 & E3 & F).
  apply Ok_inj in F.
  rewrite E0 in D. cbn [obind] in D. rewrite E1 in D. cbn [obind] in D.
  rewrite E2 in D. cbn [obind] in D. rewrite E3 in D. cbn [obind] in D.
  apply Ok_inj in D.
  pose proof (f_equal fst D) as D1. pose proof (f_equal snd D) as D3.
  cbn [fst snd] in D1, D3. clear D.
  pose proof (new_wf _ _ _ _ _ _ E0) as W0.
  destruct (add_Ok _ _ _ W0 E1) as [W1 _].
  destruct (add_Ok _ _ _ W1 E2) as [W2 _].
  destruct (add_Ok _ _ _ W2 E3) as [W3 _].
  pose proof (proj1 (List.forallb_forall _ _) F) as G. clear F.
  rewrite years_of_fst.
  eapply sublist_NoDup;
    [|apply fmap_sublist; by apply (shunbunnohi_sublist a0 a1 a2 a3)].
  apply (apart_years 3).
  - apply sweeps_apart; [done..|]. rewrite D1, D3. reflexivity.
  - apply Forall_forall. intros d Hd.
    split; [exact (sweeps_valid a1 a3 YEARS d W1 W3 Hd)|].
    apply list_elem_of_In, G in Hd.
    apply andb_true_iff in Hd as [Hd _]. apply andb_true_iff in Hd as [Hd _].
    by apply Z.eqb_eq.
Qed.

Lemma years_shubunnohi : NoDup (years_of (shubunnohi self)).
Proof.
  pose proof autumnal_calendar_fact as F.
  pose proof autumnal_anchor_fact as D.
  apply obind_Ok in F as (a0 & E0 & F). apply obind_Ok in F as (a1 & E1 & F).
  apply obind_Ok in F as (a2 & E2 & F).
  apply Ok_inj in F.
  rewrite E0 in D. cbn [obind] in D. rewrite E1 in D. cbn [obind] in D.
  rewrite E2 in D. cbn [obind] in D.
  apply Ok_inj in D.
  pose proof (f_equal fst D) as D1. pose proof (f_equal snd D) as D2.
  cbn [fst snd] in D1, D2. clear D.
  pose proof (new_wf _ _ _ _ _ _ E0) as W0.
  destruct (add_Ok _ _ _ W0 E1) as [W1 _].
  destruct (add_Ok _ _ _ W1 E2) as [W2 _].
  pose proof (proj1 (List.forallb_forall _ _) F) as G. clear F.
  rewrite years_of_fst.
  eapply sublist_NoDup;
    [|apply fmap_sublist; by apply (shubunnohi_sublist a0 a1 a2)].
  apply (apart_years 9).
  - apply sweeps_apart; [done..|]. rewrite D1, D2. reflexivity.
  - apply Forall_forall. intros d Hd.
    split; [exact (sweeps_valid a1 a2 YEARS d W1 W2 Hd)|].
    apply list_elem_of_In, G in Hd.
    apply andb_true_iff in Hd as [Hd _]. apply andb_true_iff in Hd as [Hd _].
    apply andb_true_iff in Hd as [Hd _].
    by apply Z.eqb_eq.
Qed.

Lemma shunbunnohi_calendar p :
  p ∈ yielded (shunbunnohi self) -> month p.1 = 3 /\ 17 <= day p.1 <= 22.
Proof.
  intros Hp.
  pose proof (shunbunnohi_forall _ vernal_calendar_fact p Hp) as H.
  cbv beta in H. rewrite !andb_true_iff, Z.eqb_eq, !Z.leb_le in H. lia.
Qed.

Lemma shubunnohi_calendar p :
  p ∈ yielded (shubunnohi self) -> month p.1 = 9 /\ 19 <= day p.1 <= 25.
Proof.
  intros Hp.
  pose proof (shubunnohi_forall _ autumnal_calendar_fact p Hp) as H.
  cbv beta in H. apply andb_true_iff in H as [H _].
  rewrite !andb_true_iff, Z.eqb_eq, !Z.leb_le in H. lia.
Qed.

Lemma shubunnohi_not_keiro p :
  year (max_date self) <= 4075 ->
  p ∈ yielded (shubunnohi self) -> keiro_dateb p.1 = false.
Proof.
  intros Hy Hp.
  pose proof (shubunnohi_forall _ autumnal_calendar_fact p Hp) as H.
  cbv beta in H. apply andb_true_iff in H as [_ H].
  assert (year p.1 <= 4075) as Hyp.
  { destruct (bounded_shubunnohi self p Hp) as [_ Hle].
    apply leb_spec in Hle. lia. }
  apply orb_true_iff in H as [H%Z.ltb_lt|H%negb_true_iff]; [lia|done].
Qed.

End EquinoxCalendar.

(** X14. Whatever the range, every date of 春分の日 is a day of March
    from the 17th to the 22nd and every date of 秋分の日 a day of
    September from the 19th to the 25th, and neither generator yields
    two dates of one year. *)
Theorem equinox_once_a_year :
  forall self,
  (forall p, p ∈ yielded (shunbunnohi self) ->
             month p.1 = 3 /\ 17 <= day p.1 <= 22)
  /\ NoDup (years_of (shunbunnohi self))
  /\ (forall p, p ∈ yielded (shubunnohi self) ->
                month p.1 = 9 /\ 19 <= day p.1 <= 25)
  /\ NoDup (years_of (shubunnohi self)).
Proof.
  intros self. split; [apply shunbunnohi_calendar|].
  split; [apply years_shunbunnohi|].
  split; [apply shubunnohi_calendar|apply years_shubunnohi].
Qed.

Lemma equinox_once_a_year_witness :
  month (mkdate 2018 3 21) = 3 /\ 17 <= day (mkdate 2018 3 21) <= 22.
Proof.
  refine (proj1 (equinox_once_a_year j2018)
            (mkdate 2018 3 21, "春分の日"%string) _).
  apply (bool_decide_unpack _). vm_compute. exact I.
Defined.

(* ===================================================================== *)
(** * No date twice in the catalogue                                     *)
(* ===================================================================== *)

(** The place in the catalogue of the one generator that can yield the
    date [d]. *)
Definition owner (d : date) : nat :=
  match month d with
  | 1 => if day d =? 1 then 0%nat else 1%nat
  | 2 =>
      if day d =? 11 then 2%nat else if day d =? 23 then 16%nat
      else 17%nat
  | 3 => 3%nat
  | 4 =>
      if day d =? 29 then
        if year d <? 1989 then 16%nat else if year d <? 2007 then 6%nat
        else 4%nat
      else 17%nat
  | 5 =>
      if day d =? 3 then 5%nat else if day d =? 4 then 6%nat
      else if day d =? 5 then 7%nat else 17%nat
  | 7 => if day d =? 24 then 12%nat else 8%nat
  | 8 => 9%nat
  | 9 => if keiro_dateb d then 10%nat else 11%nat
  | 10 =>
      if day d =? 22 then 17%nat else if year d <? 2020 then 13%nat
      else 12%nat
  | 11 =>
      if day d =? 3 then 14%nat else if day d =? 23 then 15%nat
      else 17%nat
  | 12 => 16%nat
  | _ => 17%nat
  end.

Section Owners.
Context (self : t).

(** Decides the tests of [owner] on the date of a rule. *)
Ltac owner_tests :=
  unfold owner, fixed_day, nth_monday in *;
  cbn [year month day fst snd] in *;
  repeat match goal with
    | |- context [(7 - weekday ?d) mod 7] =>
        let r := fresh "r" in
        pose proof (Z.mod_pos_bound (7 - weekday d) 7 ltac:(lia));
        set (r := (7 - weekday d) mod 7) in *; clearbody r
    end;
  repeat match goal with
    | |- context [?a =? ?b] => destruct (Z.eqb_spec a b)
    | |- context [?a <? ?b] => destruct (Z.ltb_spec a b)
    end;
  try reflexivity; exfalso; window_arith.

Ltac owner_cases :=
  unfold_holiday; intros H; pairs_facts;
  repeat match goal with
    | E : ?p.1 = _ |- _ => rewrite E; clear E
    | E : ?p = (_, _) |- _ => subst p
    end;
  try reflexivity; owner_tests.

Lemma owner_ganjitsu p : p ∈ yielded (ganjitsu self) -> owner p.1 = 0%nat.
Proof. owner_cases. Qed.
Lemma owner_seijinnohi p :
  p ∈ yielded (seijinnohi self) -> owner p.1 = 1%nat.
Proof. owner_cases. Qed.
Lemma owner_kenkokukinennohi p :
  p ∈ yielded (kenkokukinennohi self) -> owner p.1 = 2%nat.
Proof. owner_cases. Qed.
Lemma owner_showanohi p : p ∈ yielded (showanohi self) -> owner p.1 = 4%nat.
Proof. owner_cases. Qed.
Lemma owner_kenpokinenbi p :
  p ∈ yielded (kenpokinenbi self) -> owner p.1 = 5%nat.
Proof. owner_cases. Qed.
Lemma owner_midorinohi p :
  p ∈ yielded (midorinohi self) -> owner p.1 = 6%nat.
Proof. owner_cases. Qed.
Lemma owner_kodomonohi p :
  p ∈ yielded (kodomonohi self) -> owner p.1 = 7%nat.
Proof. owner_cases. Qed.
Lemma owner_uminohi p : p ∈ yielded (uminohi self) -> owner p.1 = 8%nat.
Proof. owner_cases. Qed.
Lemma owner_yamanohi p : p ∈ yielded (yamanohi self) -> owner p.1 = 9%nat.
Proof. owner_cases. Qed.
Lemma owner_supotsunohi p :
  p ∈ yielded (supotsunohi self) -> owner p.1 = 12%nat.
Proof. owner_cases. Qed.
Lemma owner_taikunohi p :
  p ∈ yielded (taikunohi self) -> owner p.1 = 13%nat.
Proof. owner_cases. Qed.
Lemma owner_bunkanohi p : p ∈ yielded (bunkanohi self) -> owner p.1 = 14%nat.
Proof. owner_cases. Qed.
Lemma owner_kinrokanshanohi p :
  p ∈ yielded (kinrokanshanohi self) -> owner p.1 = 15%nat.
Proof. owner_cases. Qed.
Lemma owner_tennotanjobi p :
  p ∈ yielded (tennotanjobi self) -> owner p.1 = 16%nat.
Proof. owner_cases. Qed.

Lemma owner_keironohi p :
  p ∈ yielded (keironohi self) -> owner p.1 = 10%nat.
Proof.
  unfold_holiday. intros H. pairs_facts;
    repeat match goal with E : ?p.1 = _ |- _ => rewrite E; clear E end;
    unfold owner; cbn [month fixed_day nth_monday].
  - replace (keiro_dateb (fixed_day 9 15 x)) with true; [done|].
    symmetry. unfold keiro_dateb, fixed_day. cbn [year month day].
    apply orb_true_iff. left. apply andb_true_iff. split; [done|].
    apply Z.leb_le. window_arith.
  - replace (keiro_dateb (nth_monday 9 3 x)) with true; [done|].
    symmetry. unfold keiro_dateb. apply orb_true_iff. right.
    change (year (nth_monday 9 3 x)) with x.
    apply andb_true_iff. split; [by apply bool_decide_eq_true_2|].
    apply Z.leb_le. window_arith.
Qed.

Lemma owner_shunbunnohi p :
  p ∈ yielded (shunbunnohi self) -> owner p.1 = 3%nat.
Proof.
  intros [Hm _]%shunbunnohi_calendar. unfold owner. by rewrite Hm.
Qed.

Lemma owner_shubunnohi p :
  year (max_date self) <= 4075 ->
  p ∈ yielded (shubunnohi self) -> owner p.1 = 11%nat.
Proof.
  intros Hy Hp.
  destruct (shubunnohi_calendar self p Hp) as [Hm _].
  pose proof (shubunnohi_not_keiro self p Hy Hp) as H.
  unfold owner. by rewrite Hm, H.
Qed.

Lemma owner_special p : p ∈ yielded (special self) -> owner p.1 = 17%nat.
Proof.
  unfold special, _holidays_filter. rewrite yielded_gen_filter.
  intros [_ H]%list_elem_of_filter. cbn [_special yielded] in H.
  rewrite !elem_of_cons, elem_of_nil in H.
  repeat (destruct H as [->|H]; [reflexivity|]). destruct H.
Qed.

End Owners.

Section DistinctDates.
Context (self : t).

Ltac years_cases :=
  repeat match goal with
    | H : _ ∈ years_of (chain _ _) |- _ =>
        apply elem_of_years_of_chain in H; destruct H as [H|H]
    | H : _ ∈ years_of (named _ _) |- _ =>
        eapply elem_of_years_of_era in H; [|solve_yearly];
        destruct H as (? & ? & ?)
    | H : _ ∈ years_of (named_except_2020 _ _) |- _ =>
        eapply elem_of_years_of_era_except_2020 in H; [|solve_yearly];
        destruct H as (? & ? & ? & ?)
    | H : _ ∈ years_of (yield_if_in_range _ _ _) |- _ =>
        apply elem_of_years_of_override in H; destruct H as [? ?]
    end.

Ltac years_NoDup :=
  apply NoDup_dates; unfold_holiday;
  repeat lazymatch goal with
    | |- NoDup (years_of (chain _ _)) => apply years_chain_NoDup
    | |- NoDup (years_of (named _ _)) =>
        eapply years_of_era_NoDup; solve_yearly
    | |- NoDup (years_of (named_except_2020 _ _)) =>
        eapply years_of_era_except_2020_NoDup; solve_yearly
    | |- NoDup (years_of (yield_if_in_range _ _ _)) =>
        apply years_of_override_NoDup
    | |- forall y, _ ∈ _ -> _ ∈ _ -> False =>
        let y := fresh "y" in
        intros y ? ?; years_cases; subst; window_arith
    end.

Lemma special_NoDup : NoDup (yielded (special self)).*1.
Proof.
  unfold special, _holidays_filter. rewrite yielded_gen_filter.
  eapply sublist_NoDup; [|apply fmap_sublist, sublist_filter].
  apply (bool_decide_unpack _). vm_compute. exact I.
Qed.

(** No generator of the catalogue yields a date twice. *)
Lemma catalogue_NoDup g : g ∈ catalogue self -> NoDup (yielded g).*1.
Proof.
  unfold catalogue. rewrite !elem_of_cons, elem_of_nil.
  intros H.
  repeat (destruct H as [->|H];
    [lazymatch goal with
     | |- NoDup (yielded (shunbunnohi _)).*1 =>
         apply NoDup_dates, years_shunbunnohi
     | |- NoDup (yielded (shubunnohi _)).*1 =>
         apply NoDup_dates, years_shubunnohi
     | |- NoDup (yielded (special _)).*1 => apply special_NoDup
     | |- _ => years_NoDup
     end|]).
  destruct H.
Qed.

(** Until the year 4075 what a generator yields belongs to it alone. *)
Lemma catalogue_owner i g p :
  year (max_date self) <= 4075 ->
  catalogue self !! i = Some g -> p ∈ yielded g -> owner p.1 = i.
Proof.
  intros Hy Hi Hp. unfold catalogue in Hi.
  repeat (destruct i as [|i]; cbn [lookup list_lookup] in Hi;
    [injection Hi as <-;
     lazymatch type of Hp with
     | _ ∈ yielded (ganjitsu _) => exact (owner_ganjitsu self p Hp)
     | _ ∈ yielded (seijinnohi _) => exact (owner_seijinnohi self p Hp)
     | _ ∈ yielded (kenkokukinennohi _) =>
         exact (owner_kenkokukinennohi self p Hp)
     | _ ∈ yielded (shunbunnohi _) => exact (owner_shunbunnohi self p Hp)
     | _ ∈ yielded (showanohi _) => exact (owner_showanohi self p Hp)
     | _ ∈ yielded (kenpokinenbi _) => exact (owner_kenpokinenbi self p Hp)
     | _ ∈ yielded (midorinohi _) => exact (owner_midorinohi self p Hp)
     | _ ∈ yielded (kodomonohi _) => exact (owner_kodomonohi self p Hp)
     | _ ∈ yielded (uminohi _) => exact (owner_uminohi self p Hp)
     | _ ∈ yielded (yamanohi _) => exact (owner_yamanohi self p Hp)
     | _ ∈ yielded (keironohi _) => exact (owner_keironohi self p Hp)
     | _ ∈ yielded (shubunnohi _) =>
         exact (owner_shubunnohi self p Hy Hp)
     | _ ∈ yielded (supotsunohi _) => exact (owner_supotsunohi self p Hp)
     | _ ∈ yielded (taikunohi _) => exact (owner_taikunohi self p Hp)
     | _ ∈ yielded (bunkanohi _) => exact (owner_bunkanohi self p Hp)
     | _ ∈ yielded (kinrokanshanohi _) =>
         exact (owner_kinrokanshanohi self p Hp)
     | _ ∈ yielded (tennotanjobi _) => exact (owner_tennotanjobi self p Hp)
     | _ ∈ yielded (special _) => exact (owner_special self p Hp)
     end|]).
  discriminate Hi.
Qed.

End DistinctDates.

Section ChainNoDup.

(** Generators that yield no date twice, each the dates of its own
    place, yield no date twice in a chain. *)
Lemma chain_all_NoDup (own : date -> nat) :
  forall (gs : list (gen (date * string))) (n : nat),
  (forall g, g ∈ gs -> NoDup (yielded g).*1) ->
  (forall i g p, gs !! i = Some g -> p ∈ yielded g ->
                 own p.1 = (n + i)%nat) ->
  NoDup (yielded (chain_all gs)).*1.
Proof.
  induction gs as [|g gs IH]; intros n Hnd Hown; cbn [chain_all foldr].
  - cbn. apply NoDup_nil_2.
  - fold (chain_all gs).
    apply (NoDup_prefix _ ((yielded g).*1 ++ (yielded (chain_all gs)).*1)).
    { rewrite <- fmap_app. destruct (yielded_chain_prefix g (chain_all gs))
        as [k ->]. rewrite fmap_app. by eexists. }
    apply NoDup_app. split; [apply Hnd, elem_of_cons; by left|].
    split.
    + intros d (p & -> & Hp)%list_elem_of_fmap
        (q & Eq & Hq)%list_elem_of_fmap.
      assert (own p.1 = (n + 0)%nat) as O1 by (by apply (Hown 0%nat g)).
      assert (exists j g', gs !! j = Some g' /\ q ∈ yielded g')
        as (j & g' & Hj & Hq').
      { clear -Hq. induction gs as [|g0 gs IHgs];
          cbn [chain_all foldr yielded] in Hq; [by apply elem_of_nil in Hq|].
        fold (chain_all gs) in Hq.
        apply elem_of_yielded_chain in Hq as [Hq|Hq].
        - by exists 0%nat, g0.
        - destruct (IHgs Hq) as (j & g' & ? & ?). by exists (S j), g'. }
      assert (own q.1 = (n + S j)%nat) as O2 by (by apply (Hown (S j) g')).
      rewrite Eq in O1. lia.
    + apply (IH (S n)).
      * intros g' Hg'. apply Hnd, elem_of_cons. by right.
      * intros i g' p Hi Hp. rewrite (Hown (S i) g' p); [lia|done..].
Qed.

End ChainNoDup.

Lemma catalogue_chain_NoDup self :
  year (max_date self) <= 4075 ->
  NoDup (yielded (chain_all (catalogue self))).*1.
Proof.
  intros Hy. apply (chain_all_NoDup owner _ 0%nat).
  - apply catalogue_NoDup.
  - intros i g p Hi Hp. exact (catalogue_owner self i g p Hy Hi Hp).
Qed.

(** A range to the year 4076, in which the third Monday of September is
    the day of the autumnal instant. *)
Definition j4076 : t := __init__ (mkdate 2018 1 1) (mkdate 4076 12 31).

(** X15. For a range that ends in the year 4075 at the latest, no date
    is yielded twice in the chain of the catalogue: each holiday of a
    date has one generator and one name. In a range from 2018 to 4076
    敬老の日 and 秋分の日 are both yielded for 4076-09-21. *)
Theorem catalogue_dates_distinct :
  (forall self,
     year (max_date self) <= 4075 ->
     NoDup (yielded (chain_all (catalogue self))).*1)
  /\ (mkdate 4076 9 21, "敬老の日"%string) ∈ yielded (keironohi j4076)
  /\ (mkdate 4076 9 21, "秋分の日"%string) ∈ yielded (shubunnohi j4076).
Proof.
  split; [|split].
  - intros self Hy. by apply catalogue_chain_NoDup.
  - apply (bool_decide_unpack _). vm_compute. exact I.
  - apply (bool_decide_unpack _). vm_compute. exact I.
Qed.

Lemma catalogue_dates_distinct_witness :
  NoDup (yielded (chain_all (catalogue j2018))).*1.
Proof.
  apply (proj1 catalogue_dates_distinct j2018). cbn. lia.
Defined.

(* ===================================================================== *)
(** * The dictionary and what the generators yield                       *)
(* ===================================================================== *)

Section ResolvedDictionary.

Lemma foldl_setitem_NoDup (l : list (date * string)) k v :
  NoDup l.*1 -> foldl setitem ∅ l !! k = Some v <-> (k, v) ∈ l.
Proof.
  intros Hnd. split.
  - intros [H|H]%foldl_setitem_lookup_Some; [|done].
    by rewrite lookup_empty in H.
  - intros (l1 & l2 & ->)%list_elem_of_split.
    apply foldl_setitem_lookup_last.
    rewrite fmap_app, fmap_cons in Hnd.
    apply NoDup_app in Hnd as (_ & _ & Hnd).
    by apply NoDup_cons in Hnd as [? _].
Qed.

Lemma foldl_setitem_key d (l : list (date * string)) k :
  k ∈ l.*1 -> is_Some (foldl setitem d l !! k).
Proof.
  revert d. induction l as [|[k' v'] l IH]; intros d;
    [by intros ?%elem_of_nil|].
  cbn [foldl]. destruct (decide (k ∈ l.*1)) as [Hin|Hout]; [auto|].
  intros [->|?]%elem_of_cons; [|done].
  rewrite foldl_setitem_lookup_ne by done.
  unfold setitem. cbn [fst snd]. rewrite lookup_insert_eq. by eexists.
Qed.

Lemma elem_of_chain_all {A} (gs : list (gen A)) x :
  ending (chain_all gs) = Ok tt ->
  x ∈ yielded (chain_all gs) <-> exists g, g ∈ gs /\ x ∈ yielded g.
Proof.
  induction gs as [|g gs IH]; cbn [chain_all foldr].
  - intros _. cbn. rewrite elem_of_nil. split; [done|].
    by intros (g & ?%elem_of_nil & _).
  - fold (chain_all gs). intros [Eg Egs]%ending_chain_Ok.
    rewrite yielded_chain_Ok, elem_of_app, (IH Egs) by done. split.
    + intros [H|(g' & Hg' & H)].
      * exists g. split; [apply elem_of_cons; by left|done].
      * exists g'. split; [apply elem_of_cons; by right|done].
    + intros (g' & [->|Hg']%elem_of_cons & H); [by left|].
      right. by exists g'.
Qed.

(** The dictionary of the catalogue, for a range to 4075 at the latest. *)
Lemma base_lookup self base d h :
  year (max_date self) <= 4075 ->
  dict (chain_all (catalogue self)) = Ok base ->
  base !! d = Some h <-> exists g, g ∈ catalogue self /\ (d, h) ∈ yielded g.
Proof.
  intros Hy Eb. unfold dict in Eb.
  apply dict_update_Ok in Eb as [Ec ->].
  rewrite foldl_setitem_NoDup by (by apply catalogue_chain_NoDup).
  by apply elem_of_chain_all.
Qed.

Lemma resolve_base self m :
  resolve self = Ok m ->
  exists base,
    dict (chain_all (catalogue self)) = Ok base
    /\ ending (kokuminnokyujitsu self base) = Ok tt
    /\ m = foldl setitem base (yielded (kokuminnokyujitsu self base)).
Proof.
  intros Hm. rewrite resolve_spec in Hm.
  destruct (dict (chain_all (catalogue self))) as [base| |] eqn:Eb;
    cbn [obind] in Hm; [|done..].
  exists base. split; [done|]. by apply dict_update_Ok in Hm.
Qed.

End ResolvedDictionary.

(** X16. For a range that ends in the year 4075 at the latest, the
    resolved dictionary is what the generators yield: the dictionary
    [base] of the catalogue has a date with a name exactly when a
    generator of the catalogue yields that pair; [base] is kept in the
    resolved dictionary; every other entry is a pair that
    [kokuminnokyujitsu] yields on [base], and each date it yields is an
    entry that is not in [base]. *)
Theorem dictionary_is_what_is_yielded :
  forall self m,
  year (max_date self) <= 4075 -> resolve self = Ok m ->
  exists base,
    dict (chain_all (catalogue self)) = Ok base
    /\ (forall d h, base !! d = Some h <->
                    exists g, g ∈ catalogue self /\ (d, h) ∈ yielded g)
    /\ (forall d h, base !! d = Some h -> m !! d = Some h)
    /\ (forall d h, m !! d = Some h ->
                    base !! d = Some h
                    \/ (d, h) ∈ yielded (kokuminnokyujitsu self base))
    /\ (forall d h, (d, h) ∈ yielded (kokuminnokyujitsu self base) ->
                    base !! d = None /\ is_Some (m !! d)).
Proof.
  intros self m Hy Hm.
  destruct (resolve_base self m Hm) as (base & Eb & Ek & Em).
  exists base. split; [done|]. split; [|split; [|split]].
  - intros d h. by apply base_lookup.
  - intros d h. by apply (resolve_keeps_base self).
  - intros d h. rewrite Em. apply foldl_setitem_lookup_Some.
  - intros d h Hp. split; [by apply kokuminnokyujitsu_fresh in Hp|].
    rewrite Em. apply foldl_setitem_key.
    apply list_elem_of_fmap. by exists (d, h).
Qed.

Lemma dictionary_is_what_is_yielded_witness :
  exists m base,
    resolve j2018 = Ok m
    /\ dict (chain_all (catalogue j2018)) = Ok base
    /\ forall d h, base !! d = Some h -> m !! d = Some h.
Proof.
  destruct (resolve_total j2018) as [m Hm];
    [reflexivity|reflexivity|reflexivity|cbn; lia|].
  destruct (dictionary_is_what_is_yielded j2018 m) as (base & Hb & _ & H & _);
    [cbn; lia|exact Hm|].
  exists m, base. split; [exact Hm|]. split; [exact Hb|exact H].
Defined.

(* ===================================================================== *)
(** * The yearly streams clipped to the range                            *)
(* ===================================================================== *)

Section ClippedStreams.
Context (self : t).

Lemma yearly_le_last it f y :
  yearly it f -> 1948 <= y <= 9999 -> f y <=d f 9999.
Proof.
  intros [_ Hf] Hy. apply leb_spec.
  destruct (Hf y) as (Ey & _). destruct (Hf 9999) as (E9 & _).
  rewrite Ey, E9. destruct (decide (y = 9999)) as [->|]; lia.
Qed.

(** The clipping of a yearly stream stops when the date of the year 9999
    is in or after the window and past its upper bound; otherwise the
    stream is read to the [ValueError] of the year 10000. *)
Lemma ending_clipped it f lo hi :
  yearly it f ->
  ending (_sorted_dates_filter it (Some lo) (Some hi))
  = if (lo <=?d f 9999) && (hi <?d f 9999) then Ok tt
    else Raises ValueError.
Proof.
  intros H. pose proof (yearly_yielded it f H) as Hy.
  assert (ending it = Raises ValueError) as He
    by (destruct H as [-> _]; apply ending_year_gen).
  unfold _sorted_dates_filter.
  destruct (lo <=?d f 9999) eqn:L; cbn [andb].
  - destruct (hi <?d f 9999) eqn:G.
    + apply (ending_takewhile_stops _ _ (f 9999)).
      * apply elem_of_dropwhile.
        -- rewrite Hy. apply list_elem_of_fmap. exists 9999.
           split; [done|]. apply elem_of_seqZ. lia.
        -- unfold gt. by apply ltb_false_iff.
      * unfold ge. by apply leb_false_iff.
    + rewrite takewhile_all; [by rewrite ending_dropwhile|].
      apply Forall_forall. intros x Hx.
      pose proof (elem_of_suffix _ _ _ Hx (yielded_dropwhile_suffix _ _))
        as Hx'.
      rewrite Hy in Hx'.
      apply list_elem_of_fmap in Hx' as (y & -> & Hyr%elem_of_seqZ).
      unfold ge. apply (le_trans _ (f 9999)).
      * apply (yearly_le_last it); [done|lia].
      * by apply ltb_false_iff.
  - rewrite dropwhile_all; [by rewrite He|].
    apply Forall_forall. intros x Hx. rewrite Hy in Hx.
    apply list_elem_of_fmap in Hx as (y & -> & Hyr%elem_of_seqZ).
    unfold gt. apply ltb_true_iff.
    apply (le_lt_trans _ (f 9999)).
    + apply (yearly_le_last it); [done|lia].
    + by apply leb_false_iff.
Qed.

Lemma clipped_stream it f :
  yearly it f ->
  let g := _sorted_dates_filter it (Some (min_date self))
             (Some (max_date self)) in
  (forall x, x ∈ yielded g <->
             (exists y, 1948 <= y <= 9999 /\ x = f y) /\ in_range self x)
  /\ StronglySorted Date.lt (yielded g)
  /\ ending g
     = if (min_date self <=?d f 9999) && (max_date self <?d f 9999)
       then Ok tt else Raises ValueError.
Proof.
  intros H g. pose proof (yearly_sorted_yielded it f H) as Hs.
  split; [|split].
  - intros x. unfold g. rewrite yielded_sorted_dates_filter by done.
    rewrite list_elem_of_filter, Is_true_true, (yearly_yielded it f H).
    fold (range_window self x). rewrite range_window_spec.
    rewrite list_elem_of_fmap. unfold all_years.
    setoid_rewrite elem_of_seqZ. split.
    + intros [? (y & -> & ?)]. split; [|done]. exists y. split; [lia|done].
    + intros [(y & ? & ->) ?]. split; [done|]. exists y. split; [done|lia].
  - by apply sorted_dates_filter_sorted.
  - by apply ending_clipped.
Qed.

End ClippedStreams.

(** X17. [iter_dates(month, day)], for a day that every year has, and
    [iter_nth_monday(month, n)], for [n] from 1 to 4, yield in
    increasing order the dates of the range among the dates of the years
    1948 to 9999; they stop when the date of the year 9999 is not before
    [min_date] and is after [max_date], and otherwise end with the
    [ValueError] of the year 10000. *)
Theorem clipped_streams_end :
  forall self m,
  1 <= m <= 12 ->
  (forall d,
     1 <= d <= _DAYS_IN_MONTH m ->
     (forall x, x ∈ yielded (iter_dates self m d) <->
                (exists y, 1948 <= y <= 9999 /\ x = mkdate y m d)
                /\ in_range self x)
     /\ StronglySorted Date.lt (yielded (iter_dates self m d))
     /\ ending (iter_dates self m d)
        = if (min_date self <=?d mkdate 9999 m d)
             && (max_date self <?d mkdate 9999 m d)
          then Ok tt else Raises ValueError)
  /\ (forall n,
        1 <= n <= 4 ->
        (forall x, x ∈ yielded (iter_nth_monday self m n) <->
                   (exists y, 1948 <= y <= 9999 /\ x = nth_monday m n y)
                   /\ in_range self x)
        /\ StronglySorted Date.lt (yielded (iter_nth_monday self m n))
        /\ ending (iter_nth_monday self m n)
           = if (min_date self <=?d nth_monday m n 9999)
                && (max_date self <?d nth_monday m n 9999)
             then Ok tt else Raises ValueError).
Proof.
  intros self m Hm. split.
  - intros d Hd.
    exact (clipped_stream self _ _ (yearly_iter_dates m d Hm Hd)).
  - intros n Hn.
    exact (clipped_stream self _ _ (yearly_iter_nth_monday m n Hm Hn)).
Qed.

Lemma clipped_streams_end_witness :
  ending (iter_dates j2018 1 1) = Ok tt.
Proof.
  refine (proj2 (proj2 (proj1 (clipped_streams_end j2018 1 _) 1 _)));
    cbn; lia.
Defined.

(* ===================================================================== *)
(** * The clipping of any stream                                         *)
(* ===================================================================== *)

Section SortedDatesFilter.

Lemma dropwhile_head {A} (p : A -> bool) (g : gen A) x l :
  yielded (dropwhile p g) = x :: l -> p x = false.
Proof.
  induction g as [o|a g IH]; cbn [dropwhile yielded]; [done|].
  destruct (p a) eqn:E; [done|]. cbn [yielded]. by intros [= <- _].
Qed.

Lemma takewhile_head {A} (p : A -> bool) (g : gen A) x l :
  yielded (takewhile p g) = x :: l -> exists l', yielded g = x :: l'.
Proof.
  destruct g as [o|a g]; cbn [takewhile yielded]; [done|].
  destruct (p a); cbn [yielded]; [|done]. intros [= <- _]. by eexists.
Qed.

End SortedDatesFilter.

(** X18. Whatever the stream, [_sorted_dates_filter] yields a run of
    consecutive values of it: the first is not before [min_date], none
    is after [max_date], and a bound that is [None] does not count.
    When the stream is sorted these are all its dates within the bounds;
    without an upper bound the stream is read to its end. *)
Theorem sorted_dates_filter_run :
  forall it lo hi,
  (exists l1 l2,
     yielded it = l1 ++ yielded (_sorted_dates_filter it lo hi) ++ l2)
  /\ (forall first rest lo',
        yielded (_sorted_dates_filter it lo hi) = first :: rest ->
        lo = Some lo' -> lo' <=d first)
  /\ (forall x hi',
        x ∈ yielded (_sorted_dates_filter it lo hi) ->
        hi = Some hi' -> x <=d hi')
  /\ (StronglySorted Date.lt (yielded it) ->
      yielded (_sorted_dates_filter it lo hi)
      = filter (fun x => within lo hi x) (yielded it))
  /\ (hi = None -> ending (_sorted_dates_filter it lo hi) = ending it).
Proof.
  intros it lo hi. split; [|split; [|split; [|split]]].
  - unfold _sorted_dates_filter.
    set (g := match lo with Some m => dropwhile (gt m) it | None => it end).
    assert (yielded g `suffix_of` yielded it) as [l1 E1].
    { unfold g. destruct lo; [apply yielded_dropwhile_suffix|done]. }
    assert (yielded (match hi with
                     | Some m => takewhile (ge m) g
                     | None => g
                     end) `prefix_of` yielded g) as [l2 E2].
    { destruct hi; [apply yielded_takewhile_prefix|done]. }
    exists l1, l2. by rewrite E1, E2.
  - intros first rest lo' E ->. unfold _sorted_dates_filter in E.
    assert (exists l, yielded (dropwhile (gt lo') it) = first :: l)
      as [l El].
    { destruct hi; [by apply takewhile_head in E|by eexists]. }
    apply dropwhile_head in El. unfold gt in El. by apply ltb_false_iff.
  - intros x hi' Hx ->. unfold _sorted_dates_filter in Hx.
    by apply yielded_takewhile_all in Hx.
  - apply yielded_sorted_dates_filter.
  - intros ->. apply ending_sorted_dates_filter_None.
Qed.

Lemma sorted_dates_filter_run_witness :
  yielded (_sorted_dates_filter (Yield (mkdate 2018 1 1) Stop)
             (Some (mkdate 2018 1 1)) None)
  = filter (fun x => within (Some (mkdate 2018 1 1)) None x)
      (yielded (Yield (mkdate 2018 1 1) Stop)).
Proof.
  apply (proj1 (proj2 (proj2 (proj2 (sorted_dates_filter_run
           (Yield (mkdate 2018 1 1) Stop) (Some (mkdate 2018 1 1)) None))))).
  cbn [yielded]. repeat constructor.
Defined.

(* ===================================================================== *)
(** * April 29                                                           *)
(* ===================================================================== *)

Section AprilTwentyNinth.
Context (self : t).

(** The name of the holiday of April 29 in the year [y]. *)
Definition april_29 (y : Z) : string :=
  if y <? 1989 then "天皇誕生日"%string
  else if y <? 2007 then "みどりの日"%string
  else "昭和の日"%string.

Lemma april_29_yielded y :
  1949 <= y <= 9999 -> in_range self (mkdate y 4 29) ->
  exists g, g ∈ catalogue self /\ (mkdate y 4 29, april_29 y) ∈ yielded g.
Proof.
  intros Hy Hr. unfold april_29.
  destruct (Z.ltb_spec y 1989); [|destruct (Z.ltb_spec y 2007)].
  - exists (tennotanjobi self). split.
    { unfold catalogue. rewrite !elem_of_cons. tauto. }
    unfold_holiday. rewrite yielded_chain. apply elem_of_app. left.
    eapply elem_of_yielded_era; [solve_yearly|]. split; [done|].
    exists y. split; [lia|]. split; [done|]. split; [|done]. window_arith.
  - exists (midorinohi self). split.
    { unfold catalogue. rewrite !elem_of_cons. tauto. }
    unfold_holiday. rewrite yielded_chain. apply elem_of_app. left.
    eapply elem_of_yielded_era; [solve_yearly|]. split; [done|].
    exists y. split; [lia|]. split; [done|]. split; [|done]. window_arith.
  - exists (showanohi self). split.
    { unfold catalogue. rewrite !elem_of_cons. tauto. }
    unfold_holiday.
    eapply elem_of_yielded_era; [solve_yearly|]. split; [done|].
    exists y. split; [lia|]. split; [done|]. split; [|done]. window_arith.
Qed.

End AprilTwentyNinth.

(** X19. April 29 is a holiday of every year from 1949 on: in a
    dictionary of a range that has the date (and ends in 4075 at the
    latest) its name is 天皇誕生日 until 1988, みどりの日 from 1989 to
    2006 and 昭和の日 from 2007. *)
Theorem april_29_under_three_names :
  forall self m y,
  1949 <= y -> in_range self (mkdate y 4 29) ->
  year (max_date self) <= 4075 -> resolve self = Ok m ->
  m !! mkdate y 4 29 = Some (april_29 y).
Proof.
  intros self m y Hy Hr Hmax Hm.
  destruct (resolve_base self m Hm) as (base & Eb & _ & _).
  apply (resolve_keeps_base self base); [done..|].
  apply (base_lookup self); [done..|].
  apply april_29_yielded; [|done].
  destruct Hr as [_ Hr]. apply leb_spec in Hr. cbn in Hr. lia.
Qed.

Lemma april_29_under_three_names_witness :
  exists m,
    resolve j2018 = Ok m
    /\ m !! mkdate 2018 4 29 = Some "昭和の日"%string.
Proof.
  destruct (resolve_total j2018) as [m Hm];
    [reflexivity|reflexivity|reflexivity|cbn; lia|].
  exists m. split; [exact Hm|].
  apply (april_29_under_three_names j2018 m 2018);
    [lia|split; reflexivity|cbn; lia|exact Hm].
Defined.

(* ===================================================================== *)
(** * May 4 between two holidays                                         *)
(* ===================================================================== *)

Section MayFourth.
Context (self : t).

Lemma elem_of_gen_for_Ok {A B} (g : gen A) (body : A -> gen B) a x :
  ending (gen_for g body) = Ok tt ->
  a ∈ yielded g -> x ∈ yielded (body a) -> x ∈ yielded (gen_for g body).
Proof.
  induction g as [o|a0 g IH]; cbn [gen_for yielded];
    [by intros _ ?%elem_of_nil|].
  intros [E0 Eg]%ending_chain_Ok Ha Hx. rewrite yielded_chain_Ok by done.
  apply elem_of_app. apply elem_of_cons in Ha as [->|Ha]; [by left|].
  right. by apply IH.
Qed.

Lemma foldl_setitem_unique d (l : list (date * string)) k v :
  (k, v) ∈ l -> (forall v', (k, v') ∈ l -> v' = v) ->
  foldl setitem d l !! k = Some v.
Proof.
  induction l as [|[k' v'] l IH] using rev_ind; [by intros ?%elem_of_nil|].
  intros Hin Hu. rewrite foldl_app. cbn [foldl]. unfold setitem at 1.
  cbn [fst snd]. destruct (decide (k' = k)) as [->|Hne].
  - rewrite lookup_insert_eq. f_equal. apply Hu.
    apply elem_of_app. right. apply elem_of_cons. by left.
  - rewrite lookup_insert_ne by done. apply IH.
    + apply elem_of_app in Hin as [?|Hin]; [done|].
      apply list_elem_of_singleton in Hin. congruence.
    + intros v'' H. apply Hu. apply elem_of_app. by left.
Qed.

Lemma Some_eq {A} (a b : A) : Some a = Some b -> a = b.
Proof. by intros [= ->]. Qed.

(** A generator of the catalogue that yields a date is the one of its
    place. *)
Lemma catalogue_owner_lookup g p :
  year (max_date self) <= 4075 ->
  g ∈ catalogue self -> p ∈ yielded g ->
  catalogue self !! owner p.1 = Some g.
Proof.
  intros Hy [i Hi]%list_elem_of_lookup Hp.
  by rewrite (catalogue_owner self i g p Hy Hi Hp).
Qed.

Section Year.
Context (y : Z) (base : hdict).
Hypothesis Hy : 1986 <= y <= 2006.
Hypothesis Hmax : year (max_date self) <= 4075.
Hypothesis Vmin : valid (min_date self).
Hypothesis Vmax : valid (max_date self).
Hypothesis H3 : in_range self (mkdate y 5 3).
Hypothesis H5 : in_range self (mkdate y 5 5).
Hypothesis Eb : dict (chain_all (catalogue self)) = Ok base.

Lemma may_valid d : 1 <= d <= 31 -> valid (mkdate y 5 d).
Proof. intros Hd. apply valid_fields_common; cbn; lia. Qed.

Lemma may_3_base : base !! mkdate y 5 3 = Some "憲法記念日"%string.
Proof using Hy Hmax H3 Eb.
  apply (base_lookup self); [done..|]. exists (kenpokinenbi self). split.
  { unfold catalogue. rewrite !elem_of_cons. tauto. }
  apply (proj2 (fixed_rule self 5 3 DATE_00 _ _ _
                  ltac:(lia) ltac:(cbn; lia))).
  split; [done|]. split; [done|]. split; [done|]. cbn [year].
  split; [lia|]. split; [apply leb_spec; cbn; lia|done].
Qed.

Lemma may_5_base : base !! mkdate y 5 5 = Some "こどもの日"%string.
Proof using Hy Hmax H5 Eb.
  apply (base_lookup self); [done..|]. exists (kodomonohi self). split.
  { unfold catalogue. rewrite !elem_of_cons. tauto. }
  apply (proj2 (fixed_rule self 5 5 DATE_00 _ _ _
                  ltac:(lia) ltac:(cbn; lia))).
  split; [done|]. split; [done|]. split; [done|]. cbn [year].
  split; [lia|]. split; [apply leb_spec; cbn; lia|done].
Qed.

Lemma may_4_base : base !! mkdate y 5 4 = None.
Proof using Hy Hmax Eb.
  destruct (base !! mkdate y 5 4) as [h|] eqn:E; [exfalso|done].
  apply (base_lookup self) in E as (g & Hg & Hp); [|done..].
  pose proof (catalogue_owner_lookup g _ Hmax Hg Hp) as Ho.
  change (owner (mkdate y 5 4, h).1) with 6%nat in Ho.
  unfold catalogue in Ho. cbn [lookup list_lookup] in Ho.
  apply Some_eq in Ho. subst g. revert Hp. unfold_holiday. intros Hp.
  pairs_facts; cbn [fst snd] in *;
    match goal with E : mkdate _ _ _ = _ |- _ =>
      unfold fixed_day in E; injection E as <-; try discriminate
    end.
  window_arith.
Qed.

Lemma may_4_in_range : mkdate y 5 4 <=d max_date self.
Proof using H5.
  destruct H5 as [_ H]. eapply le_trans; [|exact H].
  apply leb_spec. cbn. lia.
Qed.

(** The iteration of May 3. *)
Lemma may_3_body :
  yielded (kokuminnokyujitsu_body (max_date self) base (mkdate y 5 3))
  = if weekday (mkdate y 5 4) =? 6 then []
    else if weekday (mkdate y 5 4) =? 0 then [(mkdate y 5 4, furikae)]
    else [(mkdate y 5 4, kokuminno)].
Proof using Hy Hmax H3 H5 Eb.
  rewrite era2_body
    by (try apply leb_spec; try apply ltb_spec; cbn; lia).
  replace (mem (mkdate y 5 3) base) with true
    by (symmetry; apply mem_true; rewrite may_3_base; by eexists).
  assert (add_days (mkdate y 5 3) 1 = Ok (mkdate y 5 4)) as E1
    by (apply (add_days_same_month y 5 3 1); by apply may_valid).
  assert (add_days (mkdate y 5 3) 2 = Ok (mkdate y 5 5)) as E2
    by (apply (add_days_same_month y 5 3 2); by apply may_valid).
  assert (mem (mkdate y 5 4) base = false) as M4
    by (apply mem_false, may_4_base).
  assert (mem (mkdate y 5 5) base = true) as M5
    by (apply mem_true; rewrite may_5_base; by eexists).
  assert ((mkdate y 5 4 <=?d max_date self) = true) as L4
    by apply may_4_in_range.
  assert (weekday (mkdate y 5 4) = (weekday (mkdate y 5 3) + 1) mod 7) as W.
  { unfold weekday. change (mkdate y 5 4) with (mkdate y 5 (3 + 1)).
    rewrite (toordinal_same_month y 5 3 1).
    set (o := toordinal (mkdate y 5 3)). zdiv. }
  pose proof (weekday_bounds (mkdate y 5 3)) as B3.
  unfold sandwich. rewrite E1, E2. cbn [gstart]. rewrite M4, M5, L4.
  cbn [negb andb]. rewrite W.
  destruct (Z.eqb_spec (weekday (mkdate y 5 3)) 6) as [->|N6]; [done|].
  cbn [yielded gstart].
  destruct (Z.eqb_spec ((weekday (mkdate y 5 3) + 1) mod 7) 6) as [E6|N].
  - cbn [negb andb yielded]. done.
  - cbn [negb andb yielded].
    destruct (Z.eqb_spec ((weekday (mkdate y 5 3) + 1) mod 7) 0) as [E0|N0];
      [exfalso; revert E0 N6; zdiv|done].
Qed.

(** A derived holiday on May 4 comes from the iteration of May 3. *)
Lemma may_4_from_may_3 v :
  (mkdate y 5 4, v) ∈ yielded (kokuminnokyujitsu self base) ->
  (mkdate y 5 4, v)
  ∈ yielded (kokuminnokyujitsu_body (max_date self) base (mkdate y 5 3)).
Proof using Hy Vmin Vmax.
  intros (d & Hd & Hp)%elem_of_gen_for_inv.
  rewrite yielded_iter_all_dates in Hd by done.
  apply elem_of_days_of in Hd as (Vd & _ & _); [|done..].
  assert (toordinal (mkdate y 5 4) = toordinal d + 1) as Eo.
  { destruct (kokuminnokyujitsu_body_range _ _ _ _ _ Vd Hp) as (_ & Hlt & _).
    destruct (kokuminnokyujitsu_body_cause _ _ _ _ _ Vd Hp)
      as [_ [[_ Hs]|[_ Hb]]]; [|by destruct Hb as (_ & ? & _)].
    destruct Hs as (_ & _ & _ & _ & Hs). apply Hs.
    apply (lt_trans _ (mkdate y 5 4)); [done|]. apply ltb_spec. cbn. lia. }
  assert (d = mkdate y 5 3) as ->; [|done].
  apply toordinal_inj; [done|by apply may_valid|].
  change (mkdate y 5 4) with (mkdate y 5 (3 + 1)) in Eo.
  rewrite (toordinal_same_month y 5 3 1) in Eo. lia.
Qed.

Lemma may_4_resolved m :
  resolve self = Ok m ->
  m !! mkdate y 5 4
  = if weekday (mkdate y 5 4) =? 6 then None
    else if weekday (mkdate y 5 4) =? 0 then Some furikae
    else Some kokuminno.
Proof using Hy Hmax Vmin Vmax H3 H5 Eb.
  intros Hm. destruct (resolve_base self m Hm) as (base' & Eb' & Ek & ->).
  rewrite Eb in Eb'. injection Eb' as <-.
  assert (mkdate y 5 3 ∈ yielded (iter_all_dates self)) as Hd3.
  { rewrite yielded_iter_all_dates by done. apply elem_of_days_of; [done..|].
    split; [by apply may_valid|done]. }
  pose proof may_3_body as Hb.
  destruct (weekday (mkdate y 5 4) =? 6).
  - rewrite foldl_setitem_lookup_ne; [apply may_4_base|].
    intros ([k v] & Ek' & Hp)%list_elem_of_fmap. cbn [fst] in Ek'. subst k.
    apply may_4_from_may_3 in Hp. rewrite Hb in Hp.
    by apply elem_of_nil in Hp.
  - destruct (weekday (mkdate y 5 4) =? 0).
    + apply foldl_setitem_unique.
      * apply (elem_of_gen_for_Ok _ _ (mkdate y 5 3)); [done..|].
        rewrite Hb. apply elem_of_cons. by left.
      * intros v' Hp%may_4_from_may_3. rewrite Hb in Hp.
        apply list_elem_of_singleton in Hp. by injection Hp.
    + apply foldl_setitem_unique.
      * apply (elem_of_gen_for_Ok _ _ (mkdate y 5 3)); [done..|].
        rewrite Hb. apply elem_of_cons. by left.
      * intros v' Hp%may_4_from_may_3. rewrite Hb in Hp.
        apply list_elem_of_singleton in Hp. by injection Hp.
Qed.

End Year.
End MayFourth.

(** X20. From 1986 to 2006, in a dictionary of a range that has May 3 to
    May 5 of the year (and ends in 4075 at the latest), May 3 is
    憲法記念日, May 5 is こどもの日, and May 4, no holiday of the
    catalogue, is 国民の休日 unless it is a Sunday, when it is no
    holiday, or a Monday, when it is the 振替休日 of May 3. *)
Theorem may_4_between_holidays :
  forall self m y,
  1986 <= y <= 2006 ->
  valid (min_date self) -> valid (max_date self) ->
  in_range self (mkdate y 5 3) -> in_range self (mkdate y 5 5) ->
  year (max_date self) <= 4075 -> resolve self = Ok m ->
  m !! mkdate y 5 3 = Some "憲法記念日"%string
  /\ m !! mkdate y 5 5 = Some "こどもの日"%string
  /\ m !! mkdate y 5 4
     = if weekday (mkdate y 5 4) =? 6 then None
       else if weekday (mkdate y 5 4) =? 0 then Some furikae
       else Some kokuminno.
Proof.
  intros self m y Hy Vmin Vmax H3 H5 Hmax Hm.
  destruct (resolve_base self m Hm) as (base & Eb & _ & _).
  split; [|split].
  - apply (resolve_keeps_base self base); [done..|].
    by apply (may_3_base self y).
  - apply (resolve_keeps_base self base); [done..|].
    by apply (may_5_base self y).
  - by apply (may_4_resolved self y base).
Qed.

Lemma may_4_between_holidays_witness :
  exists m,
    resolve (__init__ (mkdate 1988 1 1) (mkdate 1988 12 31)) = Ok m
    /\ m !! mkdate 1988 5 4 = Some kokuminno.
Proof.
  destruct (resolve_total (__init__ (mkdate 1988 1 1) (mkdate 1988 12 31)))
    as [m Hm]; [reflexivity|reflexivity|reflexivity|cbn; lia|].
  exists m. split; [exact Hm|].
  apply (may_4_between_holidays
           (__init__ (mkdate 1988 1 1) (mkdate 1988 12 31)) m 1988);
    [lia|reflexivity|reflexivity|split; reflexivity|split; reflexivity
    |cbn; lia|exact Hm].
Defined.

(* ===================================================================== *)
(** * No holiday before the Act                                          *)
(* ===================================================================== *)

Section SinceTheAct.
Context (self : t).

Ltac since_cases :=
  unfold_holiday; intros H; pairs_facts;
  repeat match goal with
    | E : ?p.1 = _ |- _ => rewrite E; clear E
    | E : ?p = (_, _) |- _ => subst p
    end;
  cbn [fst snd]; try reflexivity; window_arith.

Lemma since_ganjitsu p : p ∈ yielded (ganjitsu self) -> DATE_00 <=d p.1.
Proof. since_cases. Qed.
Lemma since_seijinnohi p : p ∈ yielded (seijinnohi self) -> DATE_00 <=d p.1.
Proof. since_cases. Qed.
Lemma since_kenkokukinennohi p :
  p ∈ yielded (kenkokukinennohi self) -> DATE_00 <=d p.1.
Proof. since_cases. Qed.
Lemma since_showanohi p : p ∈ yielded (showanohi self) -> DATE_00 <=d p.1.
Proof. since_cases. Qed.
Lemma since_kenpokinenbi p :
  p ∈ yielded (kenpokinenbi self) -> DATE_00 <=d p.1.
Proof. since_cases. Qed.
Lemma since_midorinohi p : p ∈ yielded (midorinohi self) -> DATE_00 <=d p.1.
Proof. since_cases. Qed.
Lemma since_kodomonohi p : p ∈ yielded (kodomonohi self) -> DATE_00 <=d p.1.
Proof. since_cases. Qed.
Lemma since_uminohi p : p ∈ yielded (uminohi self) -> DATE_00 <=d p.1.
Proof. since_cases. Qed.
Lemma since_yamanohi p : p ∈ yielded (yamanohi self) -> DATE_00 <=d p.1.
Proof. since_cases. Qed.
Lemma since_keironohi p : p ∈ yielded (keironohi self) -> DATE_00 <=d p.1.
Proof. since_cases. Qed.
Lemma since_supotsunohi p :
  p ∈ yielded (supotsunohi self) -> DATE_00 <=d p.1.
Proof. since_cases. Qed.
Lemma since_taikunohi p : p ∈ yielded (taikunohi self) -> DATE_00 <=d p.1.
Proof. since_cases. Qed.
Lemma since_bunkanohi p : p ∈ yielded (bunkanohi self) -> DATE_00 <=d p.1.
Proof. since_cases. Qed.
Lemma since_kinrokanshanohi p :
  p ∈ yielded (kinrokanshanohi self) -> DATE_00 <=d p.1.
Proof. since_cases. Qed.
Lemma since_tennotanjobi p :
  p ∈ yielded (tennotanjobi self) -> DATE_00 <=d p.1.
Proof. since_cases. Qed.

Lemma since_shunbunnohi p :
  p ∈ yielded (shunbunnohi self) -> DATE_00 <=d p.1.
Proof.
  unfold shunbunnohi. cbv zeta.
  destruct (DateTime.new 2018 3 21 1 15) as [a0| |]; cbn [gstart yielded];
    [|by intros ?%elem_of_nil..].
  destruct (DateTime.add a0 (- DateTime.minutes 8)) as [a1| |];
    cbn [gstart yielded]; [|by intros ?%elem_of_nil..].
  pose proof (max_ge_l DATE_00 (min_date self)) as Hmin.
  destruct p as [d h]. intros [H|H]%elem_of_yielded_chain.
  - apply equinox_loop_yields in H as (Hgo & _).
    by apply (le_trans _ _ _ Hmin).
  - destruct (DateTime.add a1 (DateTime.minutes (8 + 4))) as [a2| |];
      cbn [gstart yielded] in H; [|by apply elem_of_nil in H..].
    destruct (DateTime.add a2 delta) as [a3| |];
      cbn [gstart yielded] in H; [|by apply elem_of_nil in H..].
    apply equinox_loop_yields in H as (_ & He & _).
    by apply (le_trans _ _ _ Hmin).
Qed.

Lemma since_shubunnohi p :
  p ∈ yielded (shubunnohi self) -> DATE_00 <=d p.1.
Proof.
  pose proof (autumnal_anchor_fact) as F.
  apply obind_Ok in F as (a0 & E0 & F). apply obind_Ok in F as (a1 & E1 & F).
  apply obind_Ok in F as (a2 & E2 & F). apply Ok_inj in F.
  assert (DateTime.date a2 = mkdate 2019 9 23) as D2
    by exact (f_equal snd F).
  pose proof (new_wf _ _ _ _ _ _ E0) as W0.
  destruct (add_Ok _ _ _ W0 E1) as [W1 _].
  destruct (add_Ok _ _ _ W1 E2) as [W2 _].
  unfold shubunnohi. cbv zeta. rewrite E0. cbn [gstart]. rewrite E1.
  cbn [gstart]. rewrite E2. cbn [gstart]. destruct p as [d h].
  pose proof (max_ge_l DATE_00 (min_date self)) as Hmin.
  intros [H|H]%elem_of_yielded_chain.
  - destruct (DateTime.date a1 <?d max_date self);
      [|by apply elem_of_nil in H].
    apply equinox_loop_yields in H as (Hgo & _).
    by apply (le_trans _ _ _ Hmin).
  - destruct (max_ DATE_00 (min_date self) <=?d DateTime.date a2);
      [|by apply elem_of_nil in H].
    apply equinox_loop_yields in H as (_ & _ & _ & Ht).
    apply trajectory_ge in Ht as [_ Hge]; [|done|pose proof delta_pos; lia].
    rewrite D2 in Hge. cbn [fst].
    eapply le_trans; [|exact Hge]. reflexivity.
Qed.

Lemma since_special p : p ∈ yielded (special self) -> DATE_00 <=d p.1.
Proof.
  unfold special, _holidays_filter. rewrite yielded_gen_filter.
  intros [_ H]%list_elem_of_filter. cbn [_special yielded] in H.
  rewrite !elem_of_cons, elem_of_nil in H.
  repeat (destruct H as [->|H]; [reflexivity|]). destruct H.
Qed.

Lemma since_catalogue g p :
  g ∈ catalogue self -> p ∈ yielded g -> DATE_00 <=d p.1.
Proof.
  unfold catalogue. rewrite !elem_of_cons, elem_of_nil. intros H Hp.
  repeat (destruct H as [->|H];
    [lazymatch type of Hp with
     | _ ∈ yielded (ganjitsu _) => exact (since_ganjitsu p Hp)
     | _ ∈ yielded (seijinnohi _) => exact (since_seijinnohi p Hp)
     | _ ∈ yielded (kenkokukinennohi _) =>
         exact (since_kenkokukinennohi p Hp)
     | _ ∈ yielded (shunbunnohi _) => exact (since_shunbunnohi p Hp)
     | _ ∈ yielded (showanohi _) => exact (since_showanohi p Hp)
     | _ ∈ yielded (kenpokinenbi _) => exact (since_kenpokinenbi p Hp)
     | _ ∈ yielded (midorinohi _) => exact (since_midorinohi p Hp)
     | _ ∈ yielded (kodomonohi _) => exact (since_kodomonohi p Hp)
     | _ ∈ yielded (uminohi _) => exact (since_uminohi p Hp)
     | _ ∈ yielded (yamanohi _) => exact (since_yamanohi p Hp)
     | _ ∈ yielded (keironohi _) => exact (since_keironohi p Hp)
     | _ ∈ yielded (shubunnohi _) => exact (since_shubunnohi p Hp)
     | _ ∈ yielded (supotsunohi _) => exact (since_supotsunohi p Hp)
     | _ ∈ yielded (taikunohi _) => exact (since_taikunohi p Hp)
     | _ ∈ yielded (bunkanohi _) => exact (since_bunkanohi p Hp)
     | _ ∈ yielded (kinrokanshanohi _) =>
         exact (since_kinrokanshanohi p Hp)
     | _ ∈ yielded (tennotanjobi _) => exact (since_tennotanjobi p Hp)
     | _ ∈ yielded (special _) => exact (since_special p Hp)
     end|]).
  destruct H.
Qed.

Lemma since_kokuminnokyujitsu holidays p :
  valid (min_date self) -> valid (max_date self) ->
  p ∈ yielded (kokuminnokyujitsu self holidays) -> DATE_02 <d p.1.
Proof.
  intros Vmin Vmax. destruct p as [k v].
  intros (d & Hd & Hp)%elem_of_gen_for_inv.
  rewrite yielded_iter_all_dates in Hd by done.
  apply elem_of_days_of in Hd as (Vd & _ & _); [|done..].
  destruct (kokuminnokyujitsu_body_range _ _ _ _ _ Vd Hp) as (_ & Hlt & _).
  destruct (kokuminnokyujitsu_body_cause _ _ _ _ _ Vd Hp)
    as [_ [[_ (H2 & _)]|[_ (H3 & _)]]]; cbn [fst].
  - by apply (le_lt_trans _ d).
  - apply (le_lt_trans _ d); [|done].
    apply (le_trans _ DATE_03); [reflexivity|done].
Qed.

End SinceTheAct.

(** X21. Whatever [min_date] is, no generator of the catalogue yields a
    date before 1948-07-23, the day the Act came into force, the derived
    holidays are all after 1973-04-12, and so no key of a resolved
    dictionary is before 1948-07-23. *)
Theorem no_holiday_before_the_act :
  forall self,
  (forall g p, g ∈ catalogue self -> p ∈ yielded g -> DATE_00 <=d p.1)
  /\ (forall holidays p,
        valid (min_date self) -> valid (max_date self) ->
        p ∈ yielded (kokuminnokyujitsu self holidays) -> DATE_02 <d p.1)
  /\ (forall m k v,
        valid (min_date self) -> valid (max_date self) ->
        resolve self = Ok m -> m !! k = Some v -> DATE_00 <=d k).
Proof.
  intros self. split; [apply since_catalogue|].
  split; [intros holidays p; apply since_kokuminnokyujitsu|].
  intros m k v Vmin Vmax Hm Hk.
  destruct (resolve_base self m Hm) as (base & Eb & _ & ->).
  apply foldl_setitem_lookup_Some in Hk as [Hk|Hk].
  - apply (dict_keys _ _ _ _ Eb) in Hk.
    apply elem_of_chain_all in Hk as (g & Hg & Hp).
    + exact (since_catalogue self g (k, v) Hg Hp).
    + unfold dict in Eb. by apply dict_update_Ok in Eb as [? _].
  - apply lt_le. apply (lt_trans _ DATE_02); [reflexivity|].
    exact (since_kokuminnokyujitsu self base (k, v) Vmin Vmax Hk).
Qed.

Lemma no_holiday_before_the_act_witness :
  DATE_00 <=d mkdate 1948 11 3.
Proof.
  refine (proj1 (no_holiday_before_the_act
                   (__init__ (mkdate 1 1 1) (mkdate 1948 12 31)))
            (bunkanohi (__init__ (mkdate 1 1 1) (mkdate 1948 12 31)))
            (mkdate 1948 11 3, "文化の日"%string) _ _).
  - unfold catalogue. rewrite !elem_of_cons. tauto.
  - apply (bool_decide_unpack _). vm_compute. exact I.
Defined.

(* ===================================================================== *)
(** * The substitute holiday before 2007                                 *)
(* ===================================================================== *)

Section SubstituteBefore2007.

Lemma sandwich_names max_date holidays d k v :
  (k, v) ∈ yielded (sandwich max_date holidays d) -> v = kokuminno.
Proof.
  unfold sandwich.
  destruct (add_days d 2) as [two| |]; cbn [gstart yielded];
    [|by intros ?%elem_of_nil..].
  destruct (mem two holidays); [|by intros ?%elem_of_nil].
  destruct (add_days d 1) as [one| |]; cbn [gstart yielded];
    [|by intros ?%elem_of_nil..].
  destruct (negb (mem one holidays) && negb (weekday one =? 6)
            && (one <=?d max_date)); [|by intros ?%elem_of_nil].
  by intros [= -> ->]%list_elem_of_singleton.
Qed.

(** The iteration of a Sunday holiday of the two eras before 2007. *)
Lemma sunday_body_before_2007 max_date holidays d one :
  DATE_02 <=d d -> d <d DATE_07 ->
  mem d holidays = true -> weekday d = 6 -> add_days d 1 = Ok one ->
  kokuminnokyujitsu_body max_date holidays d
  = if negb (mem one holidays) && (one <=?d max_date)
    then Yield (one, furikae) Stop
    else if d <?d DATE_03 then Stop else sandwich max_date holidays d.
Proof.
  intros H2 H7 Hm Hw E1. unfold kokuminnokyujitsu_body.
  rewrite (proj2 (ltb_false_iff _ _) H2), Hm, Hw, E1.
  rewrite (proj2 (ltb_true_iff _ _) H7). cbn [Z.eqb Pos.eqb gstart].
  destruct (d <?d DATE_03); by destruct (negb _ && _).
Qed.

End SubstituteBefore2007.

(** X22. From 1973-04-12 until 2006, when a date [d] of the range is a
    holiday of the dictionary and a Sunday, [kokuminnokyujitsu] yields
    the day after [d] as 振替休日 if that day is not a holiday and not
    after [max_date]; if the day after is a holiday, the iteration of
    [d] yields no 振替休日 at all: there is no search for a later day as
    from 2007. *)
Theorem substitute_is_next_day_before_2007 :
  forall self holidays d one,
  valid (min_date self) -> valid (max_date self) -> valid d ->
  in_range self d -> DATE_02 <=d d -> d <d DATE_07 ->
  mem d holidays = true -> weekday d = 6 -> add_days d 1 = Ok one ->
  (mem one holidays = false -> one <=d max_date self ->
   (one, furikae) ∈ yielded (kokuminnokyujitsu self holidays))
  /\ (mem one holidays = true ->
      forall k v,
      (k, v) ∈ yielded (kokuminnokyujitsu_body (max_date self) holidays d) ->
      v <> furikae).
Proof.
  intros self holidays d one Vmin Vmax Vd [Hlo Hhi] H2 H7 Hm Hw E1.
  pose proof (sunday_body_before_2007 (max_date self) holidays d one
                H2 H7 Hm Hw E1) as Hb.
  destruct (add_days_1_lt _ _ Vd E1) as [Vo Hlt].
  split.
  - intros Hfree Hin. unfold kokuminnokyujitsu.
    destruct (days_of_split self d Vmin Vmax Vd Hlo Hhi)
      as (l1 & l2 & E & Hl1).
    assert (yielded (iter_all_dates self) = l1 ++ d :: l2) as E'
      by (by rewrite yielded_iter_all_dates).
    apply (elem_of_gen_for _ _ l1 d l2); [done|..].
    + by apply (earlier_bodies_end self holidays d one l1 l2).
    + rewrite Hb, Hfree, (proj2 (leb_true_iff _ _) Hin). cbn [negb andb].
      apply elem_of_cons. by left.
  - intros Hhol k v. rewrite Hb, Hhol. cbn [negb andb].
    destruct (d <?d DATE_03); [by intros ?%elem_of_nil|].
    by intros ->%sandwich_names.
Qed.

(** A dictionary with the one holiday of Sunday 1973-04-29. *)
Definition april_1973 : hdict :=
  {[ mkdate 1973 4 29 := "天皇誕生日"%string ]}.

Lemma substitute_is_next_day_before_2007_witness :
  (mkdate 1973 4 30, furikae)
  ∈ yielded (kokuminnokyujitsu
               (__init__ (mkdate 1973 4 1) (mkdate 1973 5 31)) april_1973).
Proof.
  assert (mem (mkdate 1973 4 29) april_1973 = true) as M
    by (vm_compute; reflexivity).
  assert (mem (mkdate 1973 4 30) april_1973 = false) as M'
    by (vm_compute; reflexivity).
  apply (proj1 (substitute_is_next_day_before_2007
                  (__init__ (mkdate 1973 4 1) (mkdate 1973 5 31))
                  april_1973 (mkdate 1973 4 29) (mkdate 1973 4 30)
                  eq_refl eq_refl eq_refl (conj eq_refl eq_refl)
                  eq_refl eq_refl M eq_refl eq_refl));
    [exact M'|reflexivity].
Defined.
